(** * PDF-Editor: annotation geometry, gesture engine and export compositor

    A shallow embedding of the TypeScript sources

      - [types.ts]                        (data model),
      - [components/AnnotationEditor.tsx] (pointer-gesture engine, editor overlay),
      - [App.tsx]                         (page collection, grid thumbnails),
      - [utils/pdfUtils.ts]               (ingestion, high-res render, export).

    Conventions of the embedding.

      - A JavaScript [number] holding a coordinate, an extent or an alpha is
        an exact real ([R]); rounding, [NaN], infinities and the sign of
        zero are outside the model, except for the arithmetic of a move,
        which is written for any numbers and read on the reals and on
        binary64 floats.  A page rotation is an integer number of degrees
        ([Z]), and [%] is the truncated remainder [Z.rem].
      - A JavaScript string is a [string] holding its UTF-8 encoding.
      - An optional field ([width?: number]) is an [option]; the idiom
        [v || 0] is [default 0 v].
      - React state is a record; every setter rebuilds the record.  A
        handler runs on the state of the latest render and its result is
        the state of the next render.
      - Values produced by the environment ([crypto.randomUUID()], the
        answer to [prompt]) are arguments of the handler that asks for them.
      - An [ArrayBuffer] is a reference into a store of buffers, so that
        handing over a buffer and handing over a copy can be told apart. *)

From Stdlib Require Import Floats.PrimFloat.
From Stdlib Require Import Reals Lra ZArith.
From Stdlib Require Import Ascii String.
From Stdlib.Strings Require Import Byte.
From stdpp Require Import gmap strings list.

Local Open Scope R_scope.

(* ===================================================================== *)
(** * Data model ([types.ts])                                              *)
(* ===================================================================== *)

(** [Annotation['type']] *)
Inductive AnnotationType := rect | arrow | text | highlight | image.

(** [ToolMode = 'select' | 'rect' | 'arrow' | 'text' | 'highlight' | 'image'],
    that is ['select'] or one of the annotation types. *)
Inductive ToolMode :=
| select
| shape (t : AnnotationType).

Inductive FontWeight := normal | bold.

Record Annotation := mkAnnotation {
  ann_id : string;
  ann_type : AnnotationType;
  ann_x : R;
  ann_y : R;
  ann_width : option R;
  ann_height : option R;
  ann_text : option string;
  ann_color : string;
  ann_fontSize : option R;
  ann_fontWeight : option FontWeight;
  ann_imageData : option string
}.

(** [Partial<Annotation>]: every field may be absent.  The one place that
    builds a provisional shape sets its [type], and [handleMouseUp] casts
    it back to [Annotation], so [type] is kept as a plain field. *)
Record PartialAnnotation := mkPartial {
  part_id : option string;
  part_type : AnnotationType;
  part_x : option R;
  part_y : option R;
  part_width : option R;
  part_height : option R;
  part_text : option string;
  part_color : option string;
  part_fontSize : option R;
  part_fontWeight : option FontWeight;
  part_imageData : option string
}.

Record PDFPageData := mkPage {
  page_id : string;
  sourcePdfId : string;
  pageIndex : nat;
  rotation : Z;
  thumbnailUrl : string;
  originalWidth : R;
  originalHeight : R;
  page_annotations : list Annotation
}.

(** [x || 0] on an optional number. *)
Definition orZero (v : option R) : R := default 0 v.

(** Truthiness of a [string | null]: [null] and [''] are falsy. *)
Definition truthy (s : option string) : bool :=
  match s with
  | Some s => negb (String.eqb s "")
  | None => false
  end.

(** [a || b] on strings. *)
Definition orStr (a : option string) (b : string) : string :=
  match a with
  | Some s => if String.eqb s "" then b else s
  | None => b
  end.

(* ===================================================================== *)
(** * Box normalization                                                    *)
(* ===================================================================== *)

(** The locals [boxX, boxY, boxW, boxH] of a render call. *)
Record Box := mkBox { boxX : R; boxY : R; boxW : R; boxH : R }.

(** [if (boxW < 0) { boxX += boxW; boxW = Math.abs(boxW); }] *)
Definition flipW (b : Box) : Box :=
  if Rlt_dec (boxW b) 0
  then mkBox (boxX b + boxW b) (boxY b) (Rabs (boxW b)) (boxH b)
  else b.

(** [if (boxH < 0) { boxY += boxH; boxH = Math.abs(boxH); }] *)
Definition flipH (b : Box) : Box :=
  if Rlt_dec (boxH b) 0
  then mkBox (boxX b) (boxY b + boxH b) (boxW b) (Rabs (boxH b))
  else b.

(** The two statements in sequence, as written at each of the three call
    sites ([renderAnnotation], the thumbnail map in [App], the annotation
    loop of [generateFinalPDF]). *)
Definition normalize (b : Box) : Box := flipH (flipW b).

(** A render call works on a frame: the annotation object it was handed
    and its four locals.  Every statement of a renderer is a step on the
    frame, and what the renderer shows is read from the frame the
    normalization leaves. *)
Record Frame (A : Type) := mkFrame { frame_ann : A; frame_box : Box }.
Arguments mkFrame {A} frame_ann frame_box.
Arguments frame_ann {A} f.
Arguments frame_box {A} f.

(** [let boxX = ann.x || 0; let boxY = ann.y || 0;
     let boxW = ann.width || 0; let boxH = ann.height || 0;]
    on an [Annotation] (the thumbnail and the export) and on an
    [Annotation | Partial<Annotation>] (the editor overlay). *)
Definition enterFrame (ann : Annotation) : Frame Annotation :=
  mkFrame ann (mkBox (ann_x ann) (ann_y ann)
                     (orZero (ann_width ann)) (orZero (ann_height ann))).

Definition enterPartialFrame (ann : PartialAnnotation)
  : Frame PartialAnnotation :=
  mkFrame ann (mkBox (orZero (part_x ann)) (orZero (part_y ann))
                     (orZero (part_width ann)) (orZero (part_height ann))).

(** Each of the two conditional statements assigns to locals only. *)
Definition stepFlipW {A} (f : Frame A) : Frame A :=
  mkFrame (frame_ann f) (flipW (frame_box f)).

Definition stepFlipH {A} (f : Frame A) : Frame A :=
  mkFrame (frame_ann f) (flipH (frame_box f)).

Definition normalizeFrame (ann : Annotation) : Frame Annotation :=
  stepFlipH (stepFlipW (enterFrame ann)).

Definition normalizePartialFrame (ann : PartialAnnotation)
  : Frame PartialAnnotation :=
  stepFlipH (stepFlipW (enterPartialFrame ann)).


(* ===================================================================== *)
(** * Interactive annotation engine ([AnnotationEditor.tsx])               *)
(* ===================================================================== *)

Record Point := mkPoint { pt_x : R; pt_y : R }.

Record MouseEvent := mkMouseEvent { clientX : R; clientY : R }.

Record DOMRect := mkDOMRect {
  rect_left : R; rect_top : R; rect_width : R; rect_height : R
}.

(** What the component closes over besides its own state: the [page]
    prop and the bounding rectangle of [imgRef.current] ([None] while the
    ref is null). *)
Record Props := mkProps { page : PDFPageData; imgRect : option DOMRect }.

Inductive InteractionMode := mode_none | moving | resizing.

(** The [useState] cells of the component. *)
Record EditorState := mkEditor {
  annotations : list Annotation;
  tool : ToolMode;
  color : string;
  fontSize : R;
  isBold : bool;
  zoom : R;
  isDrawing : bool;
  dragStartPos : Point;
  currentAnnotation : option PartialAnnotation;
  selectedId : option string;
  interactionMode : InteractionMode;
  resizeHandle : option string;
  interactionStartPos : Point;
  initialAnnState : option Annotation
}.

(** [useState] initial values for a page. *)
Definition initialState (pg : PDFPageData) : EditorState :=
  mkEditor (page_annotations pg) select "#ef4444" 32 false (8 / 10)
           false (mkPoint 0 0) None None mode_none None (mkPoint 0 0) None.

(** ** Setters *)

Definition setAnnotations (v : list Annotation) (s : EditorState) : EditorState :=
  mkEditor v (tool s) (color s) (fontSize s) (isBold s) (zoom s)
           (isDrawing s) (dragStartPos s) (currentAnnotation s) (selectedId s)
           (interactionMode s) (resizeHandle s) (interactionStartPos s)
           (initialAnnState s).

Definition setTool (v : ToolMode) (s : EditorState) : EditorState :=
  mkEditor (annotations s) v (color s) (fontSize s) (isBold s) (zoom s)
           (isDrawing s) (dragStartPos s) (currentAnnotation s) (selectedId s)
           (interactionMode s) (resizeHandle s) (interactionStartPos s)
           (initialAnnState s).

Definition setColor (v : string) (s : EditorState) : EditorState :=
  mkEditor (annotations s) (tool s) v (fontSize s) (isBold s) (zoom s)
           (isDrawing s) (dragStartPos s) (currentAnnotation s) (selectedId s)
           (interactionMode s) (resizeHandle s) (interactionStartPos s)
           (initialAnnState s).

Definition setFontSize (v : R) (s : EditorState) : EditorState :=
  mkEditor (annotations s) (tool s) (color s) v (isBold s) (zoom s)
           (isDrawing s) (dragStartPos s) (currentAnnotation s) (selectedId s)
           (interactionMode s) (resizeHandle s) (interactionStartPos s)
           (initialAnnState s).

Definition setIsBold (v : bool) (s : EditorState) : EditorState :=
  mkEditor (annotations s) (tool s) (color s) (fontSize s) v (zoom s)
           (isDrawing s) (dragStartPos s) (currentAnnotation s) (selectedId s)
           (interactionMode s) (resizeHandle s) (interactionStartPos s)
           (initialAnnState s).

Definition setIsDrawing (v : bool) (s : EditorState) : EditorState :=
  mkEditor (annotations s) (tool s) (color s) (fontSize s) (isBold s) (zoom s)
           v (dragStartPos s) (currentAnnotation s) (selectedId s)
           (interactionMode s) (resizeHandle s) (interactionStartPos s)
           (initialAnnState s).

Definition setDragStartPos (v : Point) (s : EditorState) : EditorState :=
  mkEditor (annotations s) (tool s) (color s) (fontSize s) (isBold s) (zoom s)
           (isDrawing s) v (currentAnnotation s) (selectedId s)
           (interactionMode s) (resizeHandle s) (interactionStartPos s)
           (initialAnnState s).

Definition setCurrentAnnotation (v : option PartialAnnotation) (s : EditorState)
  : EditorState :=
  mkEditor (annotations s) (tool s) (color s) (fontSize s) (isBold s) (zoom s)
           (isDrawing s) (dragStartPos s) v (selectedId s)
           (interactionMode s) (resizeHandle s) (interactionStartPos s)
           (initialAnnState s).

Definition setSelectedId (v : option string) (s : EditorState) : EditorState :=
  mkEditor (annotations s) (tool s) (color s) (fontSize s) (isBold s) (zoom s)
           (isDrawing s) (dragStartPos s) (currentAnnotation s) v
           (interactionMode s) (resizeHandle s) (interactionStartPos s)
           (initialAnnState s).

Definition setInteractionMode (v : InteractionMode) (s : EditorState)
  : EditorState :=
  mkEditor (annotations s) (tool s) (color s) (fontSize s) (isBold s) (zoom s)
           (isDrawing s) (dragStartPos s) (currentAnnotation s) (selectedId s)
           v (resizeHandle s) (interactionStartPos s) (initialAnnState s).

Definition setResizeHandle (v : option string) (s : EditorState) : EditorState :=
  mkEditor (annotations s) (tool s) (color s) (fontSize s) (isBold s) (zoom s)
           (isDrawing s) (dragStartPos s) (currentAnnotation s) (selectedId s)
           (interactionMode s) v (interactionStartPos s) (initialAnnState s).

Definition setInteractionStartPos (v : Point) (s : EditorState) : EditorState :=
  mkEditor (annotations s) (tool s) (color s) (fontSize s) (isBold s) (zoom s)
           (isDrawing s) (dragStartPos s) (currentAnnotation s) (selectedId s)
           (interactionMode s) (resizeHandle s) v (initialAnnState s).

Definition setInitialAnnState (v : option Annotation) (s : EditorState)
  : EditorState :=
  mkEditor (annotations s) (tool s) (color s) (fontSize s) (isBold s) (zoom s)
           (isDrawing s) (dragStartPos s) (currentAnnotation s) (selectedId s)
           (interactionMode s) (resizeHandle s) (interactionStartPos s) v.

(** ** Small JavaScript idioms *)

(** [v || d] on an optional number: [undefined] and [0] are falsy. *)
Definition orNum (v : option R) (d : R) : R :=
  match v with
  | Some r => if Req_dec_T r 0 then d else r
  | None => d
  end.

(** [ann.id === selectedId] *)
Definition idIs (sel : option string) (ann : Annotation) : bool :=
  match sel with
  | Some i => String.eqb (ann_id ann) i
  | None => false
  end.

(** [handle.includes(c)] for a one-character [c]. *)
Definition includes (h : string) (c : Ascii.ascii) : bool :=
  existsb (Ascii.eqb c) (String.list_ascii_of_string h).

(** [Math.abs(v) > 5] *)
Definition absExceeds5 (v : R) : bool :=
  if Rlt_dec 5 (Rabs v) then true else false.

(** A [string] holds the UTF-8 encoding of the text.  [codePoints] reads
    the characters back: one, two, three or four bytes each; a byte that
    does not start a well-formed sequence is read as the character of its
    own code. *)
Definition isContinuation (b : N) : bool :=
  ((0x80 <=? b) && (b <? 0xC0))%N.

Definition twoBytes (b0 b1 : N) : N := ((b0 - 0xC0) * 64 + (b1 - 0x80))%N.

Definition threeBytes (b0 b1 b2 : N) : N :=
  ((b0 - 0xE0) * 4096 + (b1 - 0x80) * 64 + (b2 - 0x80))%N.

Definition fourBytes (b0 b1 b2 b3 : N) : N :=
  ((b0 - 0xF0) * 262144 + (b1 - 0x80) * 4096 + (b2 - 0x80) * 64
   + (b3 - 0x80))%N.

Fixpoint decodeUtf8 (bs : list N) : list N :=
  match bs with
  | [] => []
  | b0 :: rest =>
      match rest with
      | b1 :: rest1 =>
          if ((0xC2 <=? b0) && (b0 <? 0xE0))%N && isContinuation b1
          then twoBytes b0 b1 :: decodeUtf8 rest1
          else
            match rest1 with
            | b2 :: rest2 =>
                if ((0xE0 <=? b0) && (b0 <? 0xF0))%N
                   && isContinuation b1 && isContinuation b2
                   && (0x800 <=? threeBytes b0 b1 b2)%N
                then threeBytes b0 b1 b2 :: decodeUtf8 rest2
                else
                  match rest2 with
                  | b3 :: rest3 =>
                      if ((0xF0 <=? b0) && (b0 <? 0xF5))%N
                         && isContinuation b1 && isContinuation b2
                         && isContinuation b3
                         && (0x10000 <=? fourBytes b0 b1 b2 b3)%N
                         && (fourBytes b0 b1 b2 b3 <? 0x110000)%N
                      then fourBytes b0 b1 b2 b3 :: decodeUtf8 rest3
                      else b0 :: decodeUtf8 rest
                  | [] => b0 :: decodeUtf8 rest
                  end
            | [] => b0 :: decodeUtf8 rest
            end
      | [] => [b0]
      end
  end.

Definition codePoints (t : string) : list N :=
  decodeUtf8 (map Ascii.N_of_ascii (String.list_ascii_of_string t)).

(** The characters [String.prototype.trim] removes: the white space and
    the line terminators of ECMAScript.  TAB, LF, VT, FF, CR, SPACE,
    NO-BREAK SPACE, OGHAM SPACE MARK, EN QUAD to HAIR SPACE, LINE
    SEPARATOR, PARAGRAPH SEPARATOR, NARROW NO-BREAK SPACE, MEDIUM
    MATHEMATICAL SPACE, IDEOGRAPHIC SPACE and the byte order mark. *)
Definition isWhiteSpace (c : N) : bool :=
  (((9 <=? c) && (c <=? 13)) || (c =? 0x20) || (c =? 0xA0) || (c =? 0x1680)
   || ((0x2000 <=? c) && (c <=? 0x200A)) || (c =? 0x2028) || (c =? 0x2029)
   || (c =? 0x202F) || (c =? 0x205F) || (c =? 0x3000) || (c =? 0xFEFF))%N.

(** [text.trim() !== ""] *)
Definition trimNonEmpty (t : string) : bool :=
  existsb (fun c => negb (isWhiteSpace c)) (codePoints t).

(** [text && text.trim() !== ""] on the answer of [prompt]. *)
Definition acceptedText (answer : option string) : bool :=
  match answer with
  | Some t => negb (String.eqb t "") && trimNonEmpty t
  | None => false
  end.

(** ** [getPointerPos] *)
Definition getPointerPos (pr : Props) (e : MouseEvent) : Point :=
  match imgRect pr with
  | None => mkPoint 0 0
  | Some rc =>
      let relX := clientX e - rect_left rc in
      let relY := clientY e - rect_top rc in
      let scaleX := originalWidth (page pr) / rect_width rc in
      let scaleY := originalHeight (page pr) / rect_height rc in
      mkPoint (relX * scaleX) (relY * scaleY)
  end.

(** ** Object spreads used by the handlers *)

(** [{ ...ann, x: nx, y: ny }] *)
Definition withPosition (nx ny : R) (ann : Annotation) : Annotation :=
  mkAnnotation (ann_id ann) (ann_type ann) nx ny (ann_width ann)
               (ann_height ann) (ann_text ann) (ann_color ann)
               (ann_fontSize ann) (ann_fontWeight ann) (ann_imageData ann).

(** [{ ...ann, x: newX, y: newY, width: newW, height: newH }] *)
Definition withGeometry (nx ny nw nh : R) (ann : Annotation) : Annotation :=
  mkAnnotation (ann_id ann) (ann_type ann) nx ny (Some nw) (Some nh)
               (ann_text ann) (ann_color ann)
               (ann_fontSize ann) (ann_fontWeight ann) (ann_imageData ann).

(** [{ ...ann, color: newColor }] *)
Definition withColor (c : string) (ann : Annotation) : Annotation :=
  mkAnnotation (ann_id ann) (ann_type ann) (ann_x ann) (ann_y ann)
               (ann_width ann) (ann_height ann) (ann_text ann) c
               (ann_fontSize ann) (ann_fontWeight ann) (ann_imageData ann).

(** [{ ...ann, fontSize, fontWeight }] *)
Definition withFont (fs : R) (fw : FontWeight) (ann : Annotation) : Annotation :=
  mkAnnotation (ann_id ann) (ann_type ann) (ann_x ann) (ann_y ann)
               (ann_width ann) (ann_height ann) (ann_text ann) (ann_color ann)
               (Some fs) (Some fw) (ann_imageData ann).

(** [{ ...prev, width: w, height: h }] on the provisional shape. *)
Definition withExtent (w h : R) (p : PartialAnnotation) : PartialAnnotation :=
  mkPartial (part_id p) (part_type p) (part_x p) (part_y p) (Some w) (Some h)
            (part_text p) (part_color p) (part_fontSize p) (part_fontWeight p)
            (part_imageData p).

(** An [Annotation] read as a [Partial<Annotation>]. *)
Definition asPartial (a : Annotation) : PartialAnnotation :=
  mkPartial (Some (ann_id a)) (ann_type a) (Some (ann_x a)) (Some (ann_y a))
            (ann_width a) (ann_height a) (ann_text a) (Some (ann_color a))
            (ann_fontSize a) (ann_fontWeight a) (ann_imageData a).

Definition weightOf (b : bool) : FontWeight := if b then bold else normal.

(** ** The [useEffect] that pushes font size and weight to the selection *)
Definition syncFont (s : EditorState) : EditorState :=
  if truthy (selectedId s)
  then setAnnotations
         (map (fun ann =>
                 if idIs (selectedId s) ann
                 then match ann_type ann with
                      | text => withFont (fontSize s) (weightOf (isBold s)) ann
                      | _ => ann
                      end
                 else ann)
              (annotations s)) s
  else s.

(** The effect's dependency array [[fontSize, isBold, selectedId]] differs
    between two renders. *)
Definition depsChanged (s0 s1 : EditorState) : bool :=
  negb ((if Req_dec_T (fontSize s0) (fontSize s1) then true else false)
        && Bool.eqb (isBold s0) (isBold s1)
        && bool_decide (selectedId s0 = selectedId s1)).

(** One event: the handler runs on the rendered state, the component
    re-renders, and the effect runs if one of its dependencies changed. *)
Definition dispatch (handler : EditorState -> EditorState) (s : EditorState)
  : EditorState :=
  let s1 := handler s in
  if depsChanged s s1 then syncFont s1 else s1.

(** ** [applyColor] *)
Definition applyColor (newColor : string) (s : EditorState) : EditorState :=
  let s1 := setColor newColor s in
  if truthy (selectedId s)
  then setAnnotations
         (map (fun ann => if idIs (selectedId s) ann
                          then withColor newColor ann else ann)
              (annotations s1)) s1
  else s1.

(** ** [handleMouseDown]
    [answer] is what [prompt] returns and [uuid] what [crypto.randomUUID()]
    returns, should the handler ask. *)
Definition handleMouseDown (pr : Props) (e : MouseEvent)
    (answer : option string) (uuid : string) (s : EditorState) : EditorState :=
  match interactionMode s with
  | resizing => s
  | moving => s
  | mode_none =>
      match tool s with
      | select => setSelectedId None s
      | shape t =>
          let p := getPointerPos pr e in
          let s1 := setIsDrawing true (setDragStartPos p s) in
          match t with
          | text =>
              let s2 :=
                if acceptedText answer
                then
                  let newAnn :=
                    mkAnnotation uuid text (pt_x p) (pt_y p) None None answer
                                 (color s) (Some (fontSize s))
                                 (Some (weightOf (isBold s))) None in
                  setSelectedId (Some (ann_id newAnn))
                    (setAnnotations (annotations s ++ [newAnn]) s1)
                else s1 in
              setIsDrawing false s2
          | image => setIsDrawing false s1
          | _ =>
              let shapeColor :=
                match t with highlight => "#ffff00"%string | _ => color s end in
              setCurrentAnnotation
                (Some (mkPartial None t (Some (pt_x p)) (Some (pt_y p))
                                 (Some 0) (Some 0) None (Some shapeColor)
                                 None None None)) s1
          end
      end
  end.

(** ** [handleMouseMove] *)
Definition resizeTo (init : Annotation) (handle : string) (dx dy : R)
    (ann : Annotation) : Annotation :=
  let newX := ann_x init in
  let newY := ann_y init in
  let newW := orZero (ann_width init) in
  let newH := orZero (ann_height init) in
  let newW := if includes handle "e"%char then newW + dx else newW in
  let '(newX, newW) :=
    if includes handle "w"%char then (newX + dx, newW - dx) else (newX, newW) in
  let newH := if includes handle "s"%char then newH + dy else newH in
  let '(newY, newH) :=
    if includes handle "n"%char then (newY + dy, newH - dy) else (newY, newH) in
  withGeometry newX newY newW newH ann.

Definition isText (t : ToolMode) : bool :=
  match t with shape text => true | _ => false end.

Definition isImage (t : ToolMode) : bool :=
  match t with shape image => true | _ => false end.

Definition handleMouseMove (pr : Props) (e : MouseEvent) (s : EditorState)
  : EditorState :=
  let p := getPointerPos pr e in
  let dx := pt_x p - pt_x (interactionStartPos s) in
  let dy := pt_y p - pt_y (interactionStartPos s) in
  match interactionMode s, truthy (selectedId s), initialAnnState s with
  | moving, true, Some init =>
      setAnnotations
        (map (fun ann =>
                if idIs (selectedId s) ann
                then withPosition (ann_x init + dx) (ann_y init + dy) ann
                else ann)
             (annotations s)) s
  | _, _, _ =>
      match interactionMode s, truthy (selectedId s), initialAnnState s,
            truthy (resizeHandle s), resizeHandle s with
      | resizing, true, Some init, true, Some handle =>
          setAnnotations
            (map (fun ann =>
                    if negb (idIs (selectedId s) ann) then ann
                    else resizeTo init handle dx dy ann)
                 (annotations s)) s
      | _, _, _, _, _ =>
          match currentAnnotation s with
          | Some prev =>
              if negb (isDrawing s) || isText (tool s) || isImage (tool s)
              then s
              else setCurrentAnnotation
                     (Some (withExtent (pt_x p - pt_x (dragStartPos s))
                                       (pt_y p - pt_y (dragStartPos s)) prev)) s
          | None => s
          end
      end
  end.

(** ** [handleMouseUp] (also bound to [onMouseLeave]) *)
Definition handleMouseUp (uuid : string) (s : EditorState) : EditorState :=
  let s1 := setInitialAnnState None
              (setResizeHandle None (setInteractionMode mode_none s)) in
  if negb (isDrawing s) then s1
  else
    let s2 := setIsDrawing false s1 in
    let s3 :=
      match currentAnnotation s with
      | Some cur =>
          if absExceeds5 (orZero (part_width cur))
             || absExceeds5 (orZero (part_height cur))
          then
            let newAnn :=
              mkAnnotation uuid (part_type cur)
                           (pt_x (dragStartPos s)) (pt_y (dragStartPos s))
                           (part_width cur) (part_height cur) None
                           (orStr (part_color cur) (color s)) None None None in
            setSelectedId (Some (ann_id newAnn))
              (setAnnotations (annotations s ++ [newAnn]) s2)
          else s2
      | None => s2
      end in
    setCurrentAnnotation None s3.

(** [annotations.find(a => a.id === id)] *)
Definition findById (id : string) (l : list Annotation) : option Annotation :=
  find (fun a => String.eqb (ann_id a) id) l.

(** ** [handleAnnotationMouseDown] *)
Definition handleAnnotationMouseDown (pr : Props) (e : MouseEvent)
    (id : string) (s : EditorState) : EditorState :=
  match tool s with
  | select =>
      match findById id (annotations s) with
      | None => s
      | Some ann =>
          let s1 :=
            setInitialAnnState (Some ann)
              (setInteractionStartPos (getPointerPos pr e)
                 (setInteractionMode moving (setSelectedId (Some id) s))) in
          let s2 :=
            match ann_type ann with
            | text =>
                setIsBold
                  (match ann_fontWeight ann with Some bold => true | _ => false end)
                  (setFontSize (orNum (ann_fontSize ann) 32) s1)
            | _ => s1
            end in
          match ann_type ann with
          | highlight => s2
          | _ => setColor (ann_color ann) s2
          end
      end
  | _ => s
  end.

(** ** [handleResizeStart] *)
Definition handleResizeStart (pr : Props) (e : MouseEvent) (handle : string)
    (id : string) (s : EditorState) : EditorState :=
  match findById id (annotations s) with
  | None => s
  | Some ann =>
      setInitialAnnState (Some ann)
        (setInteractionStartPos (getPointerPos pr e)
           (setResizeHandle (Some handle)
              (setInteractionMode resizing (setSelectedId (Some id) s))))
  end.

(** ** [deleteAnnotation] *)
Definition deleteAnnotation (id : string) (s : EditorState) : EditorState :=
  let s1 :=
    setAnnotations
      (filter (fun a => negb (String.eqb (ann_id a) id)) (annotations s)) s in
  if bool_decide (selectedId s = Some id) then setSelectedId None s1 else s1.

(** ** The arithmetic of a move, over any numbers

    The numbers of the program are the doubles of JavaScript; the
    handlers above compute with exact reals.  The three computations a
    move is made of are written here once for any numbers, to be read on
    the reals, where they are the handlers' own, and on the doubles. *)
Section MoveArithmetic.
Context {num : Type} (plus minus times over : num -> num -> num).

(** One coordinate of [getPointerPos]:
    [(e.clientX - rect.left) * (page.originalWidth / rect.width)]. *)
Definition pointerCoord (client left original extent : num) : num :=
  times (minus client left) (over original extent).

(** One coordinate of the moved annotation in [handleMouseMove]:
    [initialAnnState.x + (x - interactionStartPos.x)]. *)
Definition movedTo (snapshot start pos : num) : num :=
  plus snapshot (minus pos start).

(** The coordinate of an annotation that was at [x0] when it was
    pressed with the pointer at [start], after pointer-moves to the
    positions [ps]: each move computes from the snapshot [x0]. *)
Definition dragged (x0 start : num) (ps : list num) : num :=
  fold_left (fun _ pos => movedTo x0 start pos) ps x0.
End MoveArithmetic.

(** On doubles. *)
Definition doublePointer : float -> float -> float -> float -> float :=
  pointerCoord PrimFloat.sub PrimFloat.mul PrimFloat.div.


(** ** Gestures: a pointer-down, pointer-moves, a pointer-up *)

Definition moves (pr : Props) (es : list MouseEvent) (s : EditorState)
  : EditorState :=
  fold_left (fun st e => dispatch (handleMouseMove pr e) st) es s.


(** Press on the canvas at [e0] with a drawing tool, drag through [es],
    release. *)
Definition drawGesture (pr : Props) (e0 : MouseEvent) (es : list MouseEvent)
    (answer : option string) (uuid0 uuid : string) (s : EditorState)
  : EditorState :=
  dispatch (handleMouseUp uuid)
    (moves pr es (dispatch (handleMouseDown pr e0 answer uuid0) s)).

(* ===================================================================== *)
(** * Rendering                                                            *)
(* ===================================================================== *)

(** ** [Math] *)

(** [Math.atan2(y, x)] on the reals: the angle of the vector [(x, y)] in
    [(-PI, PI]], and [0] for the zero vector. *)
Definition atan2 (y x : R) : R :=
  if Rlt_dec 0 x then atan (y / x)
  else if Rlt_dec x 0
       then if Rle_dec 0 y then atan (y / x) + PI else atan (y / x) - PI
       else if Rlt_dec 0 y then PI / 2
            else if Rlt_dec y 0 then - (PI / 2) else 0.

(** The two base vertices of an arrow head of length [headLen] whose tip
    is [(toX, toY)], as all the arrow renderers compute them:
    [toX - headLen * Math.cos(angle -/+ Math.PI / 6)], and [sin] for [y]. *)
Definition headVertex1 (toX toY headLen angle : R) : R * R :=
  (toX - headLen * cos (angle - PI / 6), toY - headLen * sin (angle - PI / 6)).

Definition headVertex2 (toX toY headLen angle : R) : R * R :=
  (toX - headLen * cos (angle + PI / 6), toY - headLen * sin (angle + PI / 6)).

(** ** The editor overlay: [renderAnnotation] *)

Inductive Content :=
| svgArrow (x1 y1 x2 y2 : R) (a1 a2 : R * R) (stroke : string)
| divText (textColor : string) (fontPx : R) (weight : FontWeight)
          (body : option string)
| imgTag (src : string)
| divHighlight (backgroundColor : string) (opacity : R)
| divRect (borderPx : R) (borderColor : string)
| noContent.

(** The CSS of the positioned [div]; lengths are percentages of the page,
    [None] is [auto]. *)
Record Style := mkStyle {
  style_left : R;
  style_top : R;
  style_width : option R;
  style_height : option R;
  style_pointerEvents : bool;
  style_zIndex : Z;
  style_outline : bool
}.

Record OverlayNode := mkNode {
  node_style : Style;
  node_content : Content;
  node_handles : bool;
  node_deleteButton : bool
}.

(** [ann.id === selectedId] for an [id] that may be missing. *)
Definition partIdIs (sel : option string) (ann : PartialAnnotation) : bool :=
  match part_id ann, sel with
  | Some i, Some j => String.eqb i j
  | _, _ => false
  end.

Definition isSelectTool (t : ToolMode) : bool :=
  match t with select => true | _ => false end.

Definition renderContent (s : EditorState) (ann : PartialAnnotation)
    (box : Box) : Content :=
  match part_type ann with
  | arrow =>
      let rawX := orZero (part_x ann) in
      let rawY := orZero (part_y ann) in
      let rawW := orZero (part_width ann) in
      let rawH := orZero (part_height ann) in
      let x1 := rawX - boxX box in
      let y1 := rawY - boxY box in
      let x2 := (rawX + rawW) - boxX box in
      let y2 := (rawY + rawH) - boxY box in
      let headLen := 20 * (1 / zoom s * (5 / 10) + 5 / 10) in
      let angle := atan2 (y2 - y1) (x2 - x1) in
      svgArrow x1 y1 x2 y2 (headVertex1 x2 y2 headLen angle)
               (headVertex2 x2 y2 headLen angle) (default "" (part_color ann))
  | text =>
      divText (default "" (part_color ann))
              (orNum (part_fontSize ann) 32 * zoom s)
              (default normal (part_fontWeight ann)) (part_text ann)
  | image =>
      if truthy (part_imageData ann)
      then imgTag (default "" (part_imageData ann))
      else noContent
  | highlight => divHighlight (default "" (part_color ann)) (3 / 10)
  | rect => divRect 4 (default "" (part_color ann))
  end.

(** The statements of [renderAnnotation] after the normalization: they
    read the annotation and the locals of the frame. *)
Definition overlayBody (pr : Props) (s : EditorState) (isPreview : bool)
    (f : Frame PartialAnnotation) : OverlayNode :=
  let ann := frame_ann f in
  let box := frame_box f in
  let isSelected := negb isPreview && partIdIs (selectedId s) ann in
  let isTxt := match part_type ann with text => true | _ => false end in
  let style :=
    mkStyle (boxX box / originalWidth (page pr) * 100)
            (boxY box / originalHeight (page pr) * 100)
            (if isTxt then None
             else Some (boxW box / originalWidth (page pr) * 100))
            (if isTxt then None
             else Some (boxH box / originalHeight (page pr) * 100))
            (isSelectTool (tool s) && negb isPreview)
            (if isPreview then 20 else if isSelected then 30 else 10)%Z
            isSelected in
  mkNode style (renderContent s ann box)
         (isSelected && negb isTxt) isSelected.

Definition renderAnnotation (pr : Props) (s : EditorState)
    (ann : PartialAnnotation) (isPreview : bool) : OverlayNode :=
  overlayBody pr s isPreview (normalizePartialFrame ann).

(** What the editor shows: the committed annotations, then the provisional
    shape as a preview. *)
Definition renderOverlay (pr : Props) (s : EditorState) : list OverlayNode :=
  map (fun ann => renderAnnotation pr s (asPartial ann) false) (annotations s)
  ++ match currentAnnotation s with
     | Some cur => [renderAnnotation pr s cur true]
     | None => []
     end.

(** ** The grid thumbnail overlay ([App.tsx], [page.annotations.map]) *)

Inductive ThumbNode :=
| thumbRect (left top w h : R) (borderPx : R) (borderColor : string)
| thumbHighlight (left top w h : R) (backgroundColor : string) (opacity : R)
| thumbText (left top : R) (textColor : string) (weight : FontWeight)
            (body : option string)
| thumbArrow (startX startY len rot : R) (backgroundColor : string)
| thumbImage (src : string) (left top w h : R)
| thumbNone.

(** The statements of the thumbnail map after the normalization. *)
Definition thumbnailBody (pg : PDFPageData) (f : Frame Annotation)
  : ThumbNode :=
  let ann := frame_ann f in
  let box := frame_box f in
  let left := boxX box / originalWidth pg * 100 in
  let top := boxY box / originalHeight pg * 100 in
  let w := boxW box / originalWidth pg * 100 in
  let h := boxH box / originalHeight pg * 100 in
  match ann_type ann with
  | rect => thumbRect left top w h 2 (ann_color ann)
  | highlight => thumbHighlight left top w h (ann_color ann) (3 / 10)
  | text =>
      thumbText (ann_x ann / originalWidth pg * 100)
                (ann_y ann / originalHeight pg * 100) (ann_color ann)
                (default normal (ann_fontWeight ann)) (ann_text ann)
  | arrow =>
      let startX := ann_x ann / originalWidth pg * 100 in
      let startY := ann_y ann / originalHeight pg * 100 in
      let dx := orZero (ann_width ann) / originalWidth pg * 100 in
      let dy := orZero (ann_height ann) / originalHeight pg * 100 in
      let rot := atan2 dy dx * 180 / PI in
      let len := sqrt (dx * dx + dy * dy) in
      thumbArrow startX startY len rot (ann_color ann)
  | image =>
      if truthy (ann_imageData ann)
      then thumbImage (default "" (ann_imageData ann)) left top w h
      else thumbNone
  end.

Definition renderThumbnail (pg : PDFPageData) (ann : Annotation) : ThumbNode :=
  thumbnailBody pg (normalizeFrame ann).

(** ** A 2D canvas context

    The context keeps its drawing state and the list of what has been
    painted; every painting operation records the state it was painted
    with.  An assignment to an attribute is ignored, and the attribute
    keeps the value it had, when the value is not one the attribute
    takes: a string that does not parse as a CSS colour for [fillStyle]
    and [strokeStyle], a font that does not parse (here: a negative
    size) for [font], a width that is not positive for [lineWidth], an
    alpha outside [[0, 1]] for [globalAlpha].  Which strings are CSS
    colours is the browser's to say: [cssColor]. *)

Inductive PathCmd :=
| MoveTo (px py : R)
| LineTo (px py : R)
| ClosePath.

(** [`${weight} ${size}px sans-serif`] *)
Record Font := mkFont { font_weight : FontWeight; font_size : R }.

Inductive DrawOp :=
| FillRect (px py w h : R) (style : string) (alpha : R)
| StrokeRect (px py w h : R) (style : string) (width : R) (alpha : R)
| FillText (body : string) (px py : R) (style : string) (f : option Font)
           (alpha : R)
| StrokePath (p : list PathCmd) (style : string) (width : R) (alpha : R)
| FillPath (p : list PathCmd) (style : string) (alpha : R)
| DrawImage (src : string) (px py w h : R) (alpha : R).

Record Ctx := mkCtx {
  cssColor : string -> bool;
  globalAlpha : R;
  fillStyle : string;
  strokeStyle : string;
  lineWidth : R;
  font : option Font;
  textBaselineTop : bool;
  path : list PathCmd;
  painted : list DrawOp
}.

(** The context of a new canvas in a browser whose CSS colours are [css]:
    opaque, black, one pixel wide, the default font. *)
Definition freshCtx (css : string -> bool) : Ctx :=
  mkCtx css 1 "#000000" "#000000" 1 None false [] [].

(** The values the numeric attributes take. *)
Definition alphaTaken (v : R) : bool :=
  if Rle_dec 0 v then (if Rle_dec v 1 then true else false) else false.

Definition widthTaken (v : R) : bool := if Rlt_dec 0 v then true else false.

Definition fontTaken (f : Font) : bool :=
  if Rle_dec 0 (font_size f) then true else false.

Arguments alphaTaken v : simpl never.
Arguments widthTaken v : simpl never.
Arguments fontTaken f : simpl never.

(** [ctx.globalAlpha = v] *)
Definition setGlobalAlpha (v : R) (c : Ctx) : Ctx :=
  mkCtx (cssColor c) (if alphaTaken v then v else globalAlpha c)
        (fillStyle c) (strokeStyle c) (lineWidth c) (font c)
        (textBaselineTop c) (path c) (painted c).

(** [ctx.fillStyle = v] *)
Definition setFillStyle (v : string) (c : Ctx) : Ctx :=
  mkCtx (cssColor c) (globalAlpha c)
        (if cssColor c v then v else fillStyle c)
        (strokeStyle c) (lineWidth c) (font c) (textBaselineTop c) (path c)
        (painted c).

(** [ctx.strokeStyle = v] *)
Definition setStrokeStyle (v : string) (c : Ctx) : Ctx :=
  mkCtx (cssColor c) (globalAlpha c) (fillStyle c)
        (if cssColor c v then v else strokeStyle c)
        (lineWidth c) (font c) (textBaselineTop c) (path c) (painted c).

(** [ctx.lineWidth = v] *)
Definition setLineWidth (v : R) (c : Ctx) : Ctx :=
  mkCtx (cssColor c) (globalAlpha c) (fillStyle c) (strokeStyle c)
        (if widthTaken v then v else lineWidth c)
        (font c) (textBaselineTop c) (path c) (painted c).

(** [ctx.font = `${weight} ${size}px sans-serif`] *)
Definition setFont (v : Font) (c : Ctx) : Ctx :=
  mkCtx (cssColor c) (globalAlpha c) (fillStyle c) (strokeStyle c)
        (lineWidth c) (if fontTaken v then Some v else font c)
        (textBaselineTop c) (path c) (painted c).

(** [ctx.textBaseline = 'top'] *)
Definition setTextBaselineTop (c : Ctx) : Ctx :=
  mkCtx (cssColor c) (globalAlpha c) (fillStyle c) (strokeStyle c)
        (lineWidth c) (font c) true (path c) (painted c).

Definition setPath (p : list PathCmd) (c : Ctx) : Ctx :=
  mkCtx (cssColor c) (globalAlpha c) (fillStyle c) (strokeStyle c)
        (lineWidth c) (font c) (textBaselineTop c) p (painted c).

Definition paint (op : DrawOp) (c : Ctx) : Ctx :=
  mkCtx (cssColor c) (globalAlpha c) (fillStyle c) (strokeStyle c)
        (lineWidth c) (font c) (textBaselineTop c) (path c) (painted c ++ [op]).

Definition fillRect (px py w h : R) (c : Ctx) : Ctx :=
  paint (FillRect px py w h (fillStyle c) (globalAlpha c)) c.

Definition strokeRect (px py w h : R) (c : Ctx) : Ctx :=
  paint (StrokeRect px py w h (strokeStyle c) (lineWidth c) (globalAlpha c)) c.

Definition fillText (body : string) (px py : R) (c : Ctx) : Ctx :=
  paint (FillText body px py (fillStyle c) (font c) (globalAlpha c)) c.

Definition drawImage (src : string) (px py w h : R) (c : Ctx) : Ctx :=
  paint (DrawImage src px py w h (globalAlpha c)) c.

Definition beginPath (c : Ctx) : Ctx := setPath [] c.
Definition moveTo (px py : R) (c : Ctx) : Ctx := setPath (path c ++ [MoveTo px py]) c.
Definition lineTo (px py : R) (c : Ctx) : Ctx := setPath (path c ++ [LineTo px py]) c.
Definition closePath (c : Ctx) : Ctx := setPath (path c ++ [ClosePath]) c.

Definition stroke (c : Ctx) : Ctx :=
  paint (StrokePath (path c) (strokeStyle c) (lineWidth c) (globalAlpha c)) c.

Definition fill (c : Ctx) : Ctx :=
  paint (FillPath (path c) (fillStyle c) (globalAlpha c)) c.

(** The five statements that draw an arrow head, shared in shape by the
    export flattener and the clipboard copy. *)
Definition drawHead (toX toY headLen angle : R) (c : Ctx) : Ctx :=
  let c := beginPath c in
  let c := moveTo toX toY c in
  let c := lineTo (fst (headVertex1 toX toY headLen angle))
                  (snd (headVertex1 toX toY headLen angle)) c in
  let c := lineTo (fst (headVertex2 toX toY headLen angle))
                  (snd (headVertex2 toX toY headLen angle)) c in
  let c := closePath c in
  fill c.

(** ** The export flattener: the body of the annotation loop of
    [generateFinalPDF] *)
(** The statements of the loop body after the normalization. *)
Definition flattenBody (f : Frame Annotation) (ctx : Ctx) : Ctx :=
  let ann := frame_ann f in
  let box := frame_box f in
  match ann_type ann with
  | highlight =>
      let ctx := setFillStyle (ann_color ann) ctx in
      let ctx := setGlobalAlpha (4 / 10) ctx in
      let ctx := fillRect (boxX box) (boxY box) (boxW box) (boxH box) ctx in
      setGlobalAlpha 1 ctx
  | rect =>
      let ctx := setStrokeStyle (ann_color ann) ctx in
      let ctx := setFillStyle (ann_color ann) ctx in
      let ctx := setLineWidth 4 ctx in
      strokeRect (boxX box) (boxY box) (boxW box) (boxH box) ctx
  | text =>
      if truthy (ann_text ann)
      then
        let ctx := setFillStyle (ann_color ann) ctx in
        let fontWeight :=
          match ann_fontWeight ann with Some bold => bold | _ => normal end in
        let fSize := orNum (ann_fontSize ann) 32 in
        let ctx := setFont (mkFont fontWeight fSize) ctx in
        fillText (default "" (ann_text ann)) (ann_x ann) (ann_y ann) ctx
      else ctx
  | arrow =>
      let ctx := setStrokeStyle (ann_color ann) ctx in
      let ctx := setFillStyle (ann_color ann) ctx in
      let ctx := setLineWidth 5 ctx in
      let fromX := ann_x ann in
      let fromY := ann_y ann in
      let toX := ann_x ann + orZero (ann_width ann) in
      let toY := ann_y ann + orZero (ann_height ann) in
      let headLen := 20 in
      let angle := atan2 (toY - fromY) (toX - fromX) in
      let ctx := beginPath ctx in
      let ctx := moveTo fromX fromY ctx in
      let ctx := lineTo toX toY ctx in
      let ctx := stroke ctx in
      drawHead toX toY headLen angle ctx
  | image =>
      if truthy (ann_imageData ann)
      then drawImage (default "" (ann_imageData ann))
                     (boxX box) (boxY box) (boxW box) (boxH box) ctx
      else ctx
  end.

Definition flattenAnnotation (ann : Annotation) (ctx : Ctx) : Ctx :=
  let ctx := setGlobalAlpha 1 ctx in
  flattenBody (normalizeFrame ann) ctx.

(** [ctx.textBaseline = 'top'], then the loop over [pageData.annotations],
    on the context of a new canvas. *)
Definition flatten (ctx : Ctx) (anns : list Annotation) : Ctx :=
  fold_left (fun ctx ann => flattenAnnotation ann ctx) anns
            (setTextBaselineTop ctx).

(** ** The clipboard copy: the body of the annotation loop of
    [copyToClipboard], [scale] being [img.width / page.originalWidth] *)
Definition clipboardAnnotation (scale : R) (ann : Annotation) (ctx : Ctx)
  : Ctx :=
  let px := ann_x ann * scale in
  let py := ann_y ann * scale in
  let w := orZero (ann_width ann) * scale in
  let h := orZero (ann_height ann) * scale in
  let ctx := setGlobalAlpha 1 ctx in
  match ann_type ann with
  | highlight =>
      let ctx := setFillStyle (ann_color ann) ctx in
      let ctx := setGlobalAlpha (4 / 10) ctx in
      let ctx := fillRect px py w h ctx in
      setGlobalAlpha 1 ctx
  | rect =>
      let ctx := setStrokeStyle (ann_color ann) ctx in
      let ctx := setFillStyle (ann_color ann) ctx in
      let ctx := setLineWidth (4 * scale) ctx in
      strokeRect px py w h ctx
  | text =>
      if truthy (ann_text ann)
      then
        let ctx := setFillStyle (ann_color ann) ctx in
        let ctx :=
          setFont (mkFont (default normal (ann_fontWeight ann))
                          (Rmax 12 (orNum (ann_fontSize ann) 32 * scale)))
                  ctx in
        let ctx := setTextBaselineTop ctx in
        fillText (default "" (ann_text ann)) px py ctx
      else ctx
  | arrow =>
      let ctx := setStrokeStyle (ann_color ann) ctx in
      let ctx := setFillStyle (ann_color ann) ctx in
      let ctx := setLineWidth (5 * scale) ctx in
      let headlen := 20 * scale in
      let angle := atan2 h w in
      let toX := px + w in
      let toY := py + h in
      let ctx := beginPath ctx in
      let ctx := moveTo px py ctx in
      let ctx := lineTo toX toY ctx in
      let ctx := stroke ctx in
      drawHead toX toY headlen angle ctx
  | image =>
      if truthy (ann_imageData ann)
      then drawImage (default "" (ann_imageData ann)) px py w h ctx
      else ctx
  end.

(* ===================================================================== *)
(** * Page collection ([App.tsx])                                          *)
(* ===================================================================== *)

(** [{ ...p, rotation: r }] *)
Definition withRotation (r : Z) (p : PDFPageData) : PDFPageData :=
  mkPage (page_id p) (sourcePdfId p) (pageIndex p) r (thumbnailUrl p)
         (originalWidth p) (originalHeight p) (page_annotations p).

(** [{ ...p, annotations: anns }] *)
Definition withAnnotations (anns : list Annotation) (p : PDFPageData)
  : PDFPageData :=
  mkPage (page_id p) (sourcePdfId p) (pageIndex p) (rotation p)
         (thumbnailUrl p) (originalWidth p) (originalHeight p) anns.

(** ** [rotateSelected] *)
Definition rotateSelected (selectedPageIds : gset string)
    (pages : list PDFPageData) : list PDFPageData :=
  map (fun p =>
         if bool_decide (page_id p ∈ selectedPageIds)
         then withRotation (Z.rem (rotation p + 90) 360) p
         else p)
      pages.

(** ** [toggleSelectPage] *)
Definition toggleSelectPage (id : string) (selectedPageIds : gset string)
  : gset string :=
  if bool_decide (id ∈ selectedPageIds)
  then selectedPageIds ∖ {[ id ]}
  else selectedPageIds ∪ {[ id ]}.

(** ** [saveAnnotations], for the page open in the editor *)
Definition saveAnnotations (editorPageId : string)
    (newAnnotations : list Annotation) (pages : list PDFPageData)
  : list PDFPageData :=
  map (fun p => if String.eqb (page_id p) editorPageId
                then withAnnotations newAnnotations p else p)
      pages.

(* ===================================================================== *)
(** * Documents and buffers ([pdfUtils.ts])                                *)
(* ===================================================================== *)

Definition Bytes := list Byte.byte.

(** An [ArrayBuffer] is a reference; the store says what it holds, or that
    it has been detached (transferred away). *)
Definition BufRef := nat.

Inductive Buffer :=
| Live (bytes : Bytes)
| Detached.

Record SourcePDF := mkSource {
  src_id : string;
  src_name : string;
  src_data : BufRef
}.

(** The calls that are handed a buffer to parse or rasterize. *)
Inductive Callee :=
| pdfjs_getDocument
| pdflib_load
| pdflib_embedJpg
| pdflib_embedPng.

Record Call := mkCall { callee : Callee; handed : BufRef }.

(** What the program can do to its surroundings: the buffers, the log of
    buffers handed out, and how many UUIDs have been drawn. *)
Record World := mkWorld {
  buffers : list Buffer;
  calls : list Call;
  uuidsDrawn : nat
}.

(** A page as the PDF libraries see it. *)
Inductive PageBody :=
| sourceBody (content : nat)
| imageBody (img : Bytes) (w h : R)
| blankBody.

Record PdfPage := mkPdfPage {
  pdf_body : PageBody;
  pdf_rotation : Z;
  pdf_width : R;
  pdf_height : R
}.

(** An image drawn over a page: the canvas it was encoded from and the
    rectangle it is drawn into. *)
Record Layer := mkLayer {
  layer_canvas : Ctx;
  layer_canvasWidth : R;
  layer_canvasHeight : R;
  layer_x : R; layer_y : R; layer_w : R; layer_h : R
}.

(** A page of the document being written. *)
Record OutPage := mkOutPage {
  out_page : PdfPage;
  out_layers : list Layer
}.

(** The collaborators: what the PDF reader (PDF.js), the PDF writer
    (pdf-lib) and the canvas compute, as far as this program looks at it.
    The two libraries have a parser each: [pdfjsParse] is the document
    PDF.js makes of some bytes, [pdflibParse] the one pdf-lib makes of
    them, and either may refuse bytes the other reads.  [viewport] and
    [rasterize] are [page.getViewport({scale, rotation})] and the data URL
    of the canvas after [page.render]; [decodeJpg] and [decodePng] give
    the size of an embedded image; [encodePdf] is the bytes [save()]
    writes; [encodePng] is the PNG of a canvas; [getContext] is
    [canvas.getContext('2d')] for a canvas of a given size. *)
Record Libs := mkLibs {
  uuid : nat -> string;
  pdfjsParse : Bytes -> option (list PdfPage);
  pdflibParse : Bytes -> option (list PdfPage);
  viewport : PdfPage -> R -> option Z -> R * R;
  rasterize : PdfPage -> R -> option Z -> string;
  decodeJpg : Bytes -> option (R * R);
  decodePng : Bytes -> option (R * R);
  encodePdf : list PdfPage -> Bytes;
  encodePng : Ctx -> Bytes;
  getContext : R -> R -> option Ctx
}.

(** ** A state-and-exception monad over the world *)

Inductive Result (A : Type) :=
| Ok (a : A)
| Throw (msg : string).
Arguments Ok {A} a.
Arguments Throw {A} msg.

Definition M (A : Type) : Type := World -> Result A * World.

Definition ret {A} (a : A) : M A := fun w => (Ok a, w).

Definition throw {A} (msg : string) : M A := fun w => (Throw msg, w).

Definition bind {A B} (m : M A) (k : A -> M B) : M B :=
  fun w => match m w with
           | (Ok a, w1) => k a w1
           | (Throw msg, w1) => (Throw msg, w1)
           end.

(** [try { m } catch (e) { h }] *)
Definition catch {A} (m : M A) (h : M A) : M A :=
  fun w => match m w with
           | (Ok a, w1) => (Ok a, w1)
           | (Throw _, w1) => h w1
           end.

Notation "x <- m ;; k" := (bind m (fun x => k))
  (at level 100, m at next level, right associativity).

(** [for (...) { await body }], in order. *)
Fixpoint forEach {A B} (body : A -> M (option B)) (l : list A) : M (list B) :=
  match l with
  | [] => ret []
  | a :: l =>
      b <- body a ;;
      bs <- forEach body l ;;
      ret (match b with Some b => b :: bs | None => bs end)
  end.

(** ** Buffers *)

Definition alloc (bytes : Bytes) : M BufRef :=
  fun w => (Ok (length (buffers w)),
            mkWorld (buffers w ++ [Live bytes]) (calls w) (uuidsDrawn w)).

Definition logCall (c : Callee) (r : BufRef) : M unit :=
  fun w => (Ok tt, mkWorld (buffers w) (calls w ++ [mkCall c r]) (uuidsDrawn w)).

(** The bytes a parser finds in a buffer; a detached buffer has none to
    give. *)
Definition readBuffer (r : BufRef) : M Bytes :=
  fun w => match buffers w !! r with
           | Some (Live bytes) => (Ok bytes, w)
           | _ => (Throw "detached buffer", w)
           end.

Definition detach (r : BufRef) : M unit :=
  fun w => (Ok tt,
            mkWorld (<[ r := Detached ]> (buffers w)) (calls w) (uuidsDrawn w)).

(** [buffer.slice(0)]: a new buffer with the same bytes. *)
Definition slice0 (r : BufRef) : M BufRef :=
  bytes <- readBuffer r ;; alloc bytes.

Definition randomUUID (lib : Libs) : M string :=
  fun w => (Ok (uuid lib (uuidsDrawn w)),
            mkWorld (buffers w) (calls w) (S (uuidsDrawn w))).

Definition orThrow {A} (o : option A) (msg : string) : M A :=
  match o with Some a => ret a | None => throw msg end.

(** [pdfjsLib.getDocument({ data })]: the data goes to the worker, which
    leaves the buffer it was given detached. *)
Definition getDocument (lib : Libs) (data : BufRef) : M (list PdfPage) :=
  _ <- logCall pdfjs_getDocument data ;;
  bytes <- readBuffer data ;;
  _ <- detach data ;;
  orThrow (pdfjsParse lib bytes) "Invalid PDF structure".

(** [PDFLib.PDFDocument.load(data)]: parses in place and leaves the buffer
    as it was. *)
Definition PDFDocument_load (lib : Libs) (data : BufRef) : M (list PdfPage) :=
  _ <- logCall pdflib_load data ;;
  bytes <- readBuffer data ;;
  orThrow (pdflibParse lib bytes) "Failed to parse PDF document".

Definition embedJpg (lib : Libs) (data : BufRef) : M (R * R) :=
  _ <- logCall pdflib_embedJpg data ;;
  bytes <- readBuffer data ;;
  orThrow (decodeJpg lib bytes) "SOI not found in JPEG".

Definition embedPng (lib : Libs) (data : BufRef) : M (R * R) :=
  _ <- logCall pdflib_embedPng data ;;
  bytes <- readBuffer data ;;
  orThrow (decodePng lib bytes) "Not a PNG".

(** ** [loadPDF] *)

Record File := mkFile {
  file_name : string;
  file_type : string;
  file_bytes : Bytes
}.

Definition lowerAscii (c : ascii) : ascii :=
  let n := nat_of_ascii c in
  if ((65 <=? n)%nat && (n <=? 90)%nat)%bool then ascii_of_nat (n + 32) else c.

(** [s.toLowerCase()], on the letters A to Z. *)
Fixpoint toLowerCase (s : string) : string :=
  match s with
  | EmptyString => EmptyString
  | String c s => String (lowerAscii c) (toLowerCase s)
  end.

(** [s.endsWith(suffix)] *)
Definition endsWith (s suffix : string) : bool :=
  String.prefix (String.rev suffix) (String.rev s).

(** [/\.(jpg|jpeg|png|webp)$/i.test(name)] *)
Definition imageExtension (name : string) : bool :=
  let n := toLowerCase name in
  endsWith n ".jpg" || endsWith n ".jpeg" || endsWith n ".png"
  || endsWith n ".webp".

Definition isImageFile (f : File) : bool :=
  String.prefix "image/" (file_type f) || imageExtension (file_name f).

Definition isJpeg (f : File) : bool :=
  String.eqb (file_type f) "image/jpeg" || String.eqb (file_type f) "image/jpg"
  || endsWith (toLowerCase (file_name f)) ".jpg"
  || endsWith (toLowerCase (file_name f)) ".jpeg".

(** The image branch: embed the picture and save a one-page document. *)
Definition imageToPdf (lib : Libs) (f : File) (arrayBuffer : BufRef)
  : M BufRef :=
  catch
    (img <- (if isJpeg f then embedJpg lib arrayBuffer
             else catch (embedPng lib arrayBuffer) (embedJpg lib arrayBuffer)) ;;
     bytes <- readBuffer arrayBuffer ;;
     alloc (encodePdf lib
              [mkPdfPage (imageBody bytes (fst img) (snd img)) 0
                         (fst img) (snd img)]))
    (throw "Unsupported image format. Please use PDF, JPG, or PNG.").

(** The descriptor of page [i] of a freshly loaded document. *)
Definition describePage (lib : Libs) (sourceId : string) (i : nat)
    (p : PdfPage) : M PDFPageData :=
  id <- randomUUID lib ;;
  let vp := viewport lib p (5 / 10) None in
  ret (mkPage id sourceId i 0 (rasterize lib p (5 / 10) None)
              (fst vp * 2) (snd vp * 2) []).

(** [for (let i = 0; i < pdf.numPages; i++)] *)
Fixpoint describePages (lib : Libs) (sourceId : string) (i : nat)
    (ps : list PdfPage) : M (list PDFPageData) :=
  match ps with
  | [] => ret []
  | p :: ps =>
      d <- describePage lib sourceId i p ;;
      ds <- describePages lib sourceId (S i) ps ;;
      ret (d :: ds)
  end.

Definition loadPDF (lib : Libs) (f : File)
  : M (SourcePDF * list PDFPageData) :=
  arrayBuffer <- alloc (file_bytes f) ;;
  converted <-
    (if isImageFile f && negb (String.eqb (file_type f) "application/pdf")
     then b <- imageToPdf lib f arrayBuffer ;;
          ret (b, (file_name f ++ ".pdf")%string)
     else ret (arrayBuffer, file_name f)) ;;
  let arrayBuffer := fst converted in
  let fileName := snd converted in
  copy <- slice0 arrayBuffer ;;
  pdf <- getDocument lib copy ;;
  sourceId <- randomUUID lib ;;
  pages <- describePages lib sourceId 0 pdf ;;
  ret (mkSource sourceId fileName arrayBuffer, pages).

(** ** [renderHighResPage] *)
Definition renderHighResPage (lib : Libs) (pageData : PDFPageData)
    (source : SourcePDF) : M string :=
  copy <- slice0 (src_data source) ;;
  pdf <- getDocument lib copy ;;
  p <- orThrow (pdf !! pageIndex pageData) "Invalid page request" ;;
  ret (rasterize lib p (15 / 10) (Some (rotation pageData))).

(** ** [generateFinalPDF] *)

(** The flattening step of one page: paint the annotations on a canvas
    of the page's own size, encode it as PNG, embed it, and draw it over
    the whole copied page.  Without a 2D context nothing is drawn. *)
Definition flattenOnto (lib : Libs) (pageData : PDFPageData)
    (copiedPage : PdfPage) : M (list Layer) :=
  match getContext lib (originalWidth pageData) (originalHeight pageData) with
  | Some ctx =>
      let canvas := flatten ctx (page_annotations pageData) in
      pngImageBytes <- alloc (encodePng lib canvas) ;;
      _ <- logCall pdflib_embedPng pngImageBytes ;;
      ret [mkLayer canvas (originalWidth pageData) (originalHeight pageData)
                   0 0 (pdf_width copiedPage) (pdf_height copiedPage)]
  | None => ret []
  end.

(** The body of the loop over [pages]; [None] is [continue]. *)
Definition exportPage (lib : Libs) (sources : gmap string SourcePDF)
    (pageData : PDFPageData) : M (option OutPage) :=
  match sources !! sourcePdfId pageData with
  | None => ret None
  | Some source =>
      sourcePdfDoc <- PDFDocument_load lib (src_data source) ;;
      copied <- orThrow (sourcePdfDoc !! pageIndex pageData)
                        "Invalid page index" ;;
      let currentRotation := pdf_rotation copied in
      let copiedPage :=
        mkPdfPage (pdf_body copied) (currentRotation + rotation pageData)
                  (pdf_width copied) (pdf_height copied) in
      layers <-
        (if (0 <? length (page_annotations pageData))%nat
         then flattenOnto lib pageData copiedPage
         else ret []) ;;
      ret (Some (mkOutPage copiedPage layers))
  end.

(** The loop over [pages]: the pages added to [mergedPdf]. *)
Definition mergedPages (lib : Libs) (pages : list PDFPageData)
    (sources : gmap string SourcePDF) : M (list OutPage) :=
  forEach (exportPage lib sources) pages.

(** [mergedPdf.save()].  pdf-lib does not write a document without
    pages: it adds one empty page of its default size, A4 (595.28 by
    841.89 points), to a document that has none. *)
Definition blankPage : OutPage :=
  mkOutPage (mkPdfPage blankBody 0 (59528 / 100) (84189 / 100)) [].

Definition save (doc : list OutPage) : list OutPage :=
  match doc with
  | [] => [blankPage]
  | _ :: _ => doc
  end.

Definition generateFinalPDF (lib : Libs) (pages : list PDFPageData)
    (sources : gmap string SourcePDF) : M (list OutPage) :=
  mergedPdf <- mergedPages lib pages sources ;;
  ret (save mergedPdf).

(** The buffers handed out between two worlds. *)
Definition callsSince (w w' : World) : list Call :=
  drop (length (calls w)) (calls w').

(* ===================================================================== *)
(** * Vocabulary of the statements and sample data                       *)
(* ===================================================================== *)

Definition drawable (t : AnnotationType) : Prop := t <> text /\ t <> image.

(** A colour parser cut down to the hexadecimal notations ([#rgb],
    [#rgba], [#rrggbb], [#rrggbbaa]), the ones the editor's palette is
    written in, and the context of a new canvas under it. *)
Definition isHexDigit (c : ascii) : bool :=
  let n := nat_of_ascii c in
  ((48 <=? n)%nat && (n <=? 57)%nat) || ((65 <=? n)%nat && (n <=? 70)%nat)
  || ((97 <=? n)%nat && (n <=? 102)%nat).

Definition hexColor (v : string) : bool :=
  match v with
  | String "#"%char digits =>
      forallb isHexDigit (String.list_ascii_of_string digits)
      && ((String.length digits =? 3)%nat || (String.length digits =? 4)%nat
          || (String.length digits =? 6)%nat
          || (String.length digits =? 8)%nat)
  | _ => false
  end.

Definition newCtx : Ctx := freshCtx hexColor.

(** The colour a pointer-down gives the provisional shape. *)
Definition shapeColorOf (t : AnnotationType) (toolbar : string) : string :=
  match t with highlight => "#ffff00"%string | _ => toolbar end.

(** The annotation a drawing gesture commits. *)
Definition drawn (uuid : string) (t : AnnotationType) (toolbar : string)
    (p0 p1 : Point) : Annotation :=
  mkAnnotation uuid t (pt_x p0) (pt_y p0)
               (Some (pt_x p1 - pt_x p0)) (Some (pt_y p1 - pt_y p0)) None
               (orStr (Some (shapeColorOf t toolbar)) toolbar) None None None.

(** The scenario of the editor on a 600 by 800 page shown at its own size:
    the rectangle tool dragged from (100,100) to (50,50). *)
Definition scenarioProps : Props :=
  mkProps (mkPage "p" "src" 0 0 "" 600 800 []) (Some (mkDOMRect 0 0 600 800)).

Definition scenarioState (t : ToolMode) : EditorState :=
  setTool t (initialState (page scenarioProps)).




(** Identity and geometry of an annotation. *)
Definition geom4 (a : Annotation) : string * R * R * option R * option R :=
  (ann_id a, ann_x a, ann_y a, ann_width a, ann_height a).

(** The geometries of a list after every annotation with id [id] has been
    given the box [(nx, ny, nw, nh)]. *)
Definition resized (id : string) (nx ny nw nh : R)
    (g : string * R * R * option R * option R)
  : string * R * R * option R * option R :=
  let '(i, _, _, _, _) := g in
  if String.eqb i id then (i, nx, ny, Some nw, Some nh) else g.

(** The arrow the export flattener paints for an annotation at [(x, y)]
    with the signed extent [(w, h)]. *)
Definition exportedArrow (x y w h : R) (stroked filled : string)
  : list DrawOp :=
  let tipX := x + w in
  let tipY := y + h in
  let v1 := headVertex1 tipX tipY 20 (atan2 h w) in
  let v2 := headVertex2 tipX tipY 20 (atan2 h w) in
  [StrokePath [MoveTo x y; LineTo tipX tipY] stroked 5 1;
   FillPath [MoveTo tipX tipY; LineTo (fst v1) (snd v1);
             LineTo (fst v2) (snd v2); ClosePath] filled 1].

(** The same drawing turned by half a turn about [(x, y)]. *)
Definition turnedAbout (x y : R) (p : PathCmd) : PathCmd :=
  match p with
  | MoveTo px py => MoveTo (2 * x - px) (2 * y - py)
  | LineTo px py => LineTo (2 * x - px) (2 * y - py)
  | ClosePath => ClosePath
  end.

Definition turnedOp (x y : R) (op : DrawOp) : DrawOp :=
  match op with
  | StrokePath p style width alpha =>
      StrokePath (map (turnedAbout x y) p) style width alpha
  | FillPath p style alpha => FillPath (map (turnedAbout x y) p) style alpha
  | other => other
  end.

(** The box of an annotation as every renderer normalizes it. *)
Definition renderedBox (ann : Annotation) : Box :=
  normalize (mkBox (ann_x ann) (ann_y ann) (orZero (ann_width ann))
                   (orZero (ann_height ann))).

(** The three targets paint the highlight [ann] with the alpha [alpha]:
    the editor overlay, the grid thumbnail, the export flattener. *)
Definition paintedWithAlpha (pr : Props) (s : EditorState) (ctx : Ctx)
    (ann : Annotation) (alpha : R) : Prop :=
  node_content (renderAnnotation pr s (asPartial ann) false) =
    divHighlight (ann_color ann) alpha /\
  renderThumbnail (page pr) ann =
    thumbHighlight (boxX (renderedBox ann) / originalWidth (page pr) * 100)
                   (boxY (renderedBox ann) / originalHeight (page pr) * 100)
                   (boxW (renderedBox ann) / originalWidth (page pr) * 100)
                   (boxH (renderedBox ann) / originalHeight (page pr) * 100)
                   (ann_color ann) alpha /\
  painted (flattenAnnotation ann ctx) =
    painted ctx ++
    [FillRect (boxX (renderedBox ann)) (boxY (renderedBox ann))
              (boxW (renderedBox ann)) (boxH (renderedBox ann))
              (fillStyle (setFillStyle (ann_color ann) ctx)) alpha].

Definition yellowMark : Annotation :=
  mkAnnotation "h" highlight 100 100 (Some 200) (Some 40) None "#ffff00"
               None None None.

(** A two-page source whose second page is stored turned by 90 degrees. *)
Definition demoDoc : list PdfPage :=
  [mkPdfPage (sourceBody 0) 0 595 842; mkPdfPage (sourceBody 1) 90 595 842].

Definition demoLibs : Libs :=
  mkLibs (fun n => String (ascii_of_nat (48 + n)) "")
         (fun _ => Some demoDoc) (fun _ => Some demoDoc)
         (fun p scale _ => (pdf_width p * scale, pdf_height p * scale))
         (fun _ _ _ => "data:image/png"%string)
         (fun _ => None) (fun _ => None) (fun _ => []) (fun _ => [])
         (fun _ _ => Some newCtx).

Definition demoSource : SourcePDF := mkSource "src" "two.pdf" 0%nat.

Definition demoSources : gmap string SourcePDF := {[ "src"%string := demoSource ]}.

Definition demoWorld : World := mkWorld [Live []] [] 0.

(** The descriptors of the two pages, as [loadPDF] makes them. *)
Definition demoFirst : PDFPageData :=
  mkPage "p1" "src" 0 0 "data:image/png" 595 842 [].

Definition demoSecond : PDFPageData :=
  mkPage "p2" "src" 1 0 "data:image/png" 595 842 [].


(** [w'] has the buffers and the calls of [w], and maybe more at the end. *)
Definition extends (w w' : World) : Prop :=
  (exists bs, buffers w' = buffers w ++ bs) /\
  (exists cs, calls w' = calls w ++ cs).

(* ===================================================================== *)
(** * The application shell ([App.tsx])                                    *)
(* ===================================================================== *)

(** The [useState] cells of [App] that the page operations read or write
    ([isDraggingFile] only drives an overlay). *)
Record AppState := mkApp {
  app_pages : list PDFPageData;
  app_sources : gmap string SourcePDF;
  app_selectedPageIds : gset string;
  app_isProcessing : bool;
  app_editorPage : option (PDFPageData * string);
  app_draggedPageIndex : option nat
}.

Definition setPages (v : list PDFPageData) (st : AppState) : AppState :=
  mkApp v (app_sources st) (app_selectedPageIds st) (app_isProcessing st)
        (app_editorPage st) (app_draggedPageIndex st).

Definition setSources (v : gmap string SourcePDF) (st : AppState) : AppState :=
  mkApp (app_pages st) v (app_selectedPageIds st) (app_isProcessing st)
        (app_editorPage st) (app_draggedPageIndex st).

Definition setSelectedPageIds (v : gset string) (st : AppState) : AppState :=
  mkApp (app_pages st) (app_sources st) v (app_isProcessing st)
        (app_editorPage st) (app_draggedPageIndex st).

Definition setIsProcessing (v : bool) (st : AppState) : AppState :=
  mkApp (app_pages st) (app_sources st) (app_selectedPageIds st) v
        (app_editorPage st) (app_draggedPageIndex st).

Definition setEditorPage (v : option (PDFPageData * string)) (st : AppState)
  : AppState :=
  mkApp (app_pages st) (app_sources st) (app_selectedPageIds st)
        (app_isProcessing st) v (app_draggedPageIndex st).

Definition setDraggedPageIndex (v : option nat) (st : AppState) : AppState :=
  mkApp (app_pages st) (app_sources st) (app_selectedPageIds st)
        (app_isProcessing st) (app_editorPage st) v.

(** ** [processFiles] *)

(** The locals of [processFiles]. *)
Record Batch := mkBatch {
  newSources : gmap string SourcePDF;
  newPages : list PDFPageData;
  lastAddedPage : option PDFPageData;
  lastAddedSource : option SourcePDF
}.

(** The body of the loop over [files]: [try { ... } catch (e) {
    console.error(...) }], so a file that does not load is passed over. *)
Definition ingestFile (lib : Libs) (b : Batch) (f : File) (w : World)
  : Batch * World :=
  match loadPDF lib f w with
  | (Ok (source, extractedPages), w1) =>
      (mkBatch (<[ src_id source := source ]> (newSources b))
               (newPages b ++ extractedPages)
               (match extractedPages with
                | p :: _ => Some p
                | [] => lastAddedPage b
                end)
               (match extractedPages with
                | _ :: _ => Some source
                | [] => lastAddedSource b
                end),
       w1)
  | (Throw _, w1) => (b, w1)
  end.

Definition ingestFiles (lib : Libs) (b : Batch) (files : list File) (w : World)
  : Batch * World :=
  fold_left (fun bw f => ingestFile lib (fst bw) f (snd bw)) files (b, w).

(** [processFiles(files, isPaste)].  The only statement of the outer [try]
    that can throw is the re-render after a paste; its [catch] shows an
    alert, and [finally] clears the progress flag. *)
Definition processFiles (lib : Libs) (files : list File) (isPaste : bool)
    (st : AppState) (w : World) : AppState * World :=
  match files with
  | [] => (st, w)
  | _ :: _ =>
      let bw := ingestFiles lib (mkBatch (app_sources st) (app_pages st)
                                         None None) files w in
      let b := fst bw in
      let st1 := setPages (newPages b)
                   (setSources (newSources b) (setIsProcessing true st)) in
      match isPaste, lastAddedPage b, lastAddedSource b with
      | true, Some p, Some source =>
          match renderHighResPage lib p source (snd bw) with
          | (Ok url, w2) =>
              (setIsProcessing false (setEditorPage (Some (p, url)) st1), w2)
          | (Throw _, w2) => (setIsProcessing false st1, w2)
          end
      | _, _, _ => (setIsProcessing false st1, snd bw)
      end
  end.

(** ** Reordering: [handlePageDragStart] and [handlePageDrop] *)

Definition handlePageDragStart (index : nat) (st : AppState) : AppState :=
  setDraggedPageIndex (Some index) st.

(** [newPages.splice(dropIndex, 0, draggedPage)] *)
Definition spliceIn {A} (i : nat) (x : A) (l : list A) : list A :=
  take i l ++ x :: drop i l.

(** What [handlePageDrop] leaves: a state whose pages are pages, or the
    array it hands to [setPages] when that array has a slot without a
    page in it ([undefined], here [None]). *)
Inductive DropOutcome :=
| intact (st : AppState)
| holed (newPages : list (option PDFPageData)).

(** [handlePageDrop].  [splice(draggedPageIndex, 1)] on an index that is
    not in the array removes nothing and returns no element, so
    [draggedPage] is [undefined], and the second [splice] puts it into
    the array at [dropIndex] (at the end when [dropIndex] is beyond
    it). *)
Definition handlePageDrop (dropIndex : nat) (st : AppState)
  : DropOutcome :=
  match app_draggedPageIndex st with
  | None => intact st
  | Some dragged =>
      if (dragged =? dropIndex)%nat then intact st
      else
        match app_pages st !! dragged with
        | Some draggedPage =>
            let newPages := delete dragged (app_pages st) in
            intact (setDraggedPageIndex None
                      (setPages (spliceIn dropIndex draggedPage newPages) st))
        | None =>
            let newPages := map Some (app_pages st) in
            holed (spliceIn dropIndex None newPages)
        end
  end.

(** ** [deleteSelected]; [confirmed] is the answer to [confirm] *)
Definition deleteSelected (confirmed : bool) (st : AppState) : AppState :=
  if (size (app_selectedPageIds st) =? 0)%nat then st
  else if confirmed
       then setSelectedPageIds ∅
              (setPages
                 (List.filter
                    (fun p => negb (bool_decide
                                      (page_id p ∈ app_selectedPageIds st)))
                    (app_pages st)) st)
       else st.

(** ** [openEditor].  There is no [try] around the re-render: when it
    throws, the statements after the [await] do not run. *)
Definition openEditor (lib : Libs) (pg : PDFPageData) (st : AppState)
    (w : World) : AppState * World :=
  let st1 := setIsProcessing true st in
  match app_sources st !! sourcePdfId pg with
  | Some source =>
      match renderHighResPage lib pg source w with
      | (Ok url, w1) =>
          (setIsProcessing false (setEditorPage (Some (pg, url)) st1), w1)
      | (Throw _, w1) => (st1, w1)
      end
  | None => (setIsProcessing false st1, w)
  end.

(** ** [saveAnnotations] and the editor's cancel, on the application state *)
Definition onSave (newAnnotations : list Annotation) (st : AppState)
  : AppState :=
  match app_editorPage st with
  | Some (pg, _) =>
      setEditorPage None
        (setPages (saveAnnotations (page_id pg) newAnnotations (app_pages st))
                  st)
  | None => st
  end.

Definition onClose (st : AppState) : AppState := setEditorPage None st.

(** ** [exportPDF]: the state after it, and the document handed to
    [download] if there is one *)
Definition exportPDF (lib : Libs) (st : AppState) (w : World)
  : AppState * World * option (list OutPage) :=
  match app_pages st with
  | [] => (st, w, None)
  | _ :: _ =>
      match generateFinalPDF lib (app_pages st) (app_sources st) w with
      | (Ok doc, w1) => (setIsProcessing false st, w1, Some doc)
      | (Throw _, w1) => (setIsProcessing false st, w1, None)
      end
  end.

(* ===================================================================== *)
(** * More of the editor ([AnnotationEditor.tsx])                          *)
(* ===================================================================== *)

Definition setZoom (v : R) (s : EditorState) : EditorState :=
  mkEditor (annotations s) (tool s) (color s) (fontSize s) (isBold s) v
           (isDrawing s) (dragStartPos s) (currentAnnotation s) (selectedId s)
           (interactionMode s) (resizeHandle s) (interactionStartPos s)
           (initialAnnState s).

(** The three zoom buttons. *)
Definition zoomOut (s : EditorState) : EditorState :=
  setZoom (Rmax (2 / 10) (zoom s - 1 / 10)) s.

Definition zoomIn (s : EditorState) : EditorState :=
  setZoom (Rmin 3 (zoom s + 1 / 10)) s.

Definition zoomReset (s : EditorState) : EditorState := setZoom (8 / 10) s.

(** The effect that fits the page on opening; [innerHeight] is
    [window.innerHeight]. *)
Definition fitZoom (pr : Props) (innerHeight : R) (s : EditorState)
  : EditorState :=
  let viewportHeight := innerHeight - 140 in
  setZoom (Rmin (9 / 10) (viewportHeight / originalHeight (page pr))) s.

(** [handleImageUpload], at the moment the chosen picture has loaded:
    [captured] is the annotation list of the render in which the file was
    chosen, which the callbacks close over; [imgWidth] and [imgHeight] are
    the picture's size and [data] its data URL. *)
Definition imageUploaded (captured : list Annotation) (uuid : string)
    (imgWidth imgHeight : R) (data : string) (s : EditorState) : EditorState :=
  let aspectRatio := imgHeight / imgWidth in
  let width := 300 in
  let height := 300 * aspectRatio in
  let newAnn := mkAnnotation uuid image 100 100 (Some width) (Some height)
                             None "" None None (Some data) in
  setTool select
    (setSelectedId (Some (ann_id newAnn))
       (setAnnotations (captured ++ [newAnn]) s)).

(* ===================================================================== *)
(** * Vocabulary of the further properties                                 *)
(* ===================================================================== *)

(** The rotations the page collection ever stores. *)
Definition quarterTurn (r : Z) : Prop :=
  r = 0%Z \/ r = 90%Z \/ r = 180%Z \/ r = 270%Z.

(** A collection of two pages with the second one selected. *)
Definition demoApp : AppState :=
  mkApp [demoFirst; demoSecond] demoSources {[ "p2"%string ]} false None None.

(** The descriptors [loadPDF] builds for the pages [ps], the first of them
    being page number [i] and getting UUID number [k]. *)
Fixpoint described (lib : Libs) (sourceId : string) (i k : nat)
    (ps : list PdfPage) : list PDFPageData :=
  match ps with
  | [] => []
  | p :: ps =>
      mkPage (uuid lib k) sourceId i 0 (rasterize lib p (5 / 10) None)
             (fst (viewport lib p (5 / 10) None) * 2)
             (snd (viewport lib p (5 / 10) None) * 2) []
      :: described lib sourceId (S i) (S k) ps
  end.

(** Whether [loadPDF] takes the image branch. *)
Definition converts (f : File) : bool :=
  isImageFile f && negb (String.eqb (file_type f) "application/pdf").

(** The size of the picture the image branch manages to embed, if any:
    as JPEG for a file that says it is one, else as PNG and failing that
    as JPEG. *)
Definition embedded (lib : Libs) (f : File) : option (R * R) :=
  if isJpeg f then decodeJpg lib (file_bytes f)
  else match decodePng lib (file_bytes f) with
       | Some d => Some d
       | None => decodeJpg lib (file_bytes f)
       end.

(** The embed calls the image branch makes on the buffer [r]. *)
Definition embedCalls (lib : Libs) (f : File) (r : BufRef) : list Call :=
  if isJpeg f then [mkCall pdflib_embedJpg r]
  else match decodePng lib (file_bytes f) with
       | Some _ => [mkCall pdflib_embedPng r]
       | None => [mkCall pdflib_embedPng r; mkCall pdflib_embedJpg r]
       end.

(** The one-page document made from a picture of size [d]. *)
Definition picturePdf (lib : Libs) (f : File) (d : R * R) : Bytes :=
  encodePdf lib [mkPdfPage (imageBody (file_bytes f) (fst d) (snd d)) 0
                           (fst d) (snd d)].

Definition unsupportedImage : string :=
  "Unsupported image format. Please use PDF, JPG, or PNG.".

(** An injective supply of UUIDs: number [n] is [n] letters long. *)
Definition tallyUuid (n : nat) : string := string_of_list_ascii (repeat "u"%char n).

Definition tallyLibs : Libs :=
  mkLibs tallyUuid (pdfjsParse demoLibs) (pdflibParse demoLibs)
         (viewport demoLibs)
         (rasterize demoLibs) (decodeJpg demoLibs) (decodePng demoLibs)
         (encodePdf demoLibs) (encodePng demoLibs) (getContext demoLibs).

Definition demoFile : File := mkFile "two.pdf" "application/pdf" [].

(** Collaborators whose pdf-lib refuses the bytes their PDF.js opens, as
    it does for an encrypted file. *)
Definition lockedLibs : Libs :=
  mkLibs tallyUuid (pdfjsParse demoLibs) (fun _ => None)
         (viewport demoLibs)
         (rasterize demoLibs) (decodeJpg demoLibs) (decodePng demoLibs)
         (encodePdf demoLibs) (encodePng demoLibs) (getContext demoLibs).

(** A PNG by name and type that no decoder accepts as such. *)
Definition mislabelled : File := mkFile "photo.png" "image/png" [].

(** Collaborators that read every picture as a 640 by 480 JPEG. *)
Definition jpegLibs : Libs :=
  mkLibs tallyUuid (fun _ => Some [mkPdfPage (sourceBody 0) 0 640 480])
         (fun _ => Some [mkPdfPage (sourceBody 0) 0 640 480])
         (viewport demoLibs) (rasterize demoLibs)
         (fun _ => Some (640, 480)) (fun _ => None)
         (encodePdf demoLibs) (encodePng demoLibs) (getContext demoLibs).

(** The page [p] is backed in the world [w] for the parser [parse]: its
    source is registered, the source's buffer is live, the parser reads
    the bytes, and the document it reads has the page. *)
Definition backed (parse : Bytes -> option (list PdfPage))
    (sources : gmap string SourcePDF) (w : World) (p : PDFPageData) : Prop :=
  exists source bytes doc sp,
    sources !! sourcePdfId p = Some source /\
    buffers w !! src_data source = Some (Live bytes) /\
    parse bytes = Some doc /\
    doc !! pageIndex p = Some sp.

(** The page can be exported: it is backed for pdf-lib, which the export
    parses with. *)
Definition exportable (lib : Libs) : gmap string SourcePDF -> World ->
                                     PDFPageData -> Prop :=
  backed (pdflibParse lib).

(** The page can be opened in the editor: it is backed for PDF.js, which
    loading and rendering parse with. *)
Definition openable (lib : Libs) : gmap string SourcePDF -> World ->
                                   PDFPageData -> Prop :=
  backed (pdfjsParse lib).

(** The image layers export puts over the copy of [sp] for the page [p]. *)
Definition layersFor (lib : Libs) (p : PDFPageData) (sp : PdfPage)
  : list Layer :=
  match page_annotations p,
        getContext lib (originalWidth p) (originalHeight p) with
  | _ :: _, Some ctx =>
      [mkLayer (flatten ctx (page_annotations p)) (originalWidth p)
               (originalHeight p) 0 0 (pdf_width sp) (pdf_height sp)]
  | _, _ => []
  end.

(** [out] is the export of [p] in the world [w]: the page of the source
    with the stored rotation added, under the layers for [p]. *)
Definition exportedAs (lib : Libs) (sources : gmap string SourcePDF)
    (w : World) (p : PDFPageData) (out : OutPage) : Prop :=
  exists source bytes doc sp,
    sources !! sourcePdfId p = Some source /\
    buffers w !! src_data source = Some (Live bytes) /\
    pdflibParse lib bytes = Some doc /\
    doc !! pageIndex p = Some sp /\
    out = mkOutPage (mkPdfPage (pdf_body sp)
                               (pdf_rotation sp + rotation p)
                               (pdf_width sp) (pdf_height sp))
                    (layersFor lib p sp).

(** The page's source is in the registry. *)
Definition registered (sources : gmap string SourcePDF) (p : PDFPageData)
  : bool :=
  bool_decide (is_Some (sources !! sourcePdfId p)).

(** The second demo page with a highlight and a rectangle on it. *)
Definition demoMarked : PDFPageData :=
  withAnnotations
    [yellowMark;
     mkAnnotation "r" rect 10 10 (Some 20) (Some 20) None "#ef4444"
                  None None None]
    demoSecond.

(** A page of a source nobody registered. *)
Definition demoOrphan : PDFPageData :=
  mkPage "p9" "gone" 0 0 "" 595 842 [].

(** No identifier that is still to be drawn names a registered source. *)
Definition unusedIds (lib : Libs) (sources : gmap string SourcePDF)
    (w : World) : Prop :=
  forall k, (uuidsDrawn w <= k)%nat -> sources !! uuid lib k = None.

(** [parse] reads what a load of [f] stores: whenever [f] loads, [parse]
    accepts the bytes the load has put into the registry and finds a page
    for each page the load has described. *)
Definition readsFile (lib : Libs) (parse : Bytes -> option (list PdfPage))
    (f : File) : Prop :=
  forall w source pages w' stored,
    loadPDF lib f w = (Ok (source, pages), w') ->
    buffers w' !! src_data source = Some (Live stored) ->
    exists doc, parse stored = Some doc /\ (length pages <= length doc)%nat.

(** A page as it comes out of a load: not rotated, not annotated. *)
Definition pristine (p : PDFPageData) : Prop :=
  rotation p = 0%Z /\ page_annotations p = [].

(** The state [App] starts in. *)
Definition initialApp : AppState := mkApp [] ∅ ∅ false None None.

(** What a load of the demo file returns. *)
Definition demoLoaded : list PDFPageData :=
  described demoLibs (uuid demoLibs 0) 0 1 demoDoc.

(** An output page that is the source page [sp] and nothing else. *)
Definition untouched (sp : PdfPage) : OutPage := mkOutPage sp [].

(** [for (const ann of page.annotations)] in [copyToClipboard], on the
    context the page picture has been drawn on. *)
Definition clipboardAnnotations (scale : R) (anns : list Annotation)
    (ctx : Ctx) : Ctx :=
  fold_left (fun ctx ann => clipboardAnnotation scale ann ctx) anns ctx.

(** What the export and the clipboard copy paint for one annotation on a
    new canvas, in a browser whose CSS colours are [css]. *)
Definition exportOps (css : string -> bool) (ann : Annotation)
  : list DrawOp :=
  painted (flattenAnnotation ann (freshCtx css)).

Definition clipboardOps (css : string -> bool) (scale : R) (ann : Annotation)
  : list DrawOp :=
  painted (clipboardAnnotation scale ann (freshCtx css)).

(** The canvas takes every attribute the export assigns for [ann]: the
    colour parses, unless [ann] is a picture, for which no colour is
    assigned, and the font size of a text is not negative. *)
Definition paintable (css : string -> bool) (ann : Annotation) : Prop :=
  (ann_type ann <> image -> css (ann_color ann) = true) /\
  (ann_type ann = text -> 0 <= orNum (ann_fontSize ann) 32).

(** An uploaded picture, with the colour the upload gives it, and a
    rectangle drawn while the toolbar holds that colour. *)
Definition demoPicture : Annotation :=
  mkAnnotation "i" image 100 100 (Some 300) (Some 200) None ""
               None None (Some "data:image/png"%string).

Definition colourlessMark : Annotation :=
  mkAnnotation "c" rect 200 200 (Some 40) (Some 30) None ""
               None None None.

(** A drawing magnified [k] times: positions, extents, line widths and
    font sizes are multiplied by [k]. *)
Definition scalePath (k : R) (p : PathCmd) : PathCmd :=
  match p with
  | MoveTo px py => MoveTo (px * k) (py * k)
  | LineTo px py => LineTo (px * k) (py * k)
  | ClosePath => ClosePath
  end.

Definition scaleFont (k : R) (f : Font) : Font :=
  mkFont (font_weight f) (font_size f * k).

Definition scaleOp (k : R) (op : DrawOp) : DrawOp :=
  match op with
  | FillRect px py w h style alpha =>
      FillRect (px * k) (py * k) (w * k) (h * k) style alpha
  | StrokeRect px py w h style width alpha =>
      StrokeRect (px * k) (py * k) (w * k) (h * k) style (width * k) alpha
  | FillText body px py style f alpha =>
      FillText body (px * k) (py * k) style (option_map (scaleFont k) f) alpha
  | StrokePath p style width alpha =>
      StrokePath (map (scalePath k) p) style (width * k) alpha
  | FillPath p style alpha => FillPath (map (scalePath k) p) style alpha
  | DrawImage src px py w h alpha =>
      DrawImage src (px * k) (py * k) (w * k) (h * k) alpha
  end.



Definition redMark : Annotation :=
  mkAnnotation "r" rect 10 10 (Some 20) (Some 20) None "#ef4444"
               None None None.

(** An answer to the text prompt that has nothing to show: the prompt was
    cancelled, or every character typed is one that [trim] removes. *)
Definition blank (answer : option string) : Prop :=
  match answer with
  | None => True
  | Some t => Forall (fun c => isWhiteSpace c = true) (codePoints t)
  end.

(** Answers of one character each: a no-break space (U+00A0) and an
    ideographic space (U+3000), in UTF-8. *)
Definition nbspOnly : string :=
  String (Ascii.ascii_of_nat 194) (String (Ascii.ascii_of_nat 160) "").

Definition ideographicSpaceOnly : string :=
  String (Ascii.ascii_of_nat 227)
    (String (Ascii.ascii_of_nat 128) (String (Ascii.ascii_of_nat 128) "")).







(** A text annotation that stores neither size nor weight. *)
Definition plainNote : Annotation :=
  mkAnnotation "t" text 50 60 None None (Some "note"%string) "#2563eb"
               None None None.

(** The editor on a page that carries [plainNote] and [yellowMark]. *)
Definition notedState : EditorState :=
  setAnnotations [plainNote; yellowMark] (scenarioState select).

(** The selection, if there is one, names an annotation of the list. *)
Definition selectionValid (s : EditorState) : Prop :=
  forall j, selectedId s = Some j -> j ∈ map ann_id (annotations s).


(** The application with the editor open on the second demo page. *)
Definition editingApp : AppState :=
  setEditorPage (Some (demoSecond, "data:image/png"%string)) demoApp.

(** ** Proof steps shared by the statements about renderers *)

(** The attributes the renderers assign with literal values are taken. *)
Create Rewrite HintDb canvas.

Ltac canvas := autorewrite with canvas.

(** The two conditional statements, read as [normalize] again. *)
Ltac refold :=
  repeat match goal with
         | |- context [flipH (flipW ?b)] =>
             change (flipH (flipW b)) with (normalize b)
         end.

(** A render call, down to the frame its statements work on. *)
Ltac render :=
  unfold flattenAnnotation, flattenBody, renderThumbnail, thumbnailBody,
         renderAnnotation, overlayBody, normalizeFrame, normalizePartialFrame,
         stepFlipH, stepFlipW, enterFrame, enterPartialFrame;
  cbn [frame_ann frame_box];
  refold.

(* ===================================================================== *)
(** * Theorems                                                             *)
(* ===================================================================== *)





(* --------------------------------------------------------------------- *)
(** ** The gesture engine                                                  *)
(* --------------------------------------------------------------------- *)

Lemma truthy_Some id : id <> ""%string -> truthy (Some id) = true.
Proof.
  intros H. simpl. destruct (String.eqb_spec id ""); [contradiction|reflexivity].
Qed.

Lemma depsChanged_same s0 s1 :
  fontSize s0 = fontSize s1 -> isBold s0 = isBold s1 ->
  selectedId s0 = selectedId s1 -> depsChanged s0 s1 = false.
Proof.
  intros Hf Hb Hs. unfold depsChanged. rewrite Hf, Hb, Hs.
  destruct (Req_dec_T (fontSize s1) (fontSize s1)); [|contradiction].
  rewrite Bool.eqb_reflx, bool_decide_eq_true_2 by reflexivity. reflexivity.
Qed.

(** A pointer-move touches the annotation list and the provisional shape
    only. *)
Lemma handleMouseMove_frame pr e s :
  let s' := handleMouseMove pr e s in
  tool s' = tool s /\ color s' = color s /\ fontSize s' = fontSize s /\
  isBold s' = isBold s /\ isDrawing s' = isDrawing s /\
  dragStartPos s' = dragStartPos s /\ selectedId s' = selectedId s /\
  interactionMode s' = interactionMode s /\ resizeHandle s' = resizeHandle s /\
  interactionStartPos s' = interactionStartPos s /\
  initialAnnState s' = initialAnnState s.
Proof.
  unfold handleMouseMove. repeat case_match; simpl; repeat split; congruence.
Qed.

Lemma dispatch_handleMouseMove pr e s :
  dispatch (handleMouseMove pr e) s = handleMouseMove pr e s.
Proof.
  unfold dispatch.
  destruct (handleMouseMove_frame pr e s) as (_ & _ & Hf & Hb & _ & _ & Hs & _).
  rewrite depsChanged_same; auto.
Qed.

Lemma resizeTo_fields init handle dx dy ann :
  resizeTo init handle dx dy ann =
  withGeometry
    (ann_x init + (if includes handle "w" then dx else 0))
    (ann_y init + (if includes handle "n" then dy else 0))
    (orZero (ann_width init) + (if includes handle "e" then dx else 0)
       - (if includes handle "w" then dx else 0))
    (orZero (ann_height init) + (if includes handle "s" then dy else 0)
       - (if includes handle "n" then dy else 0))
    ann.
Proof.
  unfold resizeTo.
  destruct (includes handle "e"), (includes handle "w"),
           (includes handle "s"), (includes handle "n");
    unfold withGeometry; f_equal; try (f_equal; lra); lra.
Qed.

(** *** Drawing *)

Lemma absExceeds5_true v : absExceeds5 v = true <-> 5 < Rabs v.
Proof.
  unfold absExceeds5. destruct (Rlt_dec 5 (Rabs v)); split; intros; auto;
    try discriminate; contradiction.
Qed.

Lemma exceeds_orb w h :
  absExceeds5 w || absExceeds5 h = true <-> 5 < Rabs w \/ 5 < Rabs h.
Proof.
  rewrite Bool.orb_true_iff, !absExceeds5_true. reflexivity.
Qed.

Lemma setAnnotations_same s : setAnnotations (annotations s) s = s.
Proof. destruct s; reflexivity. Qed.

(** The effect leaves the list alone when no selected annotation is a text. *)
Lemma syncFont_no_text s :
  (forall a, In a (annotations s) ->
             idIs (selectedId s) a = true -> ann_type a <> text) ->
  syncFont s = s.
Proof.
  intros H. unfold syncFont. destruct (truthy (selectedId s)); [|reflexivity].
  rewrite <- (setAnnotations_same s) at 3. f_equal.
  rewrite <- (map_id (annotations s)) at 2.
  apply map_ext_in. intros a Ha.
  destruct (idIs (selectedId s) a) eqn:E; [|reflexivity].
  specialize (H a Ha E). destruct (ann_type a); try reflexivity. contradiction.
Qed.

Lemma handleMouseDown_draw pr e answer uuid0 s t :
  interactionMode s = mode_none -> tool s = shape t -> drawable t ->
  dispatch (handleMouseDown pr e answer uuid0) s =
  setCurrentAnnotation
    (Some (mkPartial None t (Some (pt_x (getPointerPos pr e)))
                     (Some (pt_y (getPointerPos pr e))) (Some 0) (Some 0) None
                     (Some (shapeColorOf t (color s))) None None None))
    (setIsDrawing true (setDragStartPos (getPointerPos pr e) s)).
Proof.
  intros Hm Ht [Hnt Hni].
  assert (E : handleMouseDown pr e answer uuid0 s =
    setCurrentAnnotation
      (Some (mkPartial None t (Some (pt_x (getPointerPos pr e)))
                     (Some (pt_y (getPointerPos pr e))) (Some 0) (Some 0) None
                     (Some (shapeColorOf t (color s))) None None None))
      (setIsDrawing true (setDragStartPos (getPointerPos pr e) s))).
  { unfold handleMouseDown. rewrite Hm, Ht.
    destruct t; try reflexivity; contradiction. }
  unfold dispatch. rewrite E. rewrite depsChanged_same; reflexivity.
Qed.

(** While drawing, the pointer-moves only ever rewrite the extent of the
    provisional shape, each from the drag start. *)
Lemma moves_drawing pr es s t cur :
  interactionMode s = mode_none -> tool s = shape t -> drawable t ->
  isDrawing s = true -> currentAnnotation s = Some cur ->
  moves pr es s = s \/
  exists w h, moves pr es s = setCurrentAnnotation (Some (withExtent w h cur)) s.
Proof.
  intros Hm Ht Hd Hdr Hcur. induction es as [|e es IH] using rev_ind.
  - left. reflexivity.
  - right. unfold moves in *. rewrite fold_left_app. simpl.
    rewrite dispatch_handleMouseMove.
    destruct Hd as [Hnt Hni].
    destruct IH as [-> | (w & h & ->)].
    + unfold handleMouseMove. rewrite Hm, Hcur, Hdr, Ht.
      destruct (truthy (selectedId s)), (initialAnnState s), t;
        try contradiction; simpl; eauto.
    + unfold handleMouseMove. simpl. rewrite Hm, Hdr, Ht.
      destruct (truthy (selectedId s)), (initialAnnState s), t;
        try contradiction; simpl; eauto.
Qed.

Lemma moves_drawing_last pr es e1 s t cur :
  interactionMode s = mode_none -> tool s = shape t -> drawable t ->
  isDrawing s = true -> currentAnnotation s = Some cur ->
  moves pr (es ++ [e1]) s =
  setCurrentAnnotation
    (Some (withExtent (pt_x (getPointerPos pr e1) - pt_x (dragStartPos s))
                      (pt_y (getPointerPos pr e1) - pt_y (dragStartPos s)) cur))
    s.
Proof.
  intros Hm Ht Hd Hdr Hcur.
  destruct (moves_drawing pr es s t cur Hm Ht Hd Hdr Hcur) as [E | (w & h & E)];
    unfold moves in *; rewrite fold_left_app; simpl;
    rewrite dispatch_handleMouseMove, E; destruct Hd as [Hnt Hni];
    unfold handleMouseMove; simpl; rewrite Hm, Hdr, Ht; try rewrite Hcur;
    destruct (truthy (selectedId s)), (initialAnnState s), t;
    try contradiction; reflexivity.
Qed.

(** The state in which a drawing gesture that ends at [e1] leaves the
    editor. *)
Lemma drawGesture_state pr e0 es e1 answer uuid0 uuid s t :
  interactionMode s = mode_none -> tool s = shape t -> drawable t ->
  (forall a, In a (annotations s) -> ann_id a <> uuid) ->
  let p0 := getPointerPos pr e0 in
  let p1 := getPointerPos pr e1 in
  let idle :=
    setCurrentAnnotation None
      (setIsDrawing false
         (setInitialAnnState None
            (setResizeHandle None
               (setInteractionMode mode_none (setDragStartPos p0 s))))) in
  drawGesture pr e0 (es ++ [e1]) answer uuid0 uuid s =
  if absExceeds5 (pt_x p1 - pt_x p0) || absExceeds5 (pt_y p1 - pt_y p0)
  then setSelectedId (Some uuid)
         (setAnnotations (annotations s ++ [drawn uuid t (color s) p0 p1]) idle)
  else idle.
Proof.
  intros Hm Ht Hd Hfresh p0 p1 idle. unfold drawGesture.
  rewrite (handleMouseDown_draw pr e0 answer uuid0 s t Hm Ht Hd).
  erewrite moves_drawing_last; eauto.
  fold p0 p1. simpl dragStartPos.
  set (sm := setCurrentAnnotation _ _).
  assert (E : handleMouseUp uuid sm =
      if absExceeds5 (pt_x p1 - pt_x p0) || absExceeds5 (pt_y p1 - pt_y p0)
      then setSelectedId (Some uuid)
             (setAnnotations (annotations s ++ [drawn uuid t (color s) p0 p1])
                             idle)
      else idle).
  { unfold handleMouseUp, sm, idle. simpl. unfold orZero. simpl.
    destruct (absExceeds5 (pt_x p1 - pt_x p0) || absExceeds5 (pt_y p1 - pt_y p0));
      reflexivity. }
  unfold dispatch. rewrite E.
  destruct (absExceeds5 (pt_x p1 - pt_x p0) || absExceeds5 (pt_y p1 - pt_y p0)).
  - destruct (depsChanged _ _); [|reflexivity].
    apply syncFont_no_text. simpl. intros a Ha Hid.
    apply in_app_or in Ha. destruct Ha as [Ha | [<- | []]].
    + apply Hfresh in Ha. apply String.eqb_eq in Hid. contradiction.
    + simpl. apply Hd.
  - rewrite depsChanged_same; reflexivity.
Qed.

Lemma absExceeds5_zero : absExceeds5 0 = false.
Proof.
  unfold absExceeds5. destruct (Rlt_dec 5 (Rabs 0)) as [H|H]; [|reflexivity].
  rewrite Rabs_R0 in H. lra.
Qed.

(** A press and release with no pointer-move in between commits nothing. *)
Lemma drawGesture_click pr e0 answer uuid0 uuid s t :
  interactionMode s = mode_none -> tool s = shape t -> drawable t ->
  annotations (drawGesture pr e0 [] answer uuid0 uuid s) = annotations s /\
  selectedId (drawGesture pr e0 [] answer uuid0 uuid s) = selectedId s.
Proof.
  intros Hm Ht Hd. unfold drawGesture, moves. simpl.
  rewrite (handleMouseDown_draw pr e0 answer uuid0 s t Hm Ht Hd).
  unfold dispatch.
  assert (E : forall sd, sd = setCurrentAnnotation
      (Some (mkPartial None t (Some (pt_x (getPointerPos pr e0)))
                     (Some (pt_y (getPointerPos pr e0))) (Some 0) (Some 0) None
                     (Some (shapeColorOf t (color s))) None None None))
      (setIsDrawing true (setDragStartPos (getPointerPos pr e0) s)) ->
    annotations (handleMouseUp uuid sd) = annotations s /\
    selectedId (handleMouseUp uuid sd) = selectedId s /\
    fontSize (handleMouseUp uuid sd) = fontSize sd /\
    isBold (handleMouseUp uuid sd) = isBold sd /\
    selectedId sd = selectedId s).
  { intros sd ->. unfold handleMouseUp. simpl. unfold orZero. simpl.
    rewrite absExceeds5_zero. simpl. repeat split. }
  destruct (E _ eq_refl) as (Ha & Hs & Hf & Hb & Hs').
  rewrite depsChanged_same by congruence. split; assumption.
Qed.

(** C4. A drawing gesture: a press at [e0] with a drawing tool, pointer
    moves ending at [e1], a release.  With [(w, h)] the signed vector from
    the press to the last pointer position, the shape is appended to the
    annotation list and selected exactly when [|w| > 5] or [|h| > 5]; the
    committed annotation has [x, y] at the press point and width and
    height [w] and [h], signs kept.  Otherwise the list and the selection
    are as before; so they are after a press and release with no move.
    Either way the provisional shape is gone. *)
Theorem C4_draw_commit_threshold
    (pr : Props) (e0 : MouseEvent) (es : list MouseEvent) (e1 : MouseEvent)
    (answer : option string) (uuid0 uuid : string)
    (s : EditorState) (t : AnnotationType) :
  interactionMode s = mode_none -> tool s = shape t -> drawable t ->
  (forall a, In a (annotations s) -> ann_id a <> uuid) ->
  let p0 := getPointerPos pr e0 in
  let p1 := getPointerPos pr e1 in
  let w := pt_x p1 - pt_x p0 in
  let h := pt_y p1 - pt_y p0 in
  let s' := drawGesture pr e0 (es ++ [e1]) answer uuid0 uuid s in
  let click := drawGesture pr e0 [] answer uuid0 uuid s in
  (5 < Rabs w \/ 5 < Rabs h ->
     annotations s' =
       annotations s ++
       [mkAnnotation uuid t (pt_x p0) (pt_y p0) (Some w) (Some h) None
                     (orStr (Some (shapeColorOf t (color s))) (color s))
                     None None None] /\
     selectedId s' = Some uuid) /\
  (~ (5 < Rabs w \/ 5 < Rabs h) ->
     annotations s' = annotations s /\ selectedId s' = selectedId s) /\
  currentAnnotation s' = None /\ isDrawing s' = false /\
  annotations click = annotations s /\ selectedId click = selectedId s.
Proof.
  intros Hm Ht Hd Hfresh p0 p1 w h s' click.
  pose proof (drawGesture_state pr e0 es e1 answer uuid0 uuid s t
                Hm Ht Hd Hfresh) as E. simpl in E.
  fold p0 p1 w h in E. fold s' in E.
  pose proof (exceeds_orb w h) as Hc.
  pose proof (drawGesture_click pr e0 answer uuid0 uuid s t Hm Ht Hd) as Hk.
  destruct (absExceeds5 w || absExceeds5 h) eqn:Ec; rewrite E; simpl.
  - split; [intros _; split; reflexivity|].
    split; [intros Hn; exfalso; apply Hn, Hc; reflexivity|].
    split; [reflexivity|]. split; [reflexivity|exact Hk].
  - split; [intros Hn; apply Hc in Hn; discriminate|].
    split; [intros _; split; reflexivity|].
    split; [reflexivity|]. split; [reflexivity|exact Hk].
Qed.

Lemma drawable_rect : drawable rect.
Proof. split; discriminate. Qed.

Lemma drawable_highlight : drawable highlight.
Proof. split; discriminate. Qed.

Lemma scenario_pointer x y :
  getPointerPos scenarioProps (mkMouseEvent x y) = mkPoint x y.
Proof. unfold getPointerPos, scenarioProps; simpl. f_equal; lra. Qed.

Lemma C4_draw_witness :
  annotations
    (drawGesture scenarioProps (mkMouseEvent 100 100)
       ([mkMouseEvent 80 90] ++ [mkMouseEvent 50 50]) None "" "u1"
       (scenarioState (shape rect))) =
    [mkAnnotation "u1" rect 100 100 (Some (-50)) (Some (-50)) None "#ef4444"
                  None None None] /\
  selectedId
    (drawGesture scenarioProps (mkMouseEvent 100 100)
       ([mkMouseEvent 80 90] ++ [mkMouseEvent 50 50]) None "" "u1"
       (scenarioState (shape rect))) = Some "u1"%string.
Proof.
  pose proof (C4_draw_commit_threshold scenarioProps (mkMouseEvent 100 100)
                [mkMouseEvent 80 90] (mkMouseEvent 50 50) None "" "u1"
                (scenarioState (shape rect)) rect eq_refl eq_refl
                drawable_rect
                (fun a (H : In a []) => match H with end)) as H.
  cbv zeta in H. destruct H as (Hc & _).
  rewrite !scenario_pointer in Hc. cbn [pt_x pt_y] in Hc.
  replace (50 - 100) with (-50) in Hc by lra.
  apply Hc. left. rewrite Rabs_left; lra.
Defined.

(** C10. A drawing gesture that commits a shape: a highlight gets the
    colour ['#ffff00'] whatever the toolbar colour is, a rectangle or an
    arrow gets the toolbar colour, and the toolbar colour is the same
    after the gesture as before it. *)
Theorem C10_highlight_colour_fixed
    (pr : Props) (e0 : MouseEvent) (es : list MouseEvent) (e1 : MouseEvent)
    (answer : option string) (uuid0 uuid : string)
    (s : EditorState) (t : AnnotationType) :
  interactionMode s = mode_none -> tool s = shape t -> drawable t ->
  (forall a, In a (annotations s) -> ann_id a <> uuid) ->
  let p0 := getPointerPos pr e0 in
  let p1 := getPointerPos pr e1 in
  5 < Rabs (pt_x p1 - pt_x p0) \/ 5 < Rabs (pt_y p1 - pt_y p0) ->
  let s' := drawGesture pr e0 (es ++ [e1]) answer uuid0 uuid s in
  exists a, annotations s' = annotations s ++ [a] /\
            ann_id a = uuid /\ ann_type a = t /\
            ann_color a = match t with
                          | highlight => "#ffff00"%string
                          | _ => color s
                          end /\
            color s' = color s.
Proof.
  intros Hm Ht Hd Hfresh p0 p1 Hbig s'.
  pose proof (drawGesture_state pr e0 es e1 answer uuid0 uuid s t
                Hm Ht Hd Hfresh) as E. simpl in E.
  fold p0 p1 in E. fold s' in E.
  apply exceeds_orb in Hbig. rewrite Hbig in E. rewrite E. simpl.
  eexists. split; [reflexivity|]. simpl. repeat split.
  destruct t; simpl; try reflexivity; destruct (String.eqb (color s) "");
    reflexivity.
Qed.

Lemma C10_highlight_witness :
  exists a,
    annotations
      (drawGesture scenarioProps (mkMouseEvent 100 100)
         ([] ++ [mkMouseEvent 300 140]) None "" "u1"
         (scenarioState (shape highlight))) =
      annotations (scenarioState (shape highlight)) ++ [a] /\
    ann_id a = "u1"%string /\ ann_type a = highlight /\
    ann_color a = "#ffff00"%string /\
    color
      (drawGesture scenarioProps (mkMouseEvent 100 100)
         ([] ++ [mkMouseEvent 300 140]) None "" "u1"
         (scenarioState (shape highlight))) =
    color (scenarioState (shape highlight)).
Proof.
  apply (C10_highlight_colour_fixed scenarioProps (mkMouseEvent 100 100) []
           (mkMouseEvent 300 140) None "" "u1"
           (scenarioState (shape highlight)) highlight eq_refl eq_refl
           drawable_highlight
           (fun a (H : In a []) => match H with end)).
  left. rewrite !scenario_pointer. cbn [pt_x pt_y].
  rewrite Rabs_right; lra.
Defined.

(** *** Moving *)














(** On the reals [pointerCoord] is [getPointerPos], coordinate by
    coordinate. *)
Lemma getPointerPos_coord pr rc e :
  imgRect pr = Some rc ->
  pt_x (getPointerPos pr e) =
    pointerCoord Rminus Rmult Rdiv (clientX e) (rect_left rc)
                 (originalWidth (page pr)) (rect_width rc) /\
  pt_y (getPointerPos pr e) =
    pointerCoord Rminus Rmult Rdiv (clientY e) (rect_top rc)
                 (originalHeight (page pr)) (rect_height rc).
Proof.
  intros H. unfold getPointerPos. rewrite H. split; reflexivity.
Qed.





(** The pointer positions of the example: a page 600 wide shown 1200
    wide puts the pointer at 0.5 for [clientX = 1]. *)
Lemma doublePointer_half :
  doublePointer 1 0 600 1200 = 0.5%float /\
  doublePointer 0 0 600 1200 = 0%float.
Proof. split; reflexivity. Qed.

(** *** Resizing *)

(** The gesture state is out of reach of pointer-moves. *)
Lemma moves_frame pr es s :
  selectedId (moves pr es s) = selectedId s /\
  interactionMode (moves pr es s) = interactionMode s /\
  resizeHandle (moves pr es s) = resizeHandle s /\
  interactionStartPos (moves pr es s) = interactionStartPos s /\
  initialAnnState (moves pr es s) = initialAnnState s.
Proof.
  induction es as [|e es IH] using rev_ind; [repeat split|].
  unfold moves in *. rewrite fold_left_app. simpl.
  rewrite dispatch_handleMouseMove.
  destruct (handleMouseMove_frame pr e (fold_left
              (fun st e' => dispatch (handleMouseMove pr e') st) es s))
    as (_ & _ & _ & _ & _ & _ & H1 & H2 & H3 & H4 & H5).
  destruct IH as (I1 & I2 & I3 & I4 & I5).
  repeat split; congruence.
Qed.

Lemma resized_after (f : Annotation -> Annotation) id nx ny nw nh l :
  (forall ann, ann_id (f ann) = ann_id ann) ->
  (forall ann, String.eqb (ann_id ann) id = false -> f ann = ann) ->
  map (resized id nx ny nw nh) (map geom4 (map f l))
  = map (resized id nx ny nw nh) (map geom4 l).
Proof.
  intros Hid Hother. rewrite !map_map. apply map_ext. intros ann. simpl.
  rewrite Hid. destruct (String.eqb (ann_id ann) id) eqn:E; [reflexivity|].
  rewrite (Hother ann E). reflexivity.
Qed.

(** A pointer-move changes the geometry of annotations with the selected
    id only. *)
Lemma handleMouseMove_others pr e s id nx ny nw nh :
  selectedId s = Some id ->
  map (resized id nx ny nw nh) (map geom4 (annotations (handleMouseMove pr e s)))
  = map (resized id nx ny nw nh) (map geom4 (annotations s)).
Proof.
  intros Hs. unfold handleMouseMove. rewrite Hs.
  assert (Hmove : forall init dx dy,
    map (resized id nx ny nw nh)
      (map geom4
         (map (fun ann => if idIs (Some id) ann
                          then withPosition (ann_x init + dx) (ann_y init + dy) ann
                          else ann) (annotations s)))
    = map (resized id nx ny nw nh) (map geom4 (annotations s))).
  { intros init dx dy. apply resized_after; intros ann; simpl.
    - destruct (String.eqb (ann_id ann) id); reflexivity.
    - intros ->. reflexivity. }
  assert (Hresize : forall init handle dx dy,
    map (resized id nx ny nw nh)
      (map geom4
         (map (fun ann => if negb (idIs (Some id) ann) then ann
                          else resizeTo init handle dx dy ann) (annotations s)))
    = map (resized id nx ny nw nh) (map geom4 (annotations s))).
  { intros init handle dx dy. apply resized_after; intros ann; simpl.
    - destruct (String.eqb (ann_id ann) id); simpl; [|reflexivity].
      rewrite resizeTo_fields. reflexivity.
    - intros ->. reflexivity. }
  destruct (interactionMode s), (truthy (Some id)), (initialAnnState s),
           (truthy (resizeHandle s)), (resizeHandle s),
           (currentAnnotation s);
    simpl; try reflexivity; try apply Hmove; try apply Hresize;
    destruct (negb (isDrawing s) || isText (tool s) || isImage (tool s));
    reflexivity.
Qed.

Lemma moves_others pr es s id nx ny nw nh :
  selectedId s = Some id ->
  map (resized id nx ny nw nh) (map geom4 (annotations (moves pr es s)))
  = map (resized id nx ny nw nh) (map geom4 (annotations s)).
Proof.
  intros Hs. induction es as [|e es IH] using rev_ind; [reflexivity|].
  pose proof (proj1 (moves_frame pr es s)) as Hf.
  unfold moves in *. rewrite fold_left_app. simpl.
  rewrite dispatch_handleMouseMove.
  rewrite handleMouseMove_others by congruence. exact IH.
Qed.

Lemma geom4_syncFont s :
  map geom4 (annotations (syncFont s)) = map geom4 (annotations s).
Proof.
  unfold syncFont. destruct (truthy (selectedId s)); [|reflexivity]. simpl.
  rewrite map_map. apply map_ext. intros a.
  destruct (idIs (selectedId s) a); [|reflexivity].
  destruct (ann_type a); reflexivity.
Qed.

(** The state a press on a resize handle leaves: the gesture is armed
    with the handle, the snapshot and the press point, and no annotation
    has changed its geometry. *)
Lemma press_on_handle pr e0 handle id s a :
  findById id (annotations s) = Some a ->
  let sd := dispatch (handleResizeStart pr e0 handle id) s in
  interactionMode sd = resizing /\ selectedId sd = Some id /\
  resizeHandle sd = Some handle /\
  interactionStartPos sd = getPointerPos pr e0 /\
  initialAnnState sd = Some a /\
  map geom4 (annotations sd) = map geom4 (annotations s).
Proof.
  intros Hf sd. subst sd. unfold dispatch.
  set (h := handleResizeStart pr e0 handle id s).
  assert (Hh : interactionMode h = resizing /\ selectedId h = Some id /\
               resizeHandle h = Some handle /\
               interactionStartPos h = getPointerPos pr e0 /\
               initialAnnState h = Some a /\ annotations h = annotations s).
  { unfold h, handleResizeStart. rewrite Hf. simpl. repeat split. }
  destruct Hh as (H1 & H2 & H3 & H4 & H5 & H6).
  destruct (depsChanged s h).
  - rewrite geom4_syncFont, H6. unfold syncFont.
    destruct (truthy (selectedId h)); simpl; repeat split; assumption.
  - rewrite H6. repeat split; assumption.
Qed.

(** One pointer-move while resizing, on the whole annotation. *)
Lemma handleMouseMove_resizing pr e s id handle init :
  interactionMode s = resizing ->
  selectedId s = Some id -> id <> ""%string ->
  initialAnnState s = Some init ->
  resizeHandle s = Some handle -> handle <> ""%string ->
  annotations (handleMouseMove pr e s) =
  map (fun ann =>
         if String.eqb (ann_id ann) id
         then resizeTo init handle
                (pt_x (getPointerPos pr e) - pt_x (interactionStartPos s))
                (pt_y (getPointerPos pr e) - pt_y (interactionStartPos s)) ann
         else ann)
      (annotations s).
Proof.
  intros Hm Hsel Hid Hinit Hh Hhne. unfold handleMouseMove.
  rewrite Hm, Hsel, Hinit, Hh. rewrite !truthy_Some by assumption. simpl.
  apply map_ext. intros ann. destruct (String.eqb (ann_id ann) id); reflexivity.
Qed.

(** C3. A resize gesture: a press on the handle [handle] of the annotation
    [id] at [e0], then pointer-moves.  With [dx, dy] the distance of the
    pointer from the press point, a pointer-move at [e1], whatever
    pointer-moves [es] came before it, gives every annotation with that id
    the geometry computed from the annotation as it was at the press,
    each letter of the handle adding its own share: [e] adds [dx] to the
    width, [w] adds [dx] to [x] and takes it from the width, [s] adds [dy]
    to the height, [n] adds [dy] to [y] and takes it from the height.  The
    numbers are stored as computed, whatever their sign; the other fields
    of the annotation and all other annotations are as they were. *)
Theorem C3_resize_recomputes_from_snapshot
    (pr : Props) (s : EditorState) (id handle : string) (a : Annotation)
    (e0 : MouseEvent) (es : list MouseEvent) (e1 : MouseEvent) :
  findById id (annotations s) = Some a ->
  id <> ""%string -> handle <> ""%string ->
  let dx := pt_x (getPointerPos pr e1) - pt_x (getPointerPos pr e0) in
  let dy := pt_y (getPointerPos pr e1) - pt_y (getPointerPos pr e0) in
  let share (c : ascii) (d : R) := if includes handle c then d else 0 in
  let nx := ann_x a + share "w"%char dx in
  let ny := ann_y a + share "n"%char dy in
  let nw := orZero (ann_width a) + share "e"%char dx - share "w"%char dx in
  let nh := orZero (ann_height a) + share "s"%char dy - share "n"%char dy in
  let during := moves pr es (dispatch (handleResizeStart pr e0 handle id) s) in
  annotations (handleMouseMove pr e1 during) =
    map (fun ann =>
           if String.eqb (ann_id ann) id
           then mkAnnotation (ann_id ann) (ann_type ann) nx ny
                             (Some nw) (Some nh) (ann_text ann) (ann_color ann)
                             (ann_fontSize ann) (ann_fontWeight ann)
                             (ann_imageData ann)
           else ann)
        (annotations during) /\
  map geom4 (annotations (handleMouseMove pr e1 during)) =
    map (resized id nx ny nw nh) (map geom4 (annotations s)).
Proof.
  intros Hf Hid Hh dx dy share nx ny nw nh during.
  destruct (press_on_handle pr e0 handle id s a Hf) as (M & S & H & P & I & G).
  destruct (moves_frame pr es (dispatch (handleResizeStart pr e0 handle id) s))
    as (F1 & F2 & F3 & F4 & F5).
  fold during in F1, F2, F3, F4, F5.
  assert (E : annotations (handleMouseMove pr e1 during) =
    map (fun ann =>
           if String.eqb (ann_id ann) id
           then mkAnnotation (ann_id ann) (ann_type ann) nx ny
                             (Some nw) (Some nh) (ann_text ann) (ann_color ann)
                             (ann_fontSize ann) (ann_fontWeight ann)
                             (ann_imageData ann)
           else ann)
        (annotations during)).
  { rewrite (handleMouseMove_resizing pr e1 during id handle a)
      by congruence.
    apply map_ext. intros ann.
    destruct (String.eqb (ann_id ann) id); [|reflexivity].
    rewrite resizeTo_fields, F4, P. reflexivity. }
  split; [exact E|].
  rewrite E, map_map.
  rewrite <- G.
  rewrite <- (moves_others pr es _ id nx ny nw nh S). fold during.
  rewrite map_map. apply map_ext. intros ann. simpl.
  destruct (String.eqb (ann_id ann) id); reflexivity.
Qed.

(** A south-east handle of a box of 100 by 50, pressed at (200,150) and
    dragged to (70,60): the stored box is inverted, width -30 and height
    -40. *)
Lemma C3_resize_witness :
  map geom4
      (annotations
         (handleMouseMove scenarioProps (mkMouseEvent 70 60)
            (moves scenarioProps [mkMouseEvent 150 100]
               (dispatch
                  (handleResizeStart scenarioProps (mkMouseEvent 200 150)
                                     "se" "a")
                  (setAnnotations
                     [mkAnnotation "a" rect 100 100 (Some 100) (Some 50) None
                                   "#ef4444" None None None]
                     (scenarioState select)))))) =
  [("a"%string, 100, 100, Some (-30), Some (-40))].
Proof.
  destruct (C3_resize_recomputes_from_snapshot scenarioProps
              (setAnnotations
                 [mkAnnotation "a" rect 100 100 (Some 100) (Some 50) None
                               "#ef4444" None None None]
                 (scenarioState select))
              "a" "se"
              (mkAnnotation "a" rect 100 100 (Some 100) (Some 50) None
                            "#ef4444" None None None)
              (mkMouseEvent 200 150) [mkMouseEvent 150 100] (mkMouseEvent 70 60)
              eq_refl) as (_ & H); [discriminate|discriminate|].
  rewrite H. rewrite !scenario_pointer. simpl.
  repeat f_equal; lra.
Defined.

(* --------------------------------------------------------------------- *)
(** ** Arrows                                                              *)
(* --------------------------------------------------------------------- *)

Lemma hypot_factor x y :
  x <> 0 -> sqrt (x * x + y * y) = Rabs x * sqrt (1 + (y / x)²).
Proof.
  intros Hx.
  replace (x * x + y * y) with (x² * (1 + (y / x)²))
    by (unfold Rsqr; field; assumption).
  rewrite sqrt_mult.
  - rewrite sqrt_Rsqr_abs. reflexivity.
  - apply Rle_0_sqr.
  - pose proof (Rle_0_sqr (y / x)). lra.
Qed.

Lemma sqrt_one_plus_sqr_pos t : 0 < sqrt (1 + t²).
Proof. apply sqrt_lt_R0. pose proof (Rle_0_sqr t). lra. Qed.

(** [atan2 y x] is the angle of the vector [(x, y)]. *)
Lemma atan2_direction x y :
  sqrt (x * x + y * y) * cos (atan2 y x) = x /\
  sqrt (x * x + y * y) * sin (atan2 y x) = y.
Proof.
  unfold atan2.
  destruct (Rlt_dec 0 x) as [Hp|Hp]; [|destruct (Rlt_dec x 0) as [Hn|Hn]].
  - rewrite hypot_factor by lra. rewrite cos_atan, sin_atan.
    rewrite Rabs_right by lra.
    pose proof (sqrt_one_plus_sqr_pos (y / x)).
    split; field; lra.
  - rewrite hypot_factor by lra. rewrite Rabs_left by lra.
    pose proof (sqrt_one_plus_sqr_pos (y / x)).
    destruct (Rle_dec 0 y).
    + rewrite neg_cos, neg_sin, cos_atan, sin_atan. split; field; lra.
    + replace (atan (y / x) - PI) with (- (- atan (y / x) + PI)) by lra.
      rewrite cos_neg, sin_neg, neg_cos, neg_sin, cos_neg, sin_neg.
      rewrite cos_atan, sin_atan. split; field; lra.
  - assert (x = 0) by lra. subst x.
    replace (0 * 0 + y * y) with (y²) by (unfold Rsqr; lra).
    rewrite sqrt_Rsqr_abs.
    destruct (Rlt_dec 0 y); [|destruct (Rlt_dec y 0)].
    + rewrite cos_PI2, sin_PI2, Rabs_right by lra. lra.
    + rewrite cos_neg, sin_neg, cos_PI2, sin_PI2, Rabs_left by lra. lra.
    + assert (y = 0) by lra. subst y. rewrite Rabs_R0. lra.
Qed.

(** Turning a vector round turns its angle by half a turn. *)
Lemma atan2_opp x y :
  x <> 0 \/ y <> 0 ->
  atan2 (- y) (- x) = atan2 y x + PI \/ atan2 (- y) (- x) = atan2 y x - PI.
Proof.
  intros Hnz. unfold atan2.
  destruct (Rlt_dec 0 x) as [Hp|Hp]; [|destruct (Rlt_dec x 0) as [Hn|Hn]].
  - destruct (Rlt_dec 0 (- x)); [lra|]. destruct (Rlt_dec (- x) 0); [|lra].
    replace (- y / - x) with (y / x) by (field; lra).
    destruct (Rle_dec 0 (- y)); [left|right]; reflexivity.
  - destruct (Rlt_dec 0 (- x)); [|lra].
    replace (- y / - x) with (y / x) by (field; lra).
    destruct (Rle_dec 0 y); [right|left]; lra.
  - assert (x = 0) by lra. subst x.
    destruct (Rlt_dec 0 (- 0)); [lra|]. destruct (Rlt_dec (- 0) 0); [lra|].
    destruct (Rlt_dec 0 y); [|destruct (Rlt_dec y 0)].
    + destruct (Rlt_dec 0 (- y)); [lra|]. destruct (Rlt_dec (- y) 0); [|lra].
      right. lra.
    + destruct (Rlt_dec 0 (- y)); [|lra]. left. lra.
    + lra.
Qed.

Lemma half_turn_cos a b :
  a = b + PI \/ a = b - PI -> forall d, cos (a + d) = - cos (b + d).
Proof.
  intros [-> | ->] d.
  - replace (b + PI + d) with (b + d + PI) by lra. apply neg_cos.
  - replace (b - PI + d) with (- (- (b + d) + PI)) by lra.
    rewrite cos_neg, neg_cos, cos_neg. reflexivity.
Qed.

Lemma half_turn_sin a b :
  a = b + PI \/ a = b - PI -> forall d, sin (a + d) = - sin (b + d).
Proof.
  intros [-> | ->] d.
  - replace (b + PI + d) with (b + d + PI) by lra. apply neg_sin.
  - replace (b - PI + d) with (- (- (b + d) + PI)) by lra.
    rewrite sin_neg, neg_sin, sin_neg. lra.
Qed.

(** A head vertex is [headLen] away from the tip. *)
Lemma head_length toX toY headLen angle d :
  (toX - (toX - headLen * cos (angle + d))) *
  (toX - (toX - headLen * cos (angle + d))) +
  (toY - (toY - headLen * sin (angle + d))) *
  (toY - (toY - headLen * sin (angle + d))) = headLen * headLen.
Proof.
  pose proof (sin2_cos2 (angle + d)) as H. unfold Rsqr in H. nra.
Qed.

(** Assignments the numeric attributes take. *)
Lemma alphaTaken_iff v : alphaTaken v = true <-> 0 <= v <= 1.
Proof.
  unfold alphaTaken. destruct (Rle_dec 0 v); [destruct (Rle_dec v 1)|];
    split; intros H; try reflexivity; try discriminate; lra.
Qed.

Lemma alphaTaken_one : alphaTaken 1 = true.
Proof. apply alphaTaken_iff. lra. Qed.

Lemma alphaTaken_highlight : alphaTaken (4 / 10) = true.
Proof. apply alphaTaken_iff. lra. Qed.

Lemma widthTaken_pos v : 0 < v -> widthTaken v = true.
Proof. intros H. unfold widthTaken. destruct (Rlt_dec 0 v); [reflexivity|lra]. Qed.

Lemma widthTaken_4 : widthTaken 4 = true.
Proof. apply widthTaken_pos. lra. Qed.

Lemma widthTaken_5 : widthTaken 5 = true.
Proof. apply widthTaken_pos. lra. Qed.

Lemma fontTaken_nonneg w size : 0 <= size -> fontTaken (mkFont w size) = true.
Proof.
  intros H. unfold fontTaken. simpl.
  destruct (Rle_dec 0 size); [reflexivity|lra].
Qed.

Hint Rewrite alphaTaken_one alphaTaken_highlight widthTaken_4 widthTaken_5
  : canvas.

Lemma flattenAnnotation_arrow ann ctx :
  ann_type ann = arrow ->
  painted (flattenAnnotation ann ctx) =
  painted ctx ++
  exportedArrow (ann_x ann) (ann_y ann) (orZero (ann_width ann))
                (orZero (ann_height ann))
                (strokeStyle (setStrokeStyle (ann_color ann) ctx))
                (fillStyle (setFillStyle (ann_color ann) ctx)).
Proof.
  intros Ht. render. rewrite Ht. simpl. canvas.
  rewrite <- app_assoc. simpl. unfold exportedArrow.
  replace (ann_y ann + orZero (ann_height ann) - ann_y ann)
    with (orZero (ann_height ann)) by lra.
  replace (ann_x ann + orZero (ann_width ann) - ann_x ann)
    with (orZero (ann_width ann)) by lra.
  reflexivity.
Qed.

Lemma exportedArrow_turned x y w h stroked filled :
  w <> 0 \/ h <> 0 ->
  exportedArrow x y (- w) (- h) stroked filled =
  map (turnedOp x y) (exportedArrow x y w h stroked filled).
Proof.
  intros Hnz. unfold exportedArrow, headVertex1, headVertex2. simpl.
  pose proof (atan2_opp w h Hnz) as Ha.
  pose proof (half_turn_cos _ _ Ha (PI / 6)) as Hc.
  pose proof (half_turn_sin _ _ Ha (PI / 6)) as Hs.
  pose proof (half_turn_cos _ _ Ha (- (PI / 6))) as Hc'.
  pose proof (half_turn_sin _ _ Ha (- (PI / 6))) as Hs'.
  fold (atan2 (- h) (- w) - PI / 6) in Hc', Hs'.
  fold (atan2 h w - PI / 6) in Hc', Hs'.
  rewrite Hc, Hs, Hc', Hs'.
  repeat (f_equal; try lra).
Qed.

Lemma atan2_scale k x y : 0 < k -> atan2 (y * k) (x * k) = atan2 y x.
Proof.
  intros Hk. unfold atan2.
  destruct (Rlt_dec 0 x) as [Hp|Hp]; [|destruct (Rlt_dec x 0) as [Hn|Hn]].
  - destruct (Rlt_dec 0 (x * k)) as [_|N]; [|exfalso; apply N; nra].
    f_equal. field. lra.
  - destruct (Rlt_dec 0 (x * k)) as [P|_]; [exfalso; nra|].
    destruct (Rlt_dec (x * k) 0) as [_|N]; [|exfalso; apply N; nra].
    replace (y * k / (x * k)) with (y / x) by (field; lra).
    destruct (Rle_dec 0 y), (Rle_dec 0 (y * k)); try reflexivity;
      exfalso; nra.
  - assert (x = 0) by lra. subst x. rewrite Rmult_0_l.
    destruct (Rlt_dec 0 0); [lra|].
    destruct (Rlt_dec 0 y), (Rlt_dec 0 (y * k)); try reflexivity;
      try (exfalso; nra).
    destruct (Rlt_dec y 0), (Rlt_dec (y * k) 0); try reflexivity;
      exfalso; nra.
Qed.

Lemma head_axis theta len v :
  len * cos theta = v ->
  len * ((cos (theta - PI / 6) + cos (theta + PI / 6)) / 2) = cos (PI / 6) * v.
Proof.
  intros <-. rewrite cos_minus, cos_plus. field.
Qed.

Lemma head_axis_sin theta len v :
  len * sin theta = v ->
  len * ((sin (theta - PI / 6) + sin (theta + PI / 6)) / 2) = cos (PI / 6) * v.
Proof.
  intros <-. rewrite sin_minus, sin_plus. field.
Qed.

Lemma cos_PI6_pos : 0 < cos (PI / 6).
Proof.
  rewrite cos_PI6. apply Rdiv_lt_0_compat; [|lra].
  apply sqrt_lt_R0. lra.
Qed.

(** C5. The arrow of the export flattener, for an arrow annotation at
    [(x, y)] with signed extent [(w, h)]: a stroked line from [(x, y)] to
    the tip [(x + w, y + h)] and a filled triangle whose corners are the
    tip and two base vertices.  With [theta] the angle of the line (the
    vector [(w, h)] is its length times [(cos theta, sin theta)]), the
    base vertices lie 20 units from the tip, back along the directions
    [theta - 30 degrees] and [theta + 30 degrees]; the 20 does not depend
    on [(w, h)].  The axis of the head, from the middle of its base to the
    tip, is a positive multiple of the direction of [(w, h)].  When
    [(w, h)] is not the zero vector, the annotation with [(-w, -h)] is
    painted as the same drawing turned by half a turn about [(x, y)],
    shaft and head.  The clipboard copy paints the same arrow with every
    length multiplied by its scale, and the editor overlay draws the same
    line and head inside the annotation's box, with the head length
    [20 * (1 / zoom * 0.5 + 0.5)] in place of 20.  On the canvas the line
    and the head are in the styles it holds once the annotation's colour
    has been assigned to them: that colour, when the canvas takes it as a
    colour. *)
Theorem C5_arrow_line_head_flip (ann : Annotation) (ctx : Ctx) :
  ann_type ann = arrow ->
  let x := ann_x ann in
  let y := ann_y ann in
  let w := orZero (ann_width ann) in
  let h := orZero (ann_height ann) in
  let tipX := x + w in
  let tipY := y + h in
  let theta := atan2 h w in
  let len := sqrt (w * w + h * h) in
  let v1 := (tipX - 20 * cos (theta - PI / 6), tipY - 20 * sin (theta - PI / 6)) in
  let v2 := (tipX - 20 * cos (theta + PI / 6), tipY - 20 * sin (theta + PI / 6)) in
  let stroked := strokeStyle (setStrokeStyle (ann_color ann) ctx) in
  let filled := fillStyle (setFillStyle (ann_color ann) ctx) in
  let drawing :=
    [StrokePath [MoveTo x y; LineTo tipX tipY] stroked 5 1;
     FillPath [MoveTo tipX tipY; LineTo (fst v1) (snd v1);
               LineTo (fst v2) (snd v2); ClosePath] filled 1] in
  painted (flattenAnnotation ann ctx) = painted ctx ++ drawing /\
  (len * cos theta = w /\ len * sin theta = h) /\
  ((tipX - fst v1) * (tipX - fst v1) + (tipY - snd v1) * (tipY - snd v1)
     = 20 * 20 /\
   (tipX - fst v2) * (tipX - fst v2) + (tipY - snd v2) * (tipY - snd v2)
     = 20 * 20) /\
  (0 < 20 * cos (PI / 6) /\
   len * (tipX - (fst v1 + fst v2) / 2) = 20 * cos (PI / 6) * w /\
   len * (tipY - (snd v1 + snd v2) / 2) = 20 * cos (PI / 6) * h) /\
  (w <> 0 \/ h <> 0 ->
   painted (flattenAnnotation (withGeometry x y (- w) (- h) ann) ctx) =
   painted ctx ++ map (turnedOp x y) drawing) /\
  (forall scale, 0 < scale ->
   painted (clipboardAnnotation scale ann ctx) =
   painted ctx ++
   [StrokePath [MoveTo (x * scale) (y * scale);
                LineTo (tipX * scale) (tipY * scale)]
               stroked (5 * scale) 1;
    FillPath [MoveTo (tipX * scale) (tipY * scale);
              LineTo (fst v1 * scale) (snd v1 * scale);
              LineTo (fst v2 * scale) (snd v2 * scale); ClosePath]
             filled 1]) /\
  (forall pr s,
   let bx := boxX (renderedBox ann) in
   let top := boxY (renderedBox ann) in
   let headLen := 20 * (1 / zoom s * (5 / 10) + 5 / 10) in
   node_content (renderAnnotation pr s (asPartial ann) false) =
   svgArrow (x - bx) (y - top) (tipX - bx) (tipY - top)
            (headVertex1 (tipX - bx) (tipY - top) headLen theta)
            (headVertex2 (tipX - bx) (tipY - top) headLen theta)
            (ann_color ann)) /\
  (cssColor ctx (ann_color ann) = true ->
   stroked = ann_color ann /\ filled = ann_color ann).
Proof.
  intros Ht x y w h tipX tipY theta len v1 v2 stroked filled drawing.
  destruct (atan2_direction w h) as [Hcos Hsin]. fold theta len in Hcos, Hsin.
  split; [exact (flattenAnnotation_arrow ann ctx Ht)|].
  split; [split; assumption|].
  split.
  { split; simpl.
    - exact (head_length tipX tipY 20 theta (- (PI / 6))).
    - exact (head_length tipX tipY 20 theta (PI / 6)). }
  split.
  { split; [pose proof cos_PI6_pos; lra|]. simpl. split.
    - pose proof (head_axis theta len w Hcos) as E.
      replace (tipX - (tipX - 20 * cos (theta - PI / 6)
                       + (tipX - 20 * cos (theta + PI / 6))) / 2)
        with (20 * ((cos (theta - PI / 6) + cos (theta + PI / 6)) / 2))
        by field.
      replace (20 * cos (PI / 6) * w) with (20 * (cos (PI / 6) * w)) by ring.
      rewrite <- E. ring.
    - pose proof (head_axis_sin theta len h Hsin) as E.
      replace (tipY - (tipY - 20 * sin (theta - PI / 6)
                       + (tipY - 20 * sin (theta + PI / 6))) / 2)
        with (20 * ((sin (theta - PI / 6) + sin (theta + PI / 6)) / 2))
        by field.
      replace (20 * cos (PI / 6) * h) with (20 * (cos (PI / 6) * h)) by ring.
      rewrite <- E. ring. }
  split.
  { intros Hnz.
    rewrite flattenAnnotation_arrow by (simpl; assumption). simpl.
    f_equal. unfold orZero. simpl.
    exact (exportedArrow_turned x y w h stroked filled Hnz). }
  split.
  { intros scale Hs. unfold clipboardAnnotation. rewrite Ht. simpl.
    canvas. rewrite !widthTaken_pos by lra.
    rewrite <- app_assoc. simpl. fold x y w h.
    rewrite (atan2_scale scale w h Hs). fold theta.
    unfold headVertex1, headVertex2. simpl.
    repeat (f_equal; try (unfold tipX, tipY; ring)). }
  split.
  { intros pr s bx top headLen.
    render. unfold renderContent. simpl. rewrite Ht. simpl. refold.
    fold (renderedBox ann). fold x y w h bx top tipX tipY headLen.
    replace (tipY - top - (y - top)) with h by (unfold tipY; ring).
    replace (tipX - bx - (x - bx)) with w by (unfold tipX; ring).
    reflexivity. }
  intros Hcss. unfold stroked, filled. simpl. rewrite Hcss.
  split; reflexivity.
Qed.

Lemma C5_arrow_witness :
  painted
    (flattenAnnotation
       (mkAnnotation "a" arrow 100 100 (Some 30) (Some 0) None "#ef4444"
                     None None None) newCtx) =
    [StrokePath [MoveTo 100 100; LineTo (100 + 30) (100 + 0)] "#ef4444" 5 1;
     FillPath
       [MoveTo (100 + 30) (100 + 0);
        LineTo (100 + 30 - 20 * cos (atan2 0 30 - PI / 6))
               (100 + 0 - 20 * sin (atan2 0 30 - PI / 6));
        LineTo (100 + 30 - 20 * cos (atan2 0 30 + PI / 6))
               (100 + 0 - 20 * sin (atan2 0 30 + PI / 6));
        ClosePath] "#ef4444" 1] /\
  painted
    (flattenAnnotation
       (mkAnnotation "a" arrow 100 100 (Some (Ropp 30)) (Some (Ropp 0)) None
                     "#ef4444" None None None) newCtx) =
    [StrokePath [MoveTo (2 * 100 - 100) (2 * 100 - 100);
                 LineTo (2 * 100 - (100 + 30)) (2 * 100 - (100 + 0))]
                "#ef4444" 5 1;
     FillPath
       [MoveTo (2 * 100 - (100 + 30)) (2 * 100 - (100 + 0));
        LineTo (2 * 100 - (100 + 30 - 20 * cos (atan2 0 30 - PI / 6)))
               (2 * 100 - (100 + 0 - 20 * sin (atan2 0 30 - PI / 6)));
        LineTo (2 * 100 - (100 + 30 - 20 * cos (atan2 0 30 + PI / 6)))
               (2 * 100 - (100 + 0 - 20 * sin (atan2 0 30 + PI / 6)));
        ClosePath] "#ef4444" 1].
Proof.
  destruct (C5_arrow_line_head_flip
              (mkAnnotation "a" arrow 100 100 (Some 30) (Some 0) None "#ef4444"
                            None None None) newCtx eq_refl)
    as (Hdraw & _ & _ & _ & Hflip & _ & _).
  split.
  - exact Hdraw.
  - assert (Hnz : 30 <> 0) by lra.
    exact (Hflip (or_introl Hnz)).
Defined.

(* --------------------------------------------------------------------- *)
(** ** Highlights                                                          *)
(* --------------------------------------------------------------------- *)

Lemma highlight_rendering pr s ctx ann :
  ann_type ann = highlight ->
  node_content (renderAnnotation pr s (asPartial ann) false) =
    divHighlight (ann_color ann) (3 / 10) /\
  renderThumbnail (page pr) ann =
    thumbHighlight (boxX (renderedBox ann) / originalWidth (page pr) * 100)
                   (boxY (renderedBox ann) / originalHeight (page pr) * 100)
                   (boxW (renderedBox ann) / originalWidth (page pr) * 100)
                   (boxH (renderedBox ann) / originalHeight (page pr) * 100)
                   (ann_color ann) (3 / 10) /\
  painted (flattenAnnotation ann ctx) =
    painted ctx ++
    [FillRect (boxX (renderedBox ann)) (boxY (renderedBox ann))
              (boxW (renderedBox ann)) (boxH (renderedBox ann))
              (fillStyle (setFillStyle (ann_color ann) ctx)) (4 / 10)].
Proof.
  intros Ht. render. unfold renderContent, renderedBox.
  simpl. rewrite Ht. simpl. canvas. repeat split; reflexivity.
Qed.

(** C1, as the code has it.  For every highlight annotation each of the
    three targets fills the normalized box with an alpha that does not
    depend on the annotation and lies between 0.3 and 0.4: the editor
    overlay and the grid thumbnail are a box of the annotation's colour at
    opacity 0.3, the export flattener fills the box at alpha 0.4 and puts
    the alpha back to 1.  The fill is in the style the canvas holds once
    the annotation's colour has been assigned to it: that colour, when
    the canvas takes it as a colour. *)
Theorem C1_highlight_alpha_per_target
    (pr : Props) (s : EditorState) (ctx : Ctx) (ann : Annotation) :
  ann_type ann = highlight ->
  let box := renderedBox ann in
  let W := originalWidth (page pr) in
  let H := originalHeight (page pr) in
  let node := renderAnnotation pr s (asPartial ann) false in
  (node_content node = divHighlight (ann_color ann) (3 / 10) /\
   style_left (node_style node) = boxX box / W * 100 /\
   style_top (node_style node) = boxY box / H * 100 /\
   style_width (node_style node) = Some (boxW box / W * 100) /\
   style_height (node_style node) = Some (boxH box / H * 100)) /\
  renderThumbnail (page pr) ann =
    thumbHighlight (boxX box / W * 100) (boxY box / H * 100)
                   (boxW box / W * 100) (boxH box / H * 100)
                   (ann_color ann) (3 / 10) /\
  (painted (flattenAnnotation ann ctx) =
     painted ctx ++
     [FillRect (boxX box) (boxY box) (boxW box) (boxH box)
               (fillStyle (setFillStyle (ann_color ann) ctx)) (4 / 10)] /\
   globalAlpha (flattenAnnotation ann ctx) = 1) /\
  (3 / 10 <= 3 / 10 <= 4 / 10 /\ 3 / 10 <= 4 / 10 <= 4 / 10) /\
  (cssColor ctx (ann_color ann) = true ->
   fillStyle (setFillStyle (ann_color ann) ctx) = ann_color ann).
Proof.
  intros Ht box W H node. subst node box.
  render. unfold renderContent, renderedBox.
  simpl. rewrite Ht. simpl. canvas.
  repeat split; try reflexivity; try lra.
  intros Hcss. rewrite Hcss. reflexivity.
Qed.

Lemma C1_highlight_witness :
  node_content
    (renderAnnotation scenarioProps (scenarioState select)
                      (asPartial yellowMark) false) =
    divHighlight "#ffff00" (3 / 10) /\
  painted (flattenAnnotation yellowMark newCtx) =
    [FillRect (boxX (renderedBox yellowMark)) (boxY (renderedBox yellowMark))
              (boxW (renderedBox yellowMark)) (boxH (renderedBox yellowMark))
              "#ffff00" (4 / 10)].
Proof.
  destruct (C1_highlight_alpha_per_target scenarioProps (scenarioState select)
              newCtx yellowMark eq_refl) as ((Hc & _) & _ & (Hp & _) & _).
  split; [exact Hc | exact Hp].
Defined.

(** No single alpha serves the three targets: the overlay shows the mark
    at 0.3 and the export fills it at 0.4. *)
Lemma C1_one_alpha_counterexample :
  ~ exists alpha,
      paintedWithAlpha scenarioProps (scenarioState select) newCtx
                       yellowMark alpha.
Proof.
  intros (alpha & He & _ & Hx).
  destruct (highlight_rendering scenarioProps (scenarioState select)
              newCtx yellowMark eq_refl) as (Hc & _ & Hp).
  rewrite Hc in He. rewrite Hp in Hx.
  injection He as He. apply app_inv_head in Hx. injection Hx as Hx.
  lra.
Qed.

(* --------------------------------------------------------------------- *)
(** ** Rotation and export                                                 *)
(* --------------------------------------------------------------------- *)

Lemma rotateSelected_lookup sel (pgs : list PDFPageData) j q :
  pgs !! j = Some q ->
  rotateSelected sel pgs !! j =
  Some (if bool_decide (page_id q ∈ sel)
        then withRotation (Z.rem (rotation q + 90) 360) q else q).
Proof.
  intros H. unfold rotateSelected. rewrite list_lookup_fmap, H. reflexivity.
Qed.

(** Loading the source of a page and copying the page out of it. *)
Lemma exportPage_run lib (sources : gmap string SourcePDF) pageData source w
      bytes doc sp :
  sources !! sourcePdfId pageData = Some source ->
  buffers w !! src_data source = Some (Live bytes) ->
  pdflibParse lib bytes = Some doc ->
  doc !! pageIndex pageData = Some sp ->
  let copiedPage :=
    mkPdfPage (pdf_body sp) (pdf_rotation sp + rotation pageData)
              (pdf_width sp) (pdf_height sp) in
  let w1 := mkWorld (buffers w) (calls w ++ [mkCall pdflib_load (src_data source)])
                    (uuidsDrawn w) in
  exportPage lib sources pageData w =
  match page_annotations pageData,
        getContext lib (originalWidth pageData) (originalHeight pageData) with
  | _ :: _, Some ctx =>
      let canvas := flatten ctx (page_annotations pageData) in
      (Ok (Some (mkOutPage copiedPage
                   [mkLayer canvas (originalWidth pageData)
                            (originalHeight pageData) 0 0
                            (pdf_width sp) (pdf_height sp)])),
       mkWorld (buffers w ++ [Live (encodePng lib canvas)])
               (calls w ++ [mkCall pdflib_load (src_data source)]
                        ++ [mkCall pdflib_embedPng (length (buffers w))])
               (uuidsDrawn w))
  | _, _ => (Ok (Some (mkOutPage copiedPage [])), w1)
  end.
Proof.
  intros Hs Hb Hd Hp copiedPage w1.
  unfold exportPage. rewrite Hs.
  unfold bind at 1. unfold PDFDocument_load, bind, logCall, readBuffer. simpl.
  rewrite Hb, Hd. simpl. rewrite Hp. simpl.
  destruct (page_annotations pageData) as [|a l] eqn:Ea; simpl.
  - reflexivity.
  - unfold flattenOnto.
    destruct (getContext lib (originalWidth pageData) (originalHeight pageData));
      simpl; [|reflexivity].
    unfold alloc, logCall, ret; simpl. rewrite Ea, <- app_assoc. reflexivity.
Qed.

(** C9. Export of a page without annotations: the page copied from the
    source goes into the output with the content it has in the source and
    with no image layer over it; no canvas is encoded (the buffers are the
    ones there were) and nothing is handed to the PNG embedder (the one
    call is the load of the source document). *)
Theorem C9_unannotated_page_copied_as_is
    (lib : Libs) (sources : gmap string SourcePDF) (pageData : PDFPageData)
    (source : SourcePDF) (w : World) (bytes : Bytes) (doc : list PdfPage)
    (sp : PdfPage) :
  page_annotations pageData = [] ->
  sources !! sourcePdfId pageData = Some source ->
  buffers w !! src_data source = Some (Live bytes) ->
  pdflibParse lib bytes = Some doc ->
  doc !! pageIndex pageData = Some sp ->
  exists out w',
    exportPage lib sources pageData w = (Ok (Some out), w') /\
    generateFinalPDF lib [pageData] sources w = (Ok [out], w') /\
    out_layers out = [] /\
    pdf_body (out_page out) = pdf_body sp /\
    pdf_width (out_page out) = pdf_width sp /\
    pdf_height (out_page out) = pdf_height sp /\
    buffers w' = buffers w /\
    callsSince w w' = [mkCall pdflib_load (src_data source)].
Proof.
  intros Ha Hs Hb Hd Hp.
  pose proof (exportPage_run lib sources pageData source w bytes doc sp
                Hs Hb Hd Hp) as E. simpl in E. rewrite Ha in E.
  eexists _, _. split; [exact E|]. split.
  - unfold generateFinalPDF, mergedPages. simpl. unfold bind. rewrite E.
    reflexivity.
  - simpl. repeat split; try reflexivity.
    unfold callsSince. simpl. rewrite drop_app_length. reflexivity.
Qed.

Lemma C9_unannotated_witness :
  exists out w',
    exportPage demoLibs demoSources demoSecond demoWorld = (Ok (Some out), w') /\
    generateFinalPDF demoLibs [demoSecond] demoSources demoWorld
      = (Ok [out], w') /\
    out_layers out = [] /\
    pdf_body (out_page out) = sourceBody 1 /\
    pdf_width (out_page out) = 595 /\
    pdf_height (out_page out) = 842 /\
    buffers w' = buffers demoWorld /\
    callsSince demoWorld w' = [mkCall pdflib_load 0%nat].
Proof.
  exact (C9_unannotated_page_copied_as_is demoLibs demoSources demoSecond
           demoSource demoWorld [] demoDoc
           (mkPdfPage (sourceBody 1) 90 595 842)
           eq_refl (lookup_singleton_eq _ _) eq_refl eq_refl eq_refl).
Defined.

Lemma rotateSelected_thrice sel (pages : list PDFPageData) i p :
  pages !! i = Some p -> page_id p ∈ sel -> rotation p = 0%Z ->
  rotateSelected sel (rotateSelected sel (rotateSelected sel pages)) !! i =
  Some (withRotation 270 p).
Proof.
  intros Hl Hs Hr.
  pose proof (rotateSelected_lookup sel pages i p Hl) as H1.
  rewrite bool_decide_eq_true_2 in H1 by assumption.
  pose proof (rotateSelected_lookup sel _ i _ H1) as H2.
  rewrite bool_decide_eq_true_2 in H2 by assumption.
  pose proof (rotateSelected_lookup sel _ i _ H2) as H3.
  rewrite bool_decide_eq_true_2 in H3 by assumption.
  rewrite H3. simpl. rewrite Hr. reflexivity.
Qed.

(** C7. Rotation.  One rotate action turns every selected page from its
    stored rotation [r] to [(r + 90) % 360] and leaves the other pages as
    they are.  Export gives the copied page the rotation it has in the
    source plus the stored rotation.  So a selected page whose stored
    rotation is 0 has the stored rotation 270 after three rotate actions,
    and its exported copy has the source rotation plus 270, which is the
    source rotation plus 270 modulo 360. *)
Theorem C7_rotate_quarter_turns_and_export_sum
    (lib : Libs) (sel : gset string) (pages : list PDFPageData) (i : nat)
    (p : PDFPageData) (sources : gmap string SourcePDF) (source : SourcePDF)
    (w : World) (bytes : Bytes) (doc : list PdfPage) (sp : PdfPage) :
  pages !! i = Some p ->
  page_id p ∈ sel ->
  rotation p = 0%Z ->
  sources !! sourcePdfId p = Some source ->
  buffers w !! src_data source = Some (Live bytes) ->
  pdflibParse lib bytes = Some doc ->
  doc !! pageIndex p = Some sp ->
  (forall (pgs : list PDFPageData) j q,
      pgs !! j = Some q ->
      rotateSelected sel pgs !! j =
      Some (if bool_decide (page_id q ∈ sel)
            then withRotation (Z.rem (rotation q + 90) 360) q else q)) /\
  (forall r : Z,
      exists out w',
        exportPage lib sources (withRotation r p) w = (Ok (Some out), w') /\
        pdf_rotation (out_page out) = (pdf_rotation sp + r)%Z) /\
  rotateSelected sel (rotateSelected sel (rotateSelected sel pages)) !! i =
    Some (withRotation 270 p) /\
  exists out w',
    exportPage lib sources (withRotation 270 p) w = (Ok (Some out), w') /\
    pdf_rotation (out_page out) = (pdf_rotation sp + 270)%Z /\
    (pdf_rotation (out_page out) mod 360 = (pdf_rotation sp + 270) mod 360)%Z.
Proof.
  intros Hl Hsel Hr Hs Hb Hd Hp.
  assert (Hexp : forall r : Z,
      exists out w',
        exportPage lib sources (withRotation r p) w = (Ok (Some out), w') /\
        pdf_rotation (out_page out) = (pdf_rotation sp + r)%Z).
  { intros r.
    pose proof (exportPage_run lib sources (withRotation r p) source w bytes
                  doc sp Hs Hb Hd Hp) as E. simpl in E.
    destruct (page_annotations p);
      [|destruct (getContext lib (originalWidth p) (originalHeight p))];
      eexists _, _; (split; [exact E|reflexivity]). }
  split; [exact (rotateSelected_lookup sel)|].
  split; [exact Hexp|].
  split; [exact (rotateSelected_thrice sel pages i p Hl Hsel Hr)|].
  destruct (Hexp 270%Z) as (out & w' & E & R).
  exists out, w'. split; [exact E|]. split; [exact R|]. rewrite R. reflexivity.
Qed.

Lemma C7_rotation_witness :
  rotateSelected {[ "p2"%string ]}
    (rotateSelected {[ "p2"%string ]}
       (rotateSelected {[ "p2"%string ]}
          [demoFirst; demoSecond]))
    !! 1%nat = Some (withRotation 270 demoSecond) /\
  exists out w',
    exportPage demoLibs demoSources (withRotation 270 demoSecond) demoWorld
      = (Ok (Some out), w') /\
    pdf_rotation (out_page out) = (90 + 270)%Z /\
    (pdf_rotation (out_page out) mod 360 = (90 + 270) mod 360)%Z.
Proof.
  destruct (C7_rotate_quarter_turns_and_export_sum demoLibs {[ "p2"%string ]}
              [demoFirst; demoSecond]
              1 demoSecond demoSources demoSource demoWorld [] demoDoc
              (mkPdfPage (sourceBody 1) 90 595 842)
              eq_refl ltac:(apply elem_of_singleton; reflexivity) eq_refl
              (lookup_singleton_eq _ _) eq_refl eq_refl eq_refl)
    as (_ & _ & H3 & Hx).
  split; [exact H3 | exact Hx].
Defined.

(* --------------------------------------------------------------------- *)
(** ** Buffers handed to the PDF libraries                                 *)
(* --------------------------------------------------------------------- *)

Lemma insert_last (B : list Buffer) b b' :
  <[ length B := b' ]> (B ++ [b]) = B ++ [b'].
Proof.
  replace (length B) with (length B + 0)%nat by lia.
  rewrite insert_app_r. reflexivity.
Qed.

Lemma slice0_run w r bytes :
  buffers w !! r = Some (Live bytes) ->
  slice0 r w =
  (Ok (length (buffers w)),
   mkWorld (buffers w ++ [Live bytes]) (calls w) (uuidsDrawn w)).
Proof.
  intros H. unfold slice0, bind, readBuffer, alloc. rewrite H. reflexivity.
Qed.

(** [getDocument] on the buffer allocated last. *)
Lemma getDocument_last lib B bytes c u :
  getDocument lib (length B) (mkWorld (B ++ [Live bytes]) c u) =
  (match pdfjsParse lib bytes with
   | Some d => Ok d
   | None => Throw "Invalid PDF structure"
   end,
   mkWorld (B ++ [Detached]) (c ++ [mkCall pdfjs_getDocument (length B)]) u).
Proof.
  unfold getDocument, bind, logCall, readBuffer, detach, orThrow. simpl.
  rewrite list_lookup_middle by reflexivity. simpl. rewrite insert_last.
  destruct (pdfjsParse lib bytes); reflexivity.
Qed.




Lemma embedJpg_run lib r w bytes :
  buffers w !! r = Some (Live bytes) ->
  embedJpg lib r w =
  (match decodeJpg lib bytes with
   | Some d => Ok d
   | None => Throw "SOI not found in JPEG"
   end,
   mkWorld (buffers w) (calls w ++ [mkCall pdflib_embedJpg r]) (uuidsDrawn w)).
Proof.
  intros H. unfold embedJpg, bind, logCall, readBuffer, orThrow. simpl.
  rewrite H. destruct (decodeJpg lib bytes); reflexivity.
Qed.

Lemma embedPng_run lib r w bytes :
  buffers w !! r = Some (Live bytes) ->
  embedPng lib r w =
  (match decodePng lib bytes with
   | Some d => Ok d
   | None => Throw "Not a PNG"
   end,
   mkWorld (buffers w) (calls w ++ [mkCall pdflib_embedPng r]) (uuidsDrawn w)).
Proof.
  intros H. unfold embedPng, bind, logCall, readBuffer, orThrow. simpl.
  rewrite H. destruct (decodePng lib bytes); reflexivity.
Qed.



Lemma extends_refl w : extends w w.
Proof. split; exists []; rewrite app_nil_r; reflexivity. Qed.

Lemma extends_trans w1 w2 w3 : extends w1 w2 -> extends w2 w3 -> extends w1 w3.
Proof.
  intros [(b1 & B1) (c1 & C1)] [(b2 & B2) (c2 & C2)]. split.
  - exists (b1 ++ b2). rewrite B2, B1, app_assoc. reflexivity.
  - exists (c1 ++ c2). rewrite C2, C1, app_assoc. reflexivity.
Qed.

Lemma extends_live w w' r bytes :
  extends w w' -> buffers w !! r = Some (Live bytes) ->
  buffers w' !! r = Some (Live bytes).
Proof. intros [(bs & ->) _] H. apply lookup_app_l_Some. exact H. Qed.

(** The loop body of the export starts by handing the stored buffer of
    the page's source to [PDFDocument.load], and only ever adds buffers. *)
Lemma exportPage_world lib (sources : gmap string SourcePDF) pageData w :
  extends w (snd (exportPage lib sources pageData w)) /\
  forall source,
    sources !! sourcePdfId pageData = Some source ->
    exists cs, callsSince w (snd (exportPage lib sources pageData w)) =
               mkCall pdflib_load (src_data source) :: cs.
Proof.
  unfold exportPage.
  destruct (sources !! sourcePdfId pageData) as [source|].
  2:{ split; [apply extends_refl|discriminate]. }
  unfold bind at 1. unfold PDFDocument_load, bind, logCall, readBuffer, orThrow.
  simpl.
  assert (Hd : forall cs, drop (length (calls w))
                 ((calls w ++ [mkCall pdflib_load (src_data source)]) ++ cs) =
               mkCall pdflib_load (src_data source) :: cs).
  { intros cs. rewrite <- app_assoc, drop_app_length. reflexivity. }
  assert (He : forall bs cs,
             extends w (mkWorld (buffers w ++ bs)
                          ((calls w ++ [mkCall pdflib_load (src_data source)]) ++ cs)
                          (uuidsDrawn w))).
  { intros bs cs. split; simpl; [eauto|]. rewrite <- app_assoc. eauto. }
  destruct (buffers w !! src_data source) as [[bytes|]|]; simpl.
  - destruct (pdflibParse lib bytes) as [doc|]; simpl.
    + destruct (doc !! pageIndex pageData) as [sp|]; simpl.
      * destruct (0 <? length (page_annotations pageData))%nat; simpl.
        -- unfold flattenOnto.
           destruct (getContext lib (originalWidth pageData)
                                (originalHeight pageData)); simpl.
           ++ split; [apply He|]. intros s [= <-]. unfold callsSince. simpl.
              rewrite Hd. eauto.
           ++ split.
              ** specialize (He [] []). rewrite !app_nil_r in He. exact He.
              ** intros s [= <-]. unfold callsSince. simpl.
                 specialize (Hd []). rewrite app_nil_r in Hd. rewrite Hd. eauto.
        -- split.
           ** specialize (He [] []). rewrite !app_nil_r in He. exact He.
           ** intros s [= <-]. unfold callsSince. simpl.
              specialize (Hd []). rewrite app_nil_r in Hd. rewrite Hd. eauto.
      * split.
        -- specialize (He [] []). rewrite !app_nil_r in He. exact He.
        -- intros s [= <-]. unfold callsSince. simpl.
           specialize (Hd []). rewrite app_nil_r in Hd. rewrite Hd. eauto.
    + split.
      * specialize (He [] []). rewrite !app_nil_r in He. exact He.
      * intros s [= <-]. unfold callsSince. simpl.
        specialize (Hd []). rewrite app_nil_r in Hd. rewrite Hd. eauto.
  - split.
    + specialize (He [] []). rewrite !app_nil_r in He. exact He.
    + intros s [= <-]. unfold callsSince. simpl.
      specialize (Hd []). rewrite app_nil_r in Hd. rewrite Hd. eauto.
  - split.
    + specialize (He [] []). rewrite !app_nil_r in He. exact He.
    + intros s [= <-]. unfold callsSince. simpl.
      specialize (Hd []). rewrite app_nil_r in Hd. rewrite Hd. eauto.
Qed.

Lemma generateFinalPDF_run lib (sources : gmap string SourcePDF) pages w :
  generateFinalPDF lib pages sources w =
  match mergedPages lib pages sources w with
  | (Ok doc, w1) => (Ok (save doc), w1)
  | (Throw msg, w1) => (Throw msg, w1)
  end.
Proof. reflexivity. Qed.

Lemma generateFinalPDF_world lib (sources : gmap string SourcePDF) pages w :
  snd (generateFinalPDF lib pages sources w) =
  snd (mergedPages lib pages sources w).
Proof.
  rewrite generateFinalPDF_run.
  destruct (mergedPages lib pages sources w) as [[doc|msg] w1]; reflexivity.
Qed.

Lemma mergedPages_extends lib (sources : gmap string SourcePDF) pages :
  forall w, extends w (snd (mergedPages lib pages sources w)).
Proof.
  unfold mergedPages.
  induction pages as [|p pages IH]; intros w; simpl.
  - apply extends_refl.
  - unfold bind at 1.
    pose proof (proj1 (exportPage_world lib sources p w)) as E.
    destruct (exportPage lib sources p w) as [[o|msg] w1]; simpl in *;
      [|exact E].
    unfold bind at 1. specialize (IH w1).
    destruct (forEach (exportPage lib sources) pages w1) as [[os|msg] w2];
      simpl in *; eapply extends_trans; eauto.
Qed.

Lemma generateFinalPDF_extends lib (sources : gmap string SourcePDF) pages :
  forall w, extends w (snd (generateFinalPDF lib pages sources w)).
Proof.
  intros w. rewrite generateFinalPDF_world. apply mergedPages_extends.
Qed.




(* ===================================================================== *)
(** * Further properties of the page collection                            *)
(* ===================================================================== *)

(** X1. Clicking a page tile twice leaves the selection as it was; one
    click flips the membership of that page and of no other. *)
Theorem X1_toggleSelectPage_involution (id : string) (sel : gset string) :
  toggleSelectPage id (toggleSelectPage id sel) = sel /\
  (id ∈ toggleSelectPage id sel <-> id ∉ sel) /\
  (forall j, j <> id -> (j ∈ toggleSelectPage id sel <-> j ∈ sel)).
Proof.
  unfold toggleSelectPage.
  destruct (bool_decide (id ∈ sel)) eqn:E.
  - apply bool_decide_eq_true_1 in E.
    assert (Hn : id ∉ sel ∖ {[ id ]})
      by (rewrite elem_of_difference, elem_of_singleton; tauto).
    rewrite bool_decide_eq_false_2 by exact Hn.
    split; [|split].
    + apply set_eq. intros x.
      rewrite elem_of_union, elem_of_difference, elem_of_singleton.
      destruct (decide (x = id)) as [->|]; tauto.
    + tauto.
    + intros j Hj. rewrite elem_of_difference, elem_of_singleton. tauto.
  - apply bool_decide_eq_false_1 in E.
    assert (Hi : id ∈ sel ∪ {[ id ]})
      by (rewrite elem_of_union, elem_of_singleton; tauto).
    rewrite bool_decide_eq_true_2 by exact Hi.
    split; [|split].
    + apply set_eq. intros x.
      rewrite elem_of_difference, elem_of_union, elem_of_singleton.
      destruct (decide (x = id)) as [->|]; tauto.
    + tauto.
    + intros j Hj. rewrite elem_of_union, elem_of_singleton. tauto.
Qed.

Lemma X1_toggleSelectPage_witness :
  "p1"%string ∈ toggleSelectPage "p2" (app_selectedPageIds demoApp) <->
  "p1"%string ∈ app_selectedPageIds demoApp.
Proof.
  apply (proj2 (proj2 (X1_toggleSelectPage_involution
                         "p2" (app_selectedPageIds demoApp)))).
  discriminate.
Defined.


Lemma withRotation_same p : withRotation (rotation p) p = p.
Proof. destruct p; reflexivity. Qed.

Lemma withRotation_twice r r' p :
  withRotation r (withRotation r' p) = withRotation r p.
Proof. reflexivity. Qed.

Lemma rotate_step_quarter r :
  quarterTurn r -> quarterTurn (Z.rem (r + 90) 360).
Proof.
  unfold quarterTurn.
  intros [-> | [-> | [-> | ->]]]; vm_compute; auto.
Qed.

Lemma rotate_four_steps r :
  quarterTurn r ->
  Z.rem (Z.rem (Z.rem (Z.rem (r + 90) 360 + 90) 360 + 90) 360 + 90) 360 = r.
Proof. intros [-> | [-> | [-> | ->]]]; reflexivity. Qed.

(** X2. A rotate action turns every selected page by a quarter and
    leaves every other page as it is: the page at each place of the
    collection is the page that was there, with 90 added to its rotation
    modulo 360 if its id is selected, and unchanged if it is not.  So no
    field but the rotation changes, the stored rotation stays among 0,
    90, 180 and 270, and four rotate actions with the same selection
    bring every page back to where it was. *)
Theorem X2_rotateSelected_quarter_turns
    (sel : gset string) (pages : list PDFPageData) :
  Forall (fun p => quarterTurn (rotation p)) pages ->
  (forall i p, pages !! i = Some p -> page_id p ∉ sel ->
     rotateSelected sel pages !! i = Some p) /\
  (forall i p, pages !! i = Some p -> page_id p ∈ sel ->
     rotateSelected sel pages !! i =
       Some (withRotation (Z.rem (rotation p + 90) 360) p) /\
     (rotation p = 0 /\ Z.rem (rotation p + 90) 360 = 90 \/
      rotation p = 90 /\ Z.rem (rotation p + 90) 360 = 180 \/
      rotation p = 180 /\ Z.rem (rotation p + 90) 360 = 270 \/
      rotation p = 270 /\ Z.rem (rotation p + 90) 360 = 0)%Z) /\
  length (rotateSelected sel pages) = length pages /\
  Forall (fun p => quarterTurn (rotation p)) (rotateSelected sel pages) /\
  rotateSelected sel
    (rotateSelected sel (rotateSelected sel (rotateSelected sel pages)))
    = pages /\
  map (withRotation 0) (rotateSelected sel pages) = map (withRotation 0) pages.
Proof.
  intros H. split; [|split; [|split; [|split; [|split]]]].
  - intros i p Hl Hn. rewrite (rotateSelected_lookup sel pages i p Hl).
    rewrite bool_decide_eq_false_2 by exact Hn. reflexivity.
  - intros i p Hl Hs. rewrite (rotateSelected_lookup sel pages i p Hl).
    rewrite bool_decide_eq_true_2 by exact Hs. split; [reflexivity|].
    assert (Hq : quarterTurn (rotation p))
      by (eapply Forall_lookup_1 in H; [exact H|exact Hl]).
    destruct Hq as [-> | [-> | [-> | ->]]]; vm_compute; tauto.
  - unfold rotateSelected. apply length_map.
  - unfold rotateSelected. apply Forall_fmap.
    eapply Forall_impl; [exact H|]. intros p Hp. simpl.
    destruct (bool_decide (page_id p ∈ sel)); simpl; [|exact Hp].
    apply rotate_step_quarter. exact Hp.
  - unfold rotateSelected. rewrite !map_map.
    rewrite <- (map_id pages) at 2. apply map_ext_in. intros p Hp.
    rewrite Forall_forall in H.
    assert (Hq : quarterTurn (rotation p)).
    { apply H. apply list_elem_of_In. exact Hp. }
    destruct (bool_decide (page_id p ∈ sel)) eqn:E; simpl;
      rewrite ?E; simpl; rewrite ?E; simpl; rewrite ?E; [|reflexivity].
    simpl. rewrite !withRotation_twice.
    rewrite rotate_four_steps by exact Hq. apply withRotation_same.
  - unfold rotateSelected. rewrite map_map. apply map_ext. intros p.
    destruct (bool_decide (page_id p ∈ sel)); reflexivity.
Qed.

Lemma demoPages_quarterTurn :
  Forall (fun p => quarterTurn (rotation p)) [demoFirst; demoSecond].
Proof. repeat constructor. Qed.

Lemma X2_rotateSelected_witness :
  rotateSelected {[ "p2"%string ]} [demoFirst; demoSecond] !! 0%nat =
    Some demoFirst /\
  rotateSelected {[ "p2"%string ]} [demoFirst; demoSecond] !! 1%nat =
    Some (withRotation 90 demoSecond) /\
  rotateSelected {[ "p2"%string ]}
    (rotateSelected {[ "p2"%string ]}
       (rotateSelected {[ "p2"%string ]}
          (rotateSelected {[ "p2"%string ]} [demoFirst; demoSecond])))
  = [demoFirst; demoSecond].
Proof.
  destruct (X2_rotateSelected_quarter_turns {[ "p2"%string ]}
              [demoFirst; demoSecond] demoPages_quarterTurn)
    as (Hkeep & Hturn & _ & _ & Hfour & _).
  split; [|split; [|exact Hfour]].
  - apply (Hkeep 0%nat demoFirst); [reflexivity|].
    intros Hin. apply elem_of_singleton in Hin. discriminate.
  - apply (Hturn 1%nat demoSecond); [reflexivity|].
    apply elem_of_singleton. reflexivity.
Defined.

Lemma spliceIn_lookup {A} (k : nat) (x : A) (l : list A) :
  (k <= length l)%nat -> spliceIn k x l !! k = Some x.
Proof.
  intros Hk. unfold spliceIn. apply list_lookup_middle.
  rewrite length_take. lia.
Qed.

Lemma spliceIn_delete {A} (k : nat) (x : A) (l : list A) :
  (k <= length l)%nat -> delete k (spliceIn k x l) = l.
Proof.
  intros Hk. unfold spliceIn.
  replace k with (length (take k l)) at 1 by (rewrite length_take; lia).
  rewrite delete_middle. apply take_drop.
Qed.

Lemma spliceIn_Permutation {A} (k : nat) (x : A) (l : list A) :
  spliceIn k x l ≡ₚ x :: l.
Proof.
  unfold spliceIn. rewrite <- Permutation_middle, take_drop. reflexivity.
Qed.

Lemma spliceIn_back {A} (d : nat) (x : A) (l : list A) :
  l !! d = Some x -> spliceIn d x (delete d l) = l.
Proof.
  intros H. pose proof (lookup_lt_Some _ _ _ H) as Hd.
  unfold spliceIn. rewrite delete_take_drop.
  rewrite take_app_length' by (rewrite length_take; lia).
  rewrite drop_app_length' by (rewrite length_take; lia).
  apply take_drop_middle. exact H.
Qed.

(** X3. A drop moves the dragged page to the tile it was dropped on and
    disturbs nothing else: the page list is a rearrangement of the old
    one, the dragged page is at the drop index, the other pages keep
    their order, and the drag is over.  Dragging the page back from there
    to where it came from restores the list.  A page dropped on itself
    changes nothing. *)
Theorem X3_handlePageDrop_moves_one_page
    (st : AppState) (dragged dropIndex : nat) (x : PDFPageData) :
  app_draggedPageIndex st = Some dragged ->
  app_pages st !! dragged = Some x ->
  (dropIndex < length (app_pages st))%nat ->
  dragged <> dropIndex ->
  handlePageDrop dragged st = intact st /\
  exists st',
    handlePageDrop dropIndex st = intact st' /\
    app_pages st' !! dropIndex = Some x /\
    delete dropIndex (app_pages st') = delete dragged (app_pages st) /\
    app_pages st' ≡ₚ app_pages st /\
    app_draggedPageIndex st' = None /\
    exists st'',
      handlePageDrop dragged (handlePageDragStart dropIndex st') =
        intact st'' /\
      app_pages st'' = app_pages st.
Proof.
  intros Hd Hx Hk Hne.
  pose proof (lookup_lt_Some _ _ _ Hx) as Hlt.
  assert (Hlen : (dropIndex <= length (delete dragged (app_pages st)))%nat).
  { rewrite length_delete by eauto. lia. }
  split.
  { unfold handlePageDrop. rewrite Hd, Nat.eqb_refl. reflexivity. }
  unfold handlePageDrop at 1. rewrite Hd.
  destruct (Nat.eqb_spec dragged dropIndex) as [|_]; [contradiction|].
  rewrite Hx. eexists. split; [reflexivity|]. simpl.
  split; [apply spliceIn_lookup; exact Hlen|].
  split; [apply spliceIn_delete; exact Hlen|].
  split.
  { rewrite spliceIn_Permutation. symmetry. apply delete_Permutation.
    exact Hx. }
  split; [reflexivity|].
  unfold handlePageDrop, handlePageDragStart. simpl.
  destruct (Nat.eqb_spec dropIndex dragged) as [E|_];
    [symmetry in E; contradiction|].
  rewrite spliceIn_lookup by exact Hlen.
  eexists. split; [reflexivity|]. simpl.
  rewrite spliceIn_delete by exact Hlen. apply spliceIn_back. exact Hx.
Qed.

Lemma X3_handlePageDrop_witness :
  exists st',
    handlePageDrop 0 (handlePageDragStart 1 demoApp) = intact st' /\
    app_pages st' !! 0%nat = Some demoSecond /\
    delete 0%nat (app_pages st') = [demoFirst] /\
    app_pages st' ≡ₚ [demoFirst; demoSecond] /\
    app_draggedPageIndex st' = None /\
    exists st'',
      handlePageDrop 1 (handlePageDragStart 0 st') = intact st'' /\
      app_pages st'' = [demoFirst; demoSecond].
Proof.
  refine (proj2 (X3_handlePageDrop_moves_one_page
                   (handlePageDragStart 1 demoApp) 1 0 demoSecond
                   eq_refl eq_refl _ _)).
  - simpl. lia.
  - discriminate.
Defined.

Lemma filter_sublist {A} (f : A -> bool) (l : list A) :
  sublist (List.filter f l) l.
Proof.
  induction l as [|a l IH]; simpl; [constructor|].
  destruct (f a); constructor; exact IH.
Qed.

(** X4. Deleting the selected pages, once confirmed, removes exactly the
    pages whose id is selected, keeps the others in their order, and
    empties the selection; the source registry is not touched.  Declined,
    or with nothing selected, it changes nothing. *)
Theorem X4_deleteSelected_removes_selected_only
    (confirmed : bool) (st : AppState) :
  let st' := deleteSelected confirmed st in
  (confirmed = true -> app_selectedPageIds st <> ∅ ->
   (forall p, p ∈ app_pages st' <->
              p ∈ app_pages st /\ page_id p ∉ app_selectedPageIds st) /\
   sublist (app_pages st') (app_pages st) /\
   app_selectedPageIds st' = ∅) /\
  (confirmed = false \/ app_selectedPageIds st = ∅ -> st' = st) /\
  app_sources st' = app_sources st.
Proof.
  intros st'. subst st'. unfold deleteSelected.
  destruct (Nat.eqb_spec (size (app_selectedPageIds st)) 0) as [E|E].
  - apply size_empty_iff in E. apply leibniz_equiv in E.
    split; [intros _ Hne; contradiction|]. split; reflexivity.
  - assert (Hne : app_selectedPageIds st <> ∅).
    { intros H. apply E. rewrite H. apply size_empty. }
    destruct confirmed; simpl.
    + split; [|split; [intros [H|H]; [discriminate|contradiction]|reflexivity]].
      intros _ _. split; [|split; [apply filter_sublist|reflexivity]].
      intros p. rewrite !list_elem_of_In, filter_In.
      rewrite Bool.negb_true_iff, bool_decide_eq_false. reflexivity.
    + split; [intros H; discriminate|]. split; reflexivity.
Qed.

Lemma X4_deleteSelected_witness :
  (forall p, p ∈ app_pages (deleteSelected true demoApp) <->
             p ∈ [demoFirst; demoSecond] /\ page_id p ∉ ({[ "p2"%string ]} : gset string)) /\
  sublist (app_pages (deleteSelected true demoApp)) [demoFirst; demoSecond] /\
  app_selectedPageIds (deleteSelected true demoApp) = ∅.
Proof.
  refine (proj1 (X4_deleteSelected_removes_selected_only true demoApp)
                eq_refl _).
  intros H. apply (f_equal (fun s : gset string => bool_decide ("p2"%string ∈ s))) in H.
  simpl in H. rewrite bool_decide_eq_true_2 in H
    by (apply elem_of_singleton; reflexivity).
  rewrite bool_decide_eq_false_2 in H by apply not_elem_of_empty.
  discriminate.
Defined.

(* ===================================================================== *)
(** * Further properties of ingestion                                      *)
(* ===================================================================== *)

Lemma describePages_run lib sid ps :
  forall i w,
    describePages lib sid i ps w =
    (Ok (described lib sid i (uuidsDrawn w) ps),
     mkWorld (buffers w) (calls w) (uuidsDrawn w + length ps)).
Proof.
  induction ps as [|p ps IH]; intros i w; simpl.
  - unfold ret. destruct w; simpl. rewrite Nat.add_0_r. reflexivity.
  - unfold bind at 1. unfold describePage, bind, randomUUID, ret. simpl.
    rewrite IH. simpl. do 3 f_equal. lia.
Qed.

Lemma described_length lib sid i k ps :
  length (described lib sid i k ps) = length ps.
Proof.
  revert i k. induction ps as [|p ps IH]; intros i k; simpl; [reflexivity|].
  rewrite IH. reflexivity.
Qed.

Lemma described_lookup lib sid ps :
  forall i k j p,
    described lib sid i k ps !! j = Some p ->
    exists sp, ps !! j = Some sp /\
      p = mkPage (uuid lib (k + j)) sid (i + j) 0
                 (rasterize lib sp (5 / 10) None)
                 (fst (viewport lib sp (5 / 10) None) * 2)
                 (snd (viewport lib sp (5 / 10) None) * 2) [].
Proof.
  induction ps as [|q ps IH]; intros i k j p; simpl; [discriminate|].
  destruct j as [|j]; simpl.
  - intros [= <-]. exists q. rewrite !Nat.add_0_r. split; reflexivity.
  - intros H. destruct (IH _ _ _ _ H) as (sp & Hsp & ->).
    exists sp. split; [exact Hsp|].
    replace (S k + j)%nat with (k + S j)%nat by lia.
    replace (S i + j)%nat with (i + S j)%nat by lia. reflexivity.
Qed.

(** The part of [loadPDF] from [slice(0)] on, evaluated. *)
Lemma load_from_copy_run lib name r w bytes :
  buffers w !! r = Some (Live bytes) ->
  (copy <- slice0 r ;;
   pdf <- getDocument lib copy ;;
   sourceId <- randomUUID lib ;;
   pages <- describePages lib sourceId 0 pdf ;;
   ret (mkSource sourceId name r, pages)) w =
  match pdfjsParse lib bytes with
  | Some pdf =>
      (Ok (mkSource (uuid lib (uuidsDrawn w)) name r,
           described lib (uuid lib (uuidsDrawn w)) 0 (S (uuidsDrawn w)) pdf),
       mkWorld (buffers w ++ [Detached])
               (calls w ++ [mkCall pdfjs_getDocument (length (buffers w))])
               (S (uuidsDrawn w) + length pdf))
  | None =>
      (Throw "Invalid PDF structure",
       mkWorld (buffers w ++ [Detached])
               (calls w ++ [mkCall pdfjs_getDocument (length (buffers w))])
               (uuidsDrawn w))
  end.
Proof.
  intros Hb. unfold bind at 1. rewrite (slice0_run w r bytes Hb).
  unfold bind at 1. rewrite getDocument_last.
  destruct (pdfjsParse lib bytes) as [pdf|]; [|reflexivity].
  unfold bind at 1. unfold randomUUID at 1. simpl.
  unfold bind at 1. rewrite describePages_run. reflexivity.
Qed.

(** The image branch, evaluated. *)
Lemma imageToPdf_run lib f w :
  let r := length (buffers w) in
  let w0 := mkWorld (buffers w ++ [Live (file_bytes f)]) (calls w)
                    (uuidsDrawn w) in
  imageToPdf lib f r w0 =
  match embedded lib f with
  | Some d =>
      (Ok (S r),
       mkWorld (buffers w ++ [Live (file_bytes f); Live (picturePdf lib f d)])
               (calls w ++ embedCalls lib f r) (uuidsDrawn w))
  | None =>
      (Throw unsupportedImage,
       mkWorld (buffers w ++ [Live (file_bytes f)])
               (calls w ++ embedCalls lib f r) (uuidsDrawn w))
  end.
Proof.
  intros r w0.
  assert (H0 : forall c, buffers (mkWorld (buffers w0) c (uuidsDrawn w)) !! r
                         = Some (Live (file_bytes f))).
  { intros c. simpl. apply list_lookup_middle. reflexivity. }
  assert (Hlen : length (buffers w ++ [Live (file_bytes f)]) = S r)
    by (rewrite length_app; simpl; unfold r; lia).
  unfold imageToPdf, catch, embedded, embedCalls, picturePdf.
  unfold bind at 1. destruct (isJpeg f).
  - rewrite (embedJpg_run lib r w0 _ (H0 (calls w))).
    destruct (decodeJpg lib (file_bytes f)) as [d|]; [|reflexivity].
    unfold bind, readBuffer, alloc. simpl.
    rewrite list_lookup_middle by reflexivity. simpl.
    rewrite Hlen, <- app_assoc. reflexivity.
  - unfold catch. rewrite (embedPng_run lib r w0 _ (H0 (calls w))).
    destruct (decodePng lib (file_bytes f)) as [d|].
    + unfold bind, readBuffer, alloc. simpl.
      rewrite list_lookup_middle by reflexivity. simpl.
      rewrite Hlen, <- app_assoc. reflexivity.
    + rewrite (embedJpg_run lib r _ _ (H0 _)). simpl.
      destruct (decodeJpg lib (file_bytes f)) as [d|].
      * unfold bind, readBuffer, alloc. simpl.
        rewrite list_lookup_middle by reflexivity. simpl.
        rewrite Hlen, <- !app_assoc. reflexivity.
      * rewrite <- app_assoc. reflexivity.
Qed.

(** [loadPDF], evaluated. *)
Lemma loadPDF_run lib f w :
  let r := length (buffers w) in
  let k := uuidsDrawn w in
  loadPDF lib f w =
  if converts f
  then
    match embedded lib f with
    | None =>
        (Throw unsupportedImage,
         mkWorld (buffers w ++ [Live (file_bytes f)])
                 (calls w ++ embedCalls lib f r) k)
    | Some d =>
        let stored := buffers w ++ [Live (file_bytes f);
                                    Live (picturePdf lib f d)] in
        let cs := calls w ++ embedCalls lib f r
                  ++ [mkCall pdfjs_getDocument (S (S r))] in
        match pdfjsParse lib (picturePdf lib f d) with
        | Some doc =>
            (Ok (mkSource (uuid lib k) (file_name f ++ ".pdf") (S r),
                 described lib (uuid lib k) 0 (S k) doc),
             mkWorld (stored ++ [Detached]) cs (S k + length doc))
        | None =>
            (Throw "Invalid PDF structure",
             mkWorld (stored ++ [Detached]) cs k)
        end
    end
  else
    let stored := buffers w ++ [Live (file_bytes f)] in
    let cs := calls w ++ [mkCall pdfjs_getDocument (S r)] in
    match pdfjsParse lib (file_bytes f) with
    | Some doc =>
        (Ok (mkSource (uuid lib k) (file_name f) r,
             described lib (uuid lib k) 0 (S k) doc),
         mkWorld (stored ++ [Detached]) cs (S k + length doc))
    | None =>
        (Throw "Invalid PDF structure", mkWorld (stored ++ [Detached]) cs k)
    end.
Proof.
  intros r k. unfold loadPDF, converts.
  unfold bind at 1. unfold alloc at 1.
  unfold bind at 1.
  destruct (isImageFile f && negb (String.eqb (file_type f) "application/pdf")).
  - unfold bind at 1.
    pose proof (imageToPdf_run lib f w) as Hi. cbv zeta in Hi. rewrite Hi.
    fold r. destruct (embedded lib f) as [d|]; [|reflexivity].
    unfold ret at 1. cbv beta iota zeta. cbn [fst snd].
    rewrite (load_from_copy_run lib _ (S r) _ (picturePdf lib f d)).
    + simpl.
      replace (length (buffers w ++ [Live (file_bytes f);
                                    Live (picturePdf lib f d)]))
        with (S (S r)) by (rewrite length_app; simpl; unfold r; lia).
      rewrite <- !app_assoc.
      destruct (pdfjsParse lib (picturePdf lib f d)); reflexivity.
    + simpl.
      replace (buffers w ++ [Live (file_bytes f); Live (picturePdf lib f d)])
        with ((buffers w ++ [Live (file_bytes f)])
              ++ [Live (picturePdf lib f d)])
        by (rewrite <- app_assoc; reflexivity).
      apply list_lookup_middle. rewrite length_app. simpl. unfold r. lia.
  - unfold ret at 1. cbv beta iota zeta. cbn [fst snd].
    rewrite (load_from_copy_run lib _ r _ (file_bytes f)).
    + simpl.
      replace (length (buffers w ++ [Live (file_bytes f)])) with (S r)
        by (rewrite length_app; simpl; unfold r; lia).
      destruct (pdfjsParse lib (file_bytes f)); reflexivity.
    + simpl. apply list_lookup_middle. reflexivity.
Qed.

Lemma loadPDF_pages_of_described lib sid k doc :
  forall i p, described lib sid 0 k doc !! i = Some p ->
    exists sp, doc !! i = Some sp /\
      pageIndex p = i /\ sourcePdfId p = sid /\
      rotation p = 0%Z /\ page_annotations p = [] /\
      thumbnailUrl p = rasterize lib sp (5 / 10) None /\
      originalWidth p = fst (viewport lib sp (5 / 10) None) * 2 /\
      originalHeight p = snd (viewport lib sp (5 / 10) None) * 2.
Proof.
  intros i p H. destruct (described_lookup lib sid doc 0 k i p H) as (sp & Hsp & ->).
  exists sp. simpl. repeat split. exact Hsp.
Qed.

(** X5. What a successful load returns: the stored buffer of the source
    holds bytes that decode to a document, and there is one descriptor
    per page of that document, in page order; descriptor [i] has page
    index [i], names the returned source, is unrotated and unannotated,
    and carries the thumbnail and twice the size of the page's viewport
    at scale 0.5. *)
Theorem X5_loadPDF_descriptors
    (lib : Libs) (f : File) (w : World) (source : SourcePDF)
    (pages : list PDFPageData) (w' : World) :
  loadPDF lib f w = (Ok (source, pages), w') ->
  exists stored doc,
    buffers w' !! src_data source = Some (Live stored) /\
    pdfjsParse lib stored = Some doc /\
    length pages = length doc /\
    forall i p, pages !! i = Some p ->
      exists sp, doc !! i = Some sp /\
        pageIndex p = i /\ sourcePdfId p = src_id source /\
        rotation p = 0%Z /\ page_annotations p = [] /\
        thumbnailUrl p = rasterize lib sp (5 / 10) None /\
        originalWidth p = fst (viewport lib sp (5 / 10) None) * 2 /\
        originalHeight p = snd (viewport lib sp (5 / 10) None) * 2.
Proof.
  rewrite loadPDF_run. cbv zeta.
  destruct (converts f).
  - destruct (embedded lib f) as [d|]; [|discriminate].
    destruct (pdfjsParse lib (picturePdf lib f d)) as [doc|] eqn:Ed;
      [|discriminate].
    intros [= <- <- <-]. exists (picturePdf lib f d), doc. simpl.
    split.
    { apply lookup_app_l_Some.
      replace (buffers w ++ [Live (file_bytes f); Live (picturePdf lib f d)])
        with ((buffers w ++ [Live (file_bytes f)])
              ++ [Live (picturePdf lib f d)])
        by (rewrite <- app_assoc; reflexivity).
      apply list_lookup_middle. rewrite length_app. simpl. lia. }
    split; [exact Ed|]. split; [apply described_length|].
    apply loadPDF_pages_of_described.
  - destruct (pdfjsParse lib (file_bytes f)) as [doc|] eqn:Ed; [|discriminate].
    intros [= <- <- <-]. exists (file_bytes f), doc. simpl.
    split.
    { apply lookup_app_l_Some. apply list_lookup_middle. reflexivity. }
    split; [exact Ed|]. split; [apply described_length|].
    apply loadPDF_pages_of_described.
Qed.

Lemma demo_load :
  loadPDF demoLibs demoFile demoWorld =
  (Ok (mkSource (uuid demoLibs 0) "two.pdf" 1%nat,
       described demoLibs (uuid demoLibs 0) 0 1 demoDoc),
   mkWorld [Live []; Live []; Detached] [mkCall pdfjs_getDocument 2%nat] 3).
Proof. rewrite loadPDF_run. reflexivity. Qed.

Lemma X5_loadPDF_witness :
  exists stored doc,
    [Live []; Live []; Detached] !! 1%nat = Some (Live stored) /\
    pdfjsParse demoLibs stored = Some doc /\
    length (described demoLibs (uuid demoLibs 0) 0 1 demoDoc) = length doc /\
    forall i p, described demoLibs (uuid demoLibs 0) 0 1 demoDoc !! i = Some p ->
      exists sp, doc !! i = Some sp /\
        pageIndex p = i /\ sourcePdfId p = uuid demoLibs 0 /\
        rotation p = 0%Z /\ page_annotations p = [] /\
        thumbnailUrl p = rasterize demoLibs sp (5 / 10) None /\
        originalWidth p = fst (viewport demoLibs sp (5 / 10) None) * 2 /\
        originalHeight p = snd (viewport demoLibs sp (5 / 10) None) * 2.
Proof.
  exact (X5_loadPDF_descriptors demoLibs demoFile demoWorld _ _ _ demo_load).
Defined.

Lemma described_ids lib sid ps :
  forall i k, map page_id (described lib sid i k ps)
              = map (uuid lib) (seq k (length ps)).
Proof.
  induction ps as [|p ps IH]; intros i k; simpl; [reflexivity|].
  rewrite IH. reflexivity.
Qed.

(** X6. The ids a successful load hands out are the next unused UUIDs,
    the source's first and then one per page; so with UUIDs that do not
    repeat, the source and all its pages get pairwise different ids. *)
Theorem X6_loadPDF_ids_distinct
    (lib : Libs) (f : File) (w : World) (source : SourcePDF)
    (pages : list PDFPageData) (w' : World) :
  (forall m n, uuid lib m = uuid lib n -> m = n) ->
  loadPDF lib f w = (Ok (source, pages), w') ->
  src_id source :: map page_id pages
    = map (uuid lib) (seq (uuidsDrawn w) (S (length pages))) /\
  uuidsDrawn w' = (uuidsDrawn w + S (length pages))%nat /\
  NoDup (src_id source :: map page_id pages).
Proof.
  intros Hinj Hrun.
  assert (E : src_id source :: map page_id pages
              = map (uuid lib) (seq (uuidsDrawn w) (S (length pages))) /\
              uuidsDrawn w' = (uuidsDrawn w + S (length pages))%nat).
  { revert Hrun. rewrite loadPDF_run. cbv zeta.
    destruct (converts f).
    - destruct (embedded lib f) as [d|]; [|discriminate].
      destruct (pdfjsParse lib (picturePdf lib f d)) as [doc|];
        [|discriminate].
      intros [= <- <- <-]. simpl.
      rewrite described_ids, described_length. split; [reflexivity|lia].
    - destruct (pdfjsParse lib (file_bytes f)) as [doc|]; [|discriminate].
      intros [= <- <- <-]. simpl.
      rewrite described_ids, described_length. split; [reflexivity|lia]. }
  destruct E as [E1 E2]. split; [exact E1|]. split; [exact E2|].
  rewrite E1. apply NoDup_fmap_2; [|apply NoDup_seq].
  intros m n. apply Hinj.
Qed.

Lemma tallyUuid_length n : String.length (tallyUuid n) = n.
Proof.
  unfold tallyUuid. induction n as [|n IH]; simpl; [reflexivity|].
  rewrite IH. reflexivity.
Qed.

Lemma tallyUuid_inj m n : tallyUuid m = tallyUuid n -> m = n.
Proof.
  intros H. apply (f_equal String.length) in H.
  rewrite !tallyUuid_length in H. exact H.
Qed.

Lemma tally_load :
  loadPDF tallyLibs demoFile demoWorld =
  (Ok (mkSource (tallyUuid 0) "two.pdf" 1%nat,
       described tallyLibs (tallyUuid 0) 0 1 demoDoc),
   mkWorld [Live []; Live []; Detached] [mkCall pdfjs_getDocument 2%nat] 3).
Proof. rewrite loadPDF_run. reflexivity. Qed.

Lemma X6_loadPDF_ids_witness :
  NoDup (tallyUuid 0
         :: map page_id (described tallyLibs (tallyUuid 0) 0 1 demoDoc)).
Proof.
  exact (proj2 (proj2 (X6_loadPDF_ids_distinct tallyLibs demoFile demoWorld
                         _ _ _ tallyUuid_inj tally_load))).
Defined.

(** X7. A picture that cannot be embedded is refused: when the bytes are
    no JPEG and the file either says it is a JPEG or is no PNG either,
    [loadPDF] throws the unsupported-format error.  Only the file's own
    buffer was handed to the embedder, nothing went to the PDF reader, and
    no UUID was drawn.  (A file that says it is a JPEG is never tried as
    PNG.) *)
Theorem X7_loadPDF_refuses_unembeddable_image
    (lib : Libs) (f : File) (w : World) :
  converts f = true ->
  decodeJpg lib (file_bytes f) = None ->
  isJpeg f = true \/ decodePng lib (file_bytes f) = None ->
  exists w',
    loadPDF lib f w = (Throw unsupportedImage, w') /\
    buffers w' = buffers w ++ [Live (file_bytes f)] /\
    Forall (fun c => callee c <> pdfjs_getDocument /\
                     handed c = length (buffers w)) (callsSince w w') /\
    uuidsDrawn w' = uuidsDrawn w.
Proof.
  intros Hc Hj Hp. rewrite loadPDF_run. cbv zeta. rewrite Hc.
  assert (He : embedded lib f = None).
  { unfold embedded. destruct (isJpeg f); [exact Hj|].
    destruct Hp as [Hp|Hp]; [discriminate|]. rewrite Hp. exact Hj. }
  rewrite He. eexists. split; [reflexivity|]. simpl.
  split; [reflexivity|]. split; [|reflexivity].
  unfold callsSince. simpl. rewrite drop_app_length.
  unfold embedCalls. destruct (isJpeg f).
  - repeat constructor. discriminate.
  - destruct (decodePng lib (file_bytes f));
      repeat (constructor; try (split; [discriminate|reflexivity])).
Qed.

Lemma X7_loadPDF_refusal_witness :
  exists w',
    loadPDF demoLibs mislabelled demoWorld = (Throw unsupportedImage, w') /\
    buffers w' = buffers demoWorld ++ [Live []] /\
    Forall (fun c => callee c <> pdfjs_getDocument /\ handed c = 1%nat)
           (callsSince demoWorld w') /\
    uuidsDrawn w' = 0%nat.
Proof.
  exact (X7_loadPDF_refuses_unembeddable_image demoLibs mislabelled demoWorld
           eq_refl eq_refl (or_intror eq_refl)).
Defined.

(** X8. The PNG-to-JPEG fallback: a picture that does not say it is a
    JPEG, does not decode as PNG but does decode as JPEG is ingested all
    the same.  The source is the one-page document made from it, kept in
    a buffer of its own under the file's name with [.pdf] appended; the
    file's buffer was handed to the PNG embedder and then to the JPEG
    embedder, and a copy of the new document to the PDF reader. *)
Theorem X8_loadPDF_png_falls_back_to_jpeg
    (lib : Libs) (f : File) (w : World) (d : R * R) (doc : list PdfPage) :
  converts f = true -> isJpeg f = false ->
  decodePng lib (file_bytes f) = None ->
  decodeJpg lib (file_bytes f) = Some d ->
  pdfjsParse lib (picturePdf lib f d) = Some doc ->
  exists source pages w',
    loadPDF lib f w = (Ok (source, pages), w') /\
    src_name source = (file_name f ++ ".pdf")%string /\
    src_data source = S (length (buffers w)) /\
    buffers w' !! src_data source = Some (Live (picturePdf lib f d)) /\
    buffers w' !! length (buffers w) = Some (Live (file_bytes f)) /\
    callsSince w w' =
      [mkCall pdflib_embedPng (length (buffers w));
       mkCall pdflib_embedJpg (length (buffers w));
       mkCall pdfjs_getDocument (S (S (length (buffers w))))] /\
    length pages = length doc.
Proof.
  intros Hc Hj Hp Hd Hdoc. rewrite loadPDF_run. cbv zeta. rewrite Hc.
  assert (He : embedded lib f = Some d).
  { unfold embedded. rewrite Hj, Hp. exact Hd. }
  rewrite He, Hdoc. eexists _, _, _. split; [reflexivity|]. simpl.
  split; [reflexivity|]. split; [reflexivity|].
  assert (Hs : forall (B : list Buffer) a b c,
             (B ++ [a; b] ++ [c]) !! S (length B) = Some b /\
             (B ++ [a; b] ++ [c]) !! length B = Some a).
  { intros B a b c. split.
    - change (B ++ [a; b] ++ [c]) with (B ++ ([a] ++ b :: [c])).
      rewrite app_assoc. apply list_lookup_middle.
      rewrite length_app. simpl. lia.
    - apply list_lookup_middle. reflexivity. }
  rewrite <- app_assoc.
  split; [apply Hs|]. split; [apply Hs|].
  split; [|apply described_length].
  unfold callsSince. simpl. rewrite drop_app_length.
  unfold embedCalls. rewrite Hj, Hp. reflexivity.
Qed.

Lemma X8_loadPDF_fallback_witness :
  exists source pages w',
    loadPDF jpegLibs mislabelled demoWorld = (Ok (source, pages), w') /\
    src_name source = "photo.png.pdf"%string /\
    src_data source = 2%nat /\
    buffers w' !! src_data source
      = Some (Live (picturePdf jpegLibs mislabelled (640, 480))) /\
    buffers w' !! 1%nat = Some (Live []) /\
    callsSince demoWorld w' =
      [mkCall pdflib_embedPng 1%nat; mkCall pdflib_embedJpg 1%nat;
       mkCall pdfjs_getDocument 3%nat] /\
    length pages = 1%nat.
Proof.
  exact (X8_loadPDF_png_falls_back_to_jpeg jpegLibs mislabelled demoWorld
           (640, 480) [mkPdfPage (sourceBody 0) 0 640 480]
           eq_refl eq_refl eq_refl eq_refl eq_refl).
Defined.

(* ===================================================================== *)
(** * Further properties of the export                                     *)
(* ===================================================================== *)

Lemma bind_ret_eta {A} (m : M A) w : (x <- m ;; ret x) w = m w.
Proof. unfold bind, ret. destruct (m w) as [[a|msg] w1]; reflexivity. Qed.

Lemma mergedPages_registered lib (sources : gmap string SourcePDF) pages w :
  mergedPages lib pages sources w =
  mergedPages lib (List.filter (registered sources) pages) sources w.
Proof.
  unfold mergedPages. revert w.
  induction pages as [|p pages IH]; intros w; simpl; [reflexivity|].
  unfold registered at 1.
  destruct (sources !! sourcePdfId p) as [source|] eqn:Es.
  - rewrite bool_decide_eq_true_2 by eauto. simpl.
    unfold bind at 1 3.
    destruct (exportPage lib sources p w) as [[o|msg] w1]; [|reflexivity].
    unfold bind. rewrite IH. reflexivity.
  - rewrite bool_decide_eq_false_2 by (intros [x Hx]; discriminate).
    unfold bind at 1. unfold exportPage at 1. rewrite Es. unfold ret at 1.
    rewrite bind_ret_eta. apply IH.
Qed.

(** X9. A page whose source is not in the registry leaves no trace in an
    export: the document and the world are what the export of the other
    pages alone gives. *)
Theorem X9_export_passes_over_unregistered
    (lib : Libs) (sources : gmap string SourcePDF)
    (pages : list PDFPageData) (w : World) :
  generateFinalPDF lib pages sources w =
  generateFinalPDF lib (List.filter (registered sources) pages) sources w.
Proof.
  rewrite !generateFinalPDF_run, mergedPages_registered. reflexivity.
Qed.

Lemma exportPage_exportable lib (sources : gmap string SourcePDF) p w :
  exportable lib sources w p ->
  exists out w1,
    exportPage lib sources p w = (Ok (Some out), w1) /\
    exportedAs lib sources w p out /\ extends w w1.
Proof.
  intros (source & bytes & doc & sp & Hs & Hb & Hd & Hp).
  pose proof (exportPage_run lib sources p source w bytes doc sp Hs Hb Hd Hp)
    as E. cbv zeta in E.
  assert (Hx : forall out, out = mkOutPage
                 (mkPdfPage (pdf_body sp) (pdf_rotation sp + rotation p)
                            (pdf_width sp) (pdf_height sp))
                 (layersFor lib p sp) ->
               exportedAs lib sources w p out).
  { intros out ->. exists source, bytes, doc, sp. repeat split; assumption. }
  pose proof (proj1 (exportPage_world lib sources p w)) as He.
  unfold layersFor in Hx.
  destruct (page_annotations p) as [|a l];
    [|destruct (getContext lib (originalWidth p) (originalHeight p))];
    rewrite E in He; simpl in He;
    eexists _, _; (split; [exact E|]); (split; [apply Hx; reflexivity|]);
    exact He.
Qed.

Lemma backed_extends parse (sources : gmap string SourcePDF) w w1 p :
  extends w w1 -> backed parse sources w p -> backed parse sources w1 p.
Proof.
  intros He (source & bytes & doc & sp & Hs & Hb & Hd & Hp).
  exists source, bytes, doc, sp. repeat split; try assumption.
  eapply extends_live; eassumption.
Qed.

Lemma exportable_extends lib (sources : gmap string SourcePDF) w w1 p :
  extends w w1 -> exportable lib sources w p -> exportable lib sources w1 p.
Proof. apply backed_extends. Qed.

Lemma exportedAs_back lib (sources : gmap string SourcePDF) w w1 p out :
  extends w w1 -> exportable lib sources w p ->
  exportedAs lib sources w1 p out -> exportedAs lib sources w p out.
Proof.
  intros He (source & bytes & doc & sp & Hs & Hb & Hd & Hp)
         (source' & bytes' & doc' & sp' & Hs' & Hb' & Hd' & Hp' & ->).
  assert (source' = source) by congruence. subst source'.
  pose proof (extends_live _ _ _ _ He Hb) as Hb1.
  pose proof (eq_trans (eq_sym Hb') Hb1) as Hbb. injection Hbb as Hbb.
  subst bytes'.
  assert (doc' = doc) by congruence. subst doc'.
  assert (sp' = sp) by congruence. subst sp'.
  exists source, bytes, doc, sp. repeat split; assumption.
Qed.

Lemma mergedPages_exportable lib (sources : gmap string SourcePDF) pages :
  forall w,
  Forall (exportable lib sources w) pages ->
  exists outs w',
    mergedPages lib pages sources w = (Ok outs, w') /\
    Forall2 (exportedAs lib sources w) pages outs /\
    extends w w'.
Proof.
  unfold mergedPages.
  induction pages as [|p pages IH]; intros w Hall; simpl.
  - exists [], w. split; [reflexivity|]. split; [constructor|apply extends_refl].
  - apply Forall_cons in Hall. destruct Hall as [Hp Hall].
    destruct (exportPage_exportable lib sources p w Hp)
      as (out & w1 & E & Hout & He).
    assert (Hall1 : Forall (exportable lib sources w1) pages).
    { eapply Forall_impl; [exact Hall|]. intros q.
      apply exportable_extends. exact He. }
    destruct (IH w1 Hall1) as (outs & w' & E' & Houts & He').
    exists (out :: outs), w'. unfold bind at 1. rewrite E.
    unfold bind at 1. rewrite E'. split; [reflexivity|].
    split; [|eapply extends_trans; eassumption].
    constructor; [exact Hout|].
    clear - Houts Hall He.
    induction Houts as [|q o qs os Hq Hqs IHq]; [constructor|].
    apply Forall_cons in Hall. destruct Hall as [Hq0 Hall].
    constructor; [|apply IHq; exact Hall].
    eapply exportedAs_back; eassumption.
Qed.

(** X10. When every page can be exported, the export succeeds and the
    document written is [save] of one page per page of the collection,
    in the order of the collection: the page copied from the source, with
    the stored rotation added to its own, under the flattened annotations
    if there are any.  For a collection that has a page, these pages are
    the document; for the empty collection the document is the one blank
    page [save] puts into a document without pages. *)
Theorem X10_export_page_for_page
    (lib : Libs) (sources : gmap string SourcePDF)
    (pages : list PDFPageData) (w : World) :
  Forall (exportable lib sources w) pages ->
  exists outs w',
    generateFinalPDF lib pages sources w = (Ok (save outs), w') /\
    Forall2 (exportedAs lib sources w) pages outs /\
    extends w w' /\
    (pages <> [] -> save outs = outs) /\
    (pages = [] -> save outs = [blankPage]).
Proof.
  intros Hall.
  destruct (mergedPages_exportable lib sources pages w Hall)
    as (outs & w' & E & Houts & He).
  exists outs, w'. rewrite generateFinalPDF_run, E.
  split; [reflexivity|]. split; [exact Houts|]. split; [exact He|].
  split.
  - intros Hne. destruct Houts; [contradiction|reflexivity].
  - intros ->. inversion Houts. reflexivity.
Qed.

Lemma demo_exportable : exportable demoLibs demoSources demoWorld demoSecond.
Proof.
  exists demoSource, [], demoDoc, (mkPdfPage (sourceBody 1) 90 595 842).
  repeat split.
Qed.

Lemma demo_exportable_first :
  exportable demoLibs demoSources demoWorld demoFirst.
Proof.
  exists demoSource, [], demoDoc, (mkPdfPage (sourceBody 0) 0 595 842).
  repeat split.
Qed.

Lemma X10_export_witness :
  exists outs w',
    generateFinalPDF demoLibs [demoSecond; demoFirst] demoSources demoWorld
      = (Ok (save outs), w') /\
    Forall2 (exportedAs demoLibs demoSources demoWorld)
            [demoSecond; demoFirst] outs /\
    extends demoWorld w' /\
    ([demoSecond; demoFirst] <> [] -> save outs = outs) /\
    ([demoSecond; demoFirst] = [] -> save outs = [blankPage]).
Proof.
  apply X10_export_page_for_page.
  repeat constructor; [exact demo_exportable | exact demo_exportable_first].
Defined.

Lemma exportPage_ok_inv lib (sources : gmap string SourcePDF) p w o w1 :
  exportPage lib sources p w = (Ok o, w1) ->
  (sources !! sourcePdfId p = None /\ o = None) \/
  (exportable lib sources w p /\ is_Some o).
Proof.
  unfold exportPage.
  destruct (sources !! sourcePdfId p) as [source|] eqn:Es.
  2:{ intros [= <- <-]. left. split; reflexivity. }
  unfold bind at 1. unfold PDFDocument_load, bind, logCall, readBuffer, orThrow.
  simpl.
  destruct (buffers w !! src_data source) as [[bytes|]|] eqn:Eb; simpl;
    try discriminate.
  destruct (pdflibParse lib bytes) as [doc|] eqn:Ed; simpl; try discriminate.
  destruct (doc !! pageIndex p) as [sp|] eqn:Ep; simpl; try discriminate.
  intros H. right. split.
  - exists source, bytes, doc, sp. repeat split; assumption.
  - destruct (0 <? length (page_annotations p))%nat; simpl in H.
    + unfold flattenOnto in H.
      destruct (getContext lib (originalWidth p) (originalHeight p));
        simpl in H; injection H as <- _; eauto.
    + injection H as <- _. eauto.
Qed.

Lemma mergedPages_ok_inv lib (sources : gmap string SourcePDF) pages :
  forall w outs w',
  mergedPages lib pages sources w = (Ok outs, w') ->
  (forall p, p ∈ pages -> registered sources p = true ->
             exportable lib sources w' p) /\
  length outs = length (List.filter (registered sources) pages).
Proof.
  induction pages as [|p pages IH]; intros w outs w'; unfold mergedPages;
    simpl.
  - intros [= <- <-]. split; [intros p Hp; inversion Hp|reflexivity].
  - unfold bind at 1.
    destruct (exportPage lib sources p w) as [[o|msg] w1] eqn:E;
      [|discriminate].
    unfold bind at 1.
    destruct (forEach (exportPage lib sources) pages w1) as [[os|msg] w2]
      eqn:E'; [|discriminate].
    unfold ret. intros [= <- <-].
    destruct (IH w1 os w2 E') as [IH1 IH2].
    pose proof (proj1 (exportPage_world lib sources p w)) as He.
    rewrite E in He. simpl in He.
    pose proof (mergedPages_extends lib sources pages w1) as He'.
    unfold mergedPages in He'. rewrite E' in He'. simpl in He'.
    destruct (exportPage_ok_inv lib sources p w o w1 E)
      as [[Hn ->] | [Hx [out ->]]].
    + split.
      * intros q Hq Hr. apply elem_of_cons in Hq. destruct Hq as [->|Hq].
        -- unfold registered in Hr. rewrite Hn in Hr.
           apply bool_decide_eq_true_1 in Hr. destruct Hr as [x Hx].
           discriminate.
        -- apply IH1; assumption.
      * unfold registered at 1. rewrite Hn.
        rewrite bool_decide_eq_false_2 by (intros [x Hx]; discriminate).
        exact IH2.
    + split.
      * intros q Hq Hr. apply elem_of_cons in Hq. destruct Hq as [->|Hq].
        -- eapply exportable_extends; [|exact Hx].
           eapply extends_trans; eassumption.
        -- apply IH1; assumption.
      * destruct Hx as (source & bytes & doc & sp & Hs & _).
        unfold registered at 1. rewrite Hs.
        rewrite bool_decide_eq_true_2 by eauto. simpl. rewrite IH2.
        reflexivity.
Qed.

(** X11. An export that succeeds has parsed the source of every page
    whose source is registered and has found the page in it; so a page
    whose source does not parse, or does not have the page, fails the
    whole export.  The document written has one page for each of these
    pages, and when there is none of them (no page of the collection has
    a registered source) it is not empty: it holds the one blank A4 page
    [save] adds. *)
Theorem X11_export_succeeds_only_if_all_sources_parse
    (lib : Libs) (sources : gmap string SourcePDF)
    (pages : list PDFPageData) (w : World) (doc : list OutPage) (w' : World) :
  generateFinalPDF lib pages sources w = (Ok doc, w') ->
  (forall p, p ∈ pages -> registered sources p = true ->
             exportable lib sources w' p) /\
  length doc = Nat.max 1 (length (List.filter (registered sources) pages)) /\
  (List.filter (registered sources) pages = [] -> doc = [blankPage]).
Proof.
  rewrite generateFinalPDF_run.
  destruct (mergedPages lib pages sources w) as [[outs|msg] w1] eqn:E;
    [|discriminate].
  intros [= <- <-].
  destruct (mergedPages_ok_inv lib sources pages w outs w1 E) as [H1 H2].
  split; [exact H1|]. split.
  - rewrite <- H2. destruct outs; simpl; lia.
  - intros Hnone. rewrite Hnone in H2. destruct outs; [reflexivity|].
    discriminate.
Qed.

Lemma demo_export_two :
  generateFinalPDF demoLibs [demoOrphan; demoSecond] demoSources demoWorld =
  (Ok [mkOutPage (mkPdfPage (sourceBody 1) (90 + 0) 595 842) []],
   mkWorld [Live []] [mkCall pdflib_load 0%nat] 0).
Proof. reflexivity. Qed.

Lemma demo_export_orphan :
  generateFinalPDF demoLibs [demoOrphan] demoSources demoWorld =
  (Ok [blankPage], demoWorld).
Proof. reflexivity. Qed.

Lemma X11_export_witness :
  ((forall p, p ∈ [demoOrphan; demoSecond] ->
              registered demoSources p = true ->
              exportable demoLibs demoSources
                (mkWorld [Live []] [mkCall pdflib_load 0%nat] 0) p) /\
   length [mkOutPage (mkPdfPage (sourceBody 1) (90 + 0) 595 842) []] =
   Nat.max 1
     (length (List.filter (registered demoSources) [demoOrphan; demoSecond])))
  /\
  length [blankPage] =
  Nat.max 1 (length (List.filter (registered demoSources) [demoOrphan])).
Proof.
  split.
  - destruct (X11_export_succeeds_only_if_all_sources_parse
                demoLibs demoSources [demoOrphan; demoSecond] demoWorld _ _
                demo_export_two) as (H1 & H2 & _).
    split; [exact H1|exact H2].
  - exact (proj1 (proj2 (X11_export_succeeds_only_if_all_sources_parse
                           demoLibs demoSources [demoOrphan] demoWorld _ _
                           demo_export_orphan))).
Defined.

(* ===================================================================== *)
(** * The page collection stays exportable                                 *)
(* ===================================================================== *)

Lemma loadPDF_shape lib f w :
  extends w (snd (loadPDF lib f w)) /\
  (uuidsDrawn w <= uuidsDrawn (snd (loadPDF lib f w)))%nat.
Proof.
  rewrite loadPDF_run. cbv zeta.
  destruct (converts f).
  - destruct (embedded lib f) as [d|]; simpl.
    + destruct (pdfjsParse lib (picturePdf lib f d)); simpl;
        (split; [split; simpl; rewrite <- ?app_assoc; eauto | lia]).
    + split; [split; simpl; eauto | lia].
  - destruct (pdfjsParse lib (file_bytes f)); simpl;
      (split; [split; simpl; rewrite <- ?app_assoc; eauto | lia]).
Qed.

Lemma loadPDF_ok_inv lib f w source pages w' :
  loadPDF lib f w = (Ok (source, pages), w') ->
  exists stored doc,
    buffers w' !! src_data source = Some (Live stored) /\
    pdfjsParse lib stored = Some doc /\
    pages = described lib (src_id source) 0 (S (uuidsDrawn w)) doc /\
    src_id source = uuid lib (uuidsDrawn w) /\
    uuidsDrawn w' = (S (uuidsDrawn w) + length doc)%nat.
Proof.
  rewrite loadPDF_run. cbv zeta.
  destruct (converts f).
  - destruct (embedded lib f) as [d|]; [|discriminate].
    destruct (pdfjsParse lib (picturePdf lib f d)) as [doc|] eqn:Ed;
      [|discriminate].
    intros [= <- <- <-]. exists (picturePdf lib f d), doc. simpl.
    split; [|repeat split; assumption].
    apply lookup_app_l_Some.
    replace (buffers w ++ [Live (file_bytes f); Live (picturePdf lib f d)])
      with ((buffers w ++ [Live (file_bytes f)])
            ++ [Live (picturePdf lib f d)])
      by (rewrite <- app_assoc; reflexivity).
    apply list_lookup_middle. rewrite length_app. simpl. lia.
  - destruct (pdfjsParse lib (file_bytes f)) as [doc|] eqn:Ed; [|discriminate].
    intros [= <- <- <-]. exists (file_bytes f), doc. simpl.
    split; [|repeat split; assumption].
    apply lookup_app_l_Some. apply list_lookup_middle. reflexivity.
Qed.

Lemma backed_same_place parse (sources : gmap string SourcePDF) w p q :
  sourcePdfId q = sourcePdfId p -> pageIndex q = pageIndex p ->
  backed parse sources w p -> backed parse sources w q.
Proof.
  intros Hs Hi (source & bytes & doc & sp & H1 & H2 & H3 & H4).
  exists source, bytes, doc, sp. rewrite Hs, Hi. repeat split; assumption.
Qed.

(** PDF.js reads what it has read. *)
Lemma readsFile_pdfjs lib f : readsFile lib (pdfjsParse lib) f.
Proof.
  intros w source pages w' stored E Hb.
  destruct (loadPDF_ok_inv lib f w source pages w' E)
    as (stored' & doc & Hb' & Hd & -> & _).
  pose proof (eq_trans (eq_sym Hb') Hb) as Hbb. injection Hbb as ->.
  exists doc. split; [exact Hd|]. rewrite described_length. lia.
Qed.

Lemma ingestFile_sound lib parse b f w :
  (forall i j, uuid lib i = uuid lib j -> i = j) ->
  unusedIds lib (newSources b) w ->
  (readsFile lib parse f ->
   Forall (backed parse (newSources b) w) (newPages b) ->
   Forall (backed parse (newSources (fst (ingestFile lib b f w)))
                  (snd (ingestFile lib b f w)))
          (newPages (fst (ingestFile lib b f w)))) /\
  unusedIds lib (newSources (fst (ingestFile lib b f w)))
            (snd (ingestFile lib b f w)) /\
  (exists added,
     newPages (fst (ingestFile lib b f w)) = newPages b ++ added /\
     Forall pristine added) /\
  extends w (snd (ingestFile lib b f w)).
Proof.
  intros Hinj Hfresh. unfold ingestFile.
  destruct (loadPDF_shape lib f w) as [He Hu].
  destruct (loadPDF lib f w) as [[[source pages]|msg] w1] eqn:E; simpl in *.
  - destruct (loadPDF_ok_inv lib f w source pages w1 E)
      as (stored & doc & Hb & Hd & -> & Hid & Hk).
    split; [|split; [|split]].
    + intros Hreads Hall. apply Forall_app. split.
      * eapply Forall_impl; [exact Hall|]. intros p Hp.
        apply (backed_extends _ _ _ _ _ He) in Hp.
        destruct Hp as (s0 & bytes & doc0 & sp & H1 & H2 & H3 & H4).
        exists s0, bytes, doc0, sp. repeat split; try assumption.
        rewrite lookup_insert_ne; [exact H1|].
        rewrite Hid. intros Heq.
        pose proof (Hfresh (uuidsDrawn w) (le_n _)) as Hn.
        rewrite Heq, H1 in Hn. discriminate.
      * apply Forall_lookup. intros i p Hp.
        destruct (loadPDF_pages_of_described _ _ _ _ _ _ Hp)
          as (sp & Hsp & Hi & Hs & _).
        destruct (Hreads w source _ w1 stored E Hb) as (doc' & Hd' & Hlen).
        rewrite described_length in Hlen.
        apply lookup_lt_Some in Hsp.
        destruct (lookup_lt_is_Some_2 doc' i ltac:(lia)) as [sp' Hsp'].
        exists source, stored, doc', sp'. rewrite Hs, Hi.
        repeat split; try assumption. apply lookup_insert_eq.
    + intros k Hk'. rewrite lookup_insert_ne; [apply Hfresh; lia|].
      rewrite Hid. intros Heq. apply Hinj in Heq. lia.
    + eexists. split; [reflexivity|].
      apply Forall_lookup. intros i p Hp.
      destruct (loadPDF_pages_of_described _ _ _ _ _ _ Hp)
        as (sp & _ & _ & _ & Hr & Ha & _).
      split; assumption.
    + exact He.
  - split; [|split; [|split]].
    + intros _ Hall. eapply Forall_impl; [exact Hall|]. intros p.
      apply backed_extends. exact He.
    + intros k Hk'. apply Hfresh. lia.
    + exists []. rewrite app_nil_r. split; [reflexivity|constructor].
    + exact He.
Qed.

Lemma ingestFiles_sound lib parse files :
  (forall i j, uuid lib i = uuid lib j -> i = j) ->
  forall b w,
  unusedIds lib (newSources b) w ->
  (Forall (readsFile lib parse) files ->
   Forall (backed parse (newSources b) w) (newPages b) ->
   Forall (backed parse (newSources (fst (ingestFiles lib b files w)))
                  (snd (ingestFiles lib b files w)))
          (newPages (fst (ingestFiles lib b files w)))) /\
  unusedIds lib (newSources (fst (ingestFiles lib b files w)))
            (snd (ingestFiles lib b files w)) /\
  (exists added,
     newPages (fst (ingestFiles lib b files w)) = newPages b ++ added /\
     Forall pristine added) /\
  extends w (snd (ingestFiles lib b files w)).
Proof.
  intros Hinj. unfold ingestFiles.
  induction files as [|f files IH]; intros b w Hfresh; simpl.
  - split; [intros _ Hall; exact Hall|]. split; [exact Hfresh|].
    split; [|apply extends_refl].
    exists []. rewrite app_nil_r. split; [reflexivity|constructor].
  - destruct (ingestFile_sound lib parse b f w Hinj Hfresh)
      as (H1 & H2 & (added & Ha & Hp) & He).
    destruct (ingestFile lib b f w) as [b1 w1]; simpl in *.
    destruct (IH b1 w1 H2) as (H1' & H2' & (added' & Ha' & Hp') & He').
    split; [|split; [exact H2'|]].
    + intros Hreads Hall. apply Forall_cons in Hreads.
      destruct Hreads as [Hf Hfs]. apply H1'; [exact Hfs|].
      apply H1; assumption.
    + split; [|eapply extends_trans; eassumption].
      exists (added ++ added'). rewrite Ha', Ha, app_assoc.
      split; [reflexivity|]. apply Forall_app. split; assumption.
Qed.

Lemma renderHighResPage_run lib pageData source w bytes :
  buffers w !! src_data source = Some (Live bytes) ->
  renderHighResPage lib pageData source w =
  (match pdfjsParse lib bytes with
   | Some pdf =>
       match pdf !! pageIndex pageData with
       | Some p => Ok (rasterize lib p (15 / 10) (Some (rotation pageData)))
       | None => Throw "Invalid page request"
       end
   | None => Throw "Invalid PDF structure"
   end,
   mkWorld (buffers w ++ [Detached])
           (calls w ++ [mkCall pdfjs_getDocument (length (buffers w))])
           (uuidsDrawn w)).
Proof.
  intros Hb. unfold renderHighResPage.
  unfold bind at 1. rewrite (slice0_run w _ bytes Hb).
  unfold bind at 1. rewrite getDocument_last.
  destruct (pdfjsParse lib bytes) as [pdf|]; simpl; [|reflexivity].
  unfold bind, orThrow.
  destruct (pdf !! pageIndex pageData); simpl; reflexivity.
Qed.

Lemma renderHighResPage_shape lib pageData source w :
  extends w (snd (renderHighResPage lib pageData source w)) /\
  uuidsDrawn (snd (renderHighResPage lib pageData source w)) = uuidsDrawn w.
Proof.
  destruct (buffers w !! src_data source) as [[bytes|]|] eqn:Eb.
  - rewrite (renderHighResPage_run _ _ _ _ _ Eb). simpl.
    split; [split; simpl; eauto | reflexivity].
  - unfold renderHighResPage, bind, slice0, bind, readBuffer. rewrite Eb.
    simpl. split; [apply extends_refl | reflexivity].
  - unfold renderHighResPage, bind, slice0, bind, readBuffer. rewrite Eb.
    simpl. split; [apply extends_refl | reflexivity].
Qed.

Lemma processFiles_sound lib parse files isPaste st w :
  (forall i j, uuid lib i = uuid lib j -> i = j) ->
  unusedIds lib (app_sources st) w ->
  app_isProcessing st = false ->
  let st' := fst (processFiles lib files isPaste st w) in
  let w' := snd (processFiles lib files isPaste st w) in
  (Forall (readsFile lib parse) files ->
   Forall (backed parse (app_sources st) w) (app_pages st) ->
   Forall (backed parse (app_sources st') w') (app_pages st')) /\
  unusedIds lib (app_sources st') w' /\
  (exists added, app_pages st' = app_pages st ++ added /\
                 Forall pristine added) /\
  app_selectedPageIds st' = app_selectedPageIds st /\
  app_isProcessing st' = false.
Proof.
  intros Hinj Hfresh Hflag. unfold processFiles.
  destruct files as [|f files]; cbv zeta.
  - simpl. split; [intros _ Hall; exact Hall|]. split; [exact Hfresh|].
    split; [|split; [reflexivity|exact Hflag]].
    exists []. rewrite app_nil_r. split; [reflexivity|constructor].
  - set (b0 := mkBatch (app_sources st) (app_pages st) None None).
    destruct (ingestFiles_sound lib parse (f :: files) Hinj b0 w Hfresh)
      as (H1 & H2 & Hadd & He).
    destruct (ingestFiles lib b0 (f :: files) w) as [b w1]; simpl in *.
    assert (Hdone :
      (Forall (readsFile lib parse) (f :: files) ->
       Forall (backed parse (app_sources st) w) (app_pages st) ->
       Forall (backed parse (newSources b) w1) (newPages b)) /\
      unusedIds lib (newSources b) w1 /\
      (exists added, newPages b = app_pages st ++ added /\
                     Forall pristine added) /\
      app_selectedPageIds st = app_selectedPageIds st /\ false = false)
      by (repeat split; assumption).
    destruct isPaste; [|exact Hdone].
    destruct (lastAddedPage b) as [p|]; [|exact Hdone].
    destruct (lastAddedSource b) as [source|]; [|exact Hdone].
    destruct (renderHighResPage_shape lib p source w1) as [He2 Hu2].
    destruct (renderHighResPage lib p source w1) as [[url|msg] w2];
      simpl in *.
    + split; [|split; [|split; [exact Hadd|split; reflexivity]]].
      * intros Hreads Hall. eapply Forall_impl; [exact (H1 Hreads Hall)|].
        intros q. apply backed_extends. exact He2.
      * intros k Hk. apply H2. lia.
    + split; [|split; [|split; [exact Hadd|split; reflexivity]]].
      * intros Hreads Hall. eapply Forall_impl; [exact (H1 Hreads Hall)|].
        intros q. apply backed_extends. exact He2.
      * intros k Hk. apply H2. lia.
Qed.

(** X12. What loading files keeps.  The load reads a file with PDF.js
    and the export reads the stored bytes again with pdf-lib, so there
    are two things to keep.  If every page can be opened by PDF.js before
    (source registered, buffer live, bytes parse, page present), the same
    holds after [processFiles], whatever the files are and whether or not
    any of them loads: a file that fails is passed over.  If every page
    can be exported before, the same holds after [processFiles] provided
    pdf-lib reads what the load stored of each of the files; for a file
    PDF.js opens and pdf-lib refuses there is no such guarantee (X16).
    In either case no identifier still to be drawn is in use afterwards,
    the pages there were stay where they were, the new ones follow them,
    unrotated and unannotated, the selection is untouched and the
    progress flag is down. *)
Theorem X12_processFiles_keeps_pages_exportable
    (lib : Libs) (files : list File) (isPaste : bool)
    (st : AppState) (w : World) :
  (forall i j, uuid lib i = uuid lib j -> i = j) ->
  unusedIds lib (app_sources st) w ->
  app_isProcessing st = false ->
  let st' := fst (processFiles lib files isPaste st w) in
  let w' := snd (processFiles lib files isPaste st w) in
  (Forall (openable lib (app_sources st) w) (app_pages st) ->
   Forall (openable lib (app_sources st') w') (app_pages st')) /\
  (Forall (readsFile lib (pdflibParse lib)) files ->
   Forall (exportable lib (app_sources st) w) (app_pages st) ->
   Forall (exportable lib (app_sources st') w') (app_pages st')) /\
  unusedIds lib (app_sources st') w' /\
  (exists added, app_pages st' = app_pages st ++ added /\
                 Forall pristine added) /\
  app_selectedPageIds st' = app_selectedPageIds st /\
  app_isProcessing st' = false.
Proof.
  intros Hinj Hfresh Hflag st' w'. subst st' w'.
  destruct (processFiles_sound lib (pdfjsParse lib) files isPaste st w
              Hinj Hfresh Hflag) as (Hopen & _).
  destruct (processFiles_sound lib (pdflibParse lib) files isPaste st w
              Hinj Hfresh Hflag) as (Hexp & Hrest).
  split; [|split; [exact Hexp|exact Hrest]].
  apply Hopen. apply Forall_forall. intros f _. apply readsFile_pdfjs.
Qed.

Lemma tally_readsFile f : readsFile tallyLibs (pdflibParse tallyLibs) f.
Proof.
  intros w source pages w' stored E Hb.
  destruct (readsFile_pdfjs tallyLibs f w source pages w' stored E Hb)
    as (doc & Hd & Hlen).
  exists doc. split; [exact Hd|exact Hlen].
Qed.

Lemma X12_processFiles_witness :
  let st' := fst (processFiles tallyLibs [mislabelled; demoFile] false
                               initialApp demoWorld) in
  let w' := snd (processFiles tallyLibs [mislabelled; demoFile] false
                              initialApp demoWorld) in
  Forall (openable tallyLibs (app_sources st') w') (app_pages st') /\
  Forall (exportable tallyLibs (app_sources st') w') (app_pages st') /\
  unusedIds tallyLibs (app_sources st') w' /\
  (exists added, app_pages st' = app_pages initialApp ++ added /\
                 Forall pristine added) /\
  app_selectedPageIds st' = app_selectedPageIds initialApp /\
  app_isProcessing st' = false.
Proof.
  destruct (X12_processFiles_keeps_pages_exportable
              tallyLibs [mislabelled; demoFile] false initialApp demoWorld
              tallyUuid_inj (fun k _ => eq_refl) eq_refl)
    as (Hopen & Hexp & Hrest).
  split; [apply Hopen; constructor|].
  split; [|exact Hrest].
  apply Hexp; [|constructor].
  repeat constructor; apply tally_readsFile.
Defined.

Lemma Forall_exportable_map lib (sources : gmap string SourcePDF) w
      (g : PDFPageData -> PDFPageData) pages :
  (forall p, sourcePdfId (g p) = sourcePdfId p) ->
  (forall p, pageIndex (g p) = pageIndex p) ->
  Forall (exportable lib sources w) pages ->
  Forall (exportable lib sources w) (map g pages).
Proof.
  intros Hs Hi Hall.
  induction Hall as [|p ps Hp Hps IH]; simpl; constructor; [|exact IH].
  eapply backed_same_place; [apply Hs|apply Hi|exact Hp].
Qed.

Lemma Forall_list_filter {A} (P : A -> Prop) (g : A -> bool) l :
  Forall P l -> Forall P (List.filter g l).
Proof.
  intros H. induction H as [|x l Hx Hl IH]; simpl; [constructor|].
  destruct (g x); [constructor; assumption|exact IH].
Qed.

Lemma spliceIn_elem {A} (k : nat) (x : A) (l : list A) : x ∈ spliceIn k x l.
Proof.
  unfold spliceIn. apply elem_of_app. right. apply elem_of_cons. left.
  reflexivity.
Qed.

Lemma deleteSelected_dragged confirmed st :
  app_draggedPageIndex (deleteSelected confirmed st) =
  app_draggedPageIndex st.
Proof.
  unfold deleteSelected.
  destruct (size (app_selectedPageIds st) =? 0)%nat; [reflexivity|].
  destruct confirmed; reflexivity.
Qed.

(** X13. The operations of the shell and the exportable collection.
    Turning pages, deleting the selected ones, saving annotations,
    opening the editor and exporting leave every page of the collection
    with a registered source whose buffer is live and parses, and which
    has the page.  A drop does so when it leaves a page list, and it
    leaves one whenever the index of the dragged page is in the list.
    When the index is beyond the list, the array the drop hands to
    [setPages] is the old pages with a slot that holds no page put in at
    the drop index.  That happens: the index of a drag that ended without
    a drop on a tile stays in the state, deleting pages does not clear
    it, and once no more pages are left than the index says, anything
    dropped on another tile puts the empty slot in. *)
Theorem X13_page_operations_keep_pages_exportable
    (lib : Libs) (st : AppState) (w : World) :
  Forall (exportable lib (app_sources st) w) (app_pages st) ->
  (forall sel,
     Forall (exportable lib (app_sources st) w)
            (rotateSelected sel (app_pages st))) /\
  (forall confirmed,
     Forall (exportable lib (app_sources (deleteSelected confirmed st)) w)
            (app_pages (deleteSelected confirmed st))) /\
  (forall dropIndex,
     match handlePageDrop dropIndex st with
     | intact st' =>
         Forall (exportable lib (app_sources st') w) (app_pages st')
     | holed newPages =>
         newPages = spliceIn dropIndex None (map Some (app_pages st)) /\
         None ∈ newPages /\
         exists dragged,
           app_draggedPageIndex st = Some dragged /\
           dragged <> dropIndex /\
           (length (app_pages st) <= dragged)%nat
     end) /\
  (forall dropIndex dragged,
     app_draggedPageIndex st = Some dragged ->
     (dragged < length (app_pages st))%nat ->
     exists st', handlePageDrop dropIndex st = intact st') /\
  (forall index confirmed dropIndex,
     let st1 := deleteSelected confirmed (handlePageDragStart index st) in
     (length (app_pages st1) <= index)%nat ->
     index <> dropIndex ->
     exists newPages,
       handlePageDrop dropIndex st1 = holed newPages /\
       None ∈ newPages) /\
  (forall anns,
     Forall (exportable lib (app_sources (onSave anns st)) w)
            (app_pages (onSave anns st))) /\
  (forall pg,
     Forall (exportable lib (app_sources (fst (openEditor lib pg st w)))
                        (snd (openEditor lib pg st w)))
            (app_pages (fst (openEditor lib pg st w)))) /\
  Forall (exportable lib (app_sources (fst (fst (exportPDF lib st w))))
                     (snd (fst (exportPDF lib st w))))
         (app_pages (fst (fst (exportPDF lib st w)))).
Proof.
  intros Hall.
  split; [|split; [|split; [|split; [|split; [|split; [|split]]]]]].
  - intros sel. unfold rotateSelected.
    apply Forall_exportable_map; [| |exact Hall];
      intros p; destruct (bool_decide (page_id p ∈ sel)); reflexivity.
  - intros confirmed. unfold deleteSelected.
    destruct (size (app_selectedPageIds st) =? 0)%nat; [exact Hall|].
    destruct confirmed; [|exact Hall]. simpl.
    apply Forall_list_filter. exact Hall.
  - intros dropIndex. unfold handlePageDrop.
    destruct (app_draggedPageIndex st) as [dragged|]; [|exact Hall].
    destruct (Nat.eqb_spec dragged dropIndex) as [|Hne]; [exact Hall|].
    destruct (app_pages st !! dragged) as [draggedPage|] eqn:Ed.
    + simpl.
      eapply Permutation_Forall; [symmetry; apply spliceIn_Permutation|].
      constructor.
      * eapply Forall_lookup_1; eassumption.
      * apply Forall_delete. exact Hall.
    + split; [reflexivity|]. split; [apply spliceIn_elem|].
      exists dragged. split; [reflexivity|]. split; [exact Hne|].
      apply lookup_ge_None. exact Ed.
  - intros dropIndex dragged Hd Hlt. unfold handlePageDrop. rewrite Hd.
    destruct (dragged =? dropIndex)%nat; [eauto|].
    destruct (lookup_lt_is_Some_2 (app_pages st) dragged Hlt) as [x Hx].
    rewrite Hx. eauto.
  - intros index confirmed dropIndex st1 Hlen Hne. subst st1.
    unfold handlePageDrop. rewrite deleteSelected_dragged. simpl.
    destruct (Nat.eqb_spec index dropIndex) as [|_]; [contradiction|].
    apply lookup_ge_None in Hlen. rewrite Hlen.
    eexists. split; [reflexivity|apply spliceIn_elem].
  - intros anns. unfold onSave.
    destruct (app_editorPage st) as [[pg url]|]; [|exact Hall]. simpl.
    unfold saveAnnotations.
    apply Forall_exportable_map; [| |exact Hall];
      intros p; destruct (String.eqb (page_id p) (page_id pg)); reflexivity.
  - intros pg. unfold openEditor.
    destruct (app_sources st !! sourcePdfId pg) as [source|]; [|exact Hall].
    pose proof (proj1 (renderHighResPage_shape lib pg source w)) as He.
    destruct (renderHighResPage lib pg source w) as [[url|msg] w1];
      simpl in *;
      (eapply Forall_impl; [exact Hall|]; intros q;
       apply exportable_extends; exact He).
  - unfold exportPDF.
    destruct (app_pages st) as [|p ps] eqn:Ep;
      [simpl; rewrite Ep; exact Hall|].
    pose proof (generateFinalPDF_extends lib (app_sources st) (p :: ps) w)
      as He.
    destruct (generateFinalPDF lib (p :: ps) (app_sources st) w)
      as [[doc|msg] w1]; simpl in *; rewrite Ep;
      (eapply Forall_impl; [exact Hall|]; intros q;
       apply exportable_extends; exact He).
Qed.

Lemma demoApp_exportable :
  Forall (exportable demoLibs (app_sources demoApp) demoWorld)
         (app_pages demoApp).
Proof.
  repeat constructor; [exact demo_exportable_first | exact demo_exportable].
Qed.

Lemma X13_page_operations_witness :
  Forall (exportable demoLibs (app_sources demoApp) demoWorld)
         (rotateSelected {[ "p2"%string ]} (app_pages demoApp)) /\
  Forall (exportable demoLibs (app_sources (deleteSelected true demoApp))
                     demoWorld)
         (app_pages (deleteSelected true demoApp)) /\
  exists newPages,
    handlePageDrop 0 (deleteSelected true (handlePageDragStart 1 demoApp)) =
      holed newPages /\
    None ∈ newPages.
Proof.
  pose proof (X13_page_operations_keep_pages_exportable
                demoLibs demoApp demoWorld demoApp_exportable)
    as (Hrot & Hdel & _ & _ & Hhole & _).
  split; [exact (Hrot {[ "p2"%string ]})|]. split; [exact (Hdel true)|].
  apply (Hhole 1%nat true 0%nat); [vm_compute; lia|discriminate].
Defined.

(** The array that drop leaves: no page, then the first page. *)
Lemma demo_drop_after_delete :
  handlePageDrop 0 (deleteSelected true (handlePageDragStart 1 demoApp)) =
  holed [None; Some demoFirst].
Proof. reflexivity. Qed.

(** X14. Pasting a file that loads opens the editor on the first page of
    that file: the page is the first descriptor the load returned, and the
    picture is the first page of the stored document rendered at scale
    1.5 with no turn.  The pages of the file are added after the ones
    there were, the source is registered, and the progress flag is
    down. *)
Theorem X14_paste_opens_first_page_of_the_file
    (lib : Libs) (f : File) (st : AppState) (w : World)
    (source : SourcePDF) (p : PDFPageData) (rest : list PDFPageData)
    (w1 : World) :
  loadPDF lib f w = (Ok (source, p :: rest), w1) ->
  exists stored doc sp,
    buffers w1 !! src_data source = Some (Live stored) /\
    pdfjsParse lib stored = Some doc /\
    doc !! 0%nat = Some sp /\
    app_editorPage (fst (processFiles lib [f] true st w)) =
      Some (p, rasterize lib sp (15 / 10) (Some 0%Z)) /\
    app_pages (fst (processFiles lib [f] true st w)) =
      app_pages st ++ p :: rest /\
    app_sources (fst (processFiles lib [f] true st w)) =
      <[ src_id source := source ]> (app_sources st) /\
    app_isProcessing (fst (processFiles lib [f] true st w)) = false.
Proof.
  intros E.
  destruct (loadPDF_ok_inv lib f w source (p :: rest) w1 E)
    as (stored & doc & Hb & Hd & Hpages & _ & _).
  destruct doc as [|sp doc]; [discriminate|].
  simpl in Hpages. injection Hpages as Hp Hrest.
  exists stored, (sp :: doc), sp.
  split; [exact Hb|]. split; [exact Hd|]. split; [reflexivity|].
  unfold processFiles, ingestFiles. simpl. unfold ingestFile. rewrite E.
  simpl.
  rewrite (renderHighResPage_run lib p source w1 stored Hb), Hd.
  rewrite Hp. simpl. repeat split.
Qed.

Lemma demo_load_pages :
  loadPDF demoLibs demoFile demoWorld =
  (Ok (mkSource (uuid demoLibs 0) "two.pdf" 1%nat,
       hd demoFirst demoLoaded :: tl demoLoaded),
   mkWorld [Live []; Live []; Detached] [mkCall pdfjs_getDocument 2%nat] 3).
Proof. exact demo_load. Qed.

Lemma X14_paste_witness :
  exists stored doc sp,
    [Live []; Live []; Detached] !! 1%nat = Some (Live stored) /\
    pdfjsParse demoLibs stored = Some doc /\
    doc !! 0%nat = Some sp /\
    app_editorPage (fst (processFiles demoLibs [demoFile] true initialApp
                                      demoWorld)) =
      Some (hd demoFirst demoLoaded,
            rasterize demoLibs sp (15 / 10) (Some 0%Z)) /\
    app_pages (fst (processFiles demoLibs [demoFile] true initialApp
                                 demoWorld)) =
      [] ++ hd demoFirst demoLoaded :: tl demoLoaded /\
    app_sources (fst (processFiles demoLibs [demoFile] true initialApp
                                   demoWorld)) =
      <[ uuid demoLibs 0 := mkSource (uuid demoLibs 0) "two.pdf" 1%nat ]> ∅ /\
    app_isProcessing (fst (processFiles demoLibs [demoFile] true initialApp
                                        demoWorld)) = false.
Proof.
  exact (X14_paste_opens_first_page_of_the_file
           demoLibs demoFile initialApp demoWorld _ _ _ _ demo_load_pages).
Defined.

(** X15. Opening the editor on a page.  The pages, the sources and the
    selection are never changed.  Without a registered source nothing
    opens, nothing is handed to a library and the progress flag is down.
    With a registered source whose buffer is live, the editor opens on
    the page with its picture rendered at scale 1.5 under the page's own
    rotation, and the flag is down, if the bytes parse and have the page;
    if they do not, the editor stays as it was and the progress flag is
    left up. *)
Theorem X15_openEditor_outcomes
    (lib : Libs) (pg : PDFPageData) (st : AppState) (w : World) :
  app_pages (fst (openEditor lib pg st w)) = app_pages st /\
  app_sources (fst (openEditor lib pg st w)) = app_sources st /\
  app_selectedPageIds (fst (openEditor lib pg st w)) =
    app_selectedPageIds st /\
  (app_sources st !! sourcePdfId pg = None ->
     openEditor lib pg st w = (setIsProcessing false st, w)) /\
  (forall source bytes,
     app_sources st !! sourcePdfId pg = Some source ->
     buffers w !! src_data source = Some (Live bytes) ->
     match pdfjsParse lib bytes ≫= (fun doc => doc !! pageIndex pg) with
     | Some sp =>
         app_editorPage (fst (openEditor lib pg st w)) =
           Some (pg, rasterize lib sp (15 / 10) (Some (rotation pg))) /\
         app_isProcessing (fst (openEditor lib pg st w)) = false
     | None =>
         app_editorPage (fst (openEditor lib pg st w)) = app_editorPage st /\
         app_isProcessing (fst (openEditor lib pg st w)) = true
     end).
Proof.
  unfold openEditor.
  destruct (app_sources st !! sourcePdfId pg) as [source|] eqn:Es.
  - assert (Hkeep : forall r : Result string * World,
      let st' := fst (match r with
                      | (Ok url, w1) =>
                          (setIsProcessing false
                             (setEditorPage (Some (pg, url))
                                (setIsProcessing true st)), w1)
                      | (Throw _, w1) => (setIsProcessing true st, w1)
                      end) in
      app_pages st' = app_pages st /\ app_sources st' = app_sources st /\
      app_selectedPageIds st' = app_selectedPageIds st).
    { intros [[url|msg] w1]; simpl; repeat split. }
    destruct (Hkeep (renderHighResPage lib pg source w)) as (H1 & H2 & H3).
    split; [exact H1|]. split; [exact H2|]. split; [exact H3|].
    split; [discriminate|].
    intros source' bytes [= <-] Hb.
    rewrite (renderHighResPage_run lib pg source w bytes Hb).
    destruct (pdfjsParse lib bytes) as [doc|]; simpl; [|split; reflexivity].
    destruct (doc !! pageIndex pg); simpl; split; reflexivity.
  - repeat split. intros source bytes H. discriminate.
Qed.

Lemma X15_openEditor_witness :
  app_editorPage (fst (openEditor demoLibs demoSecond demoApp demoWorld)) =
    Some (demoSecond,
          rasterize demoLibs (mkPdfPage (sourceBody 1) 90 595 842) (15 / 10)
                    (Some (rotation demoSecond))) /\
  app_isProcessing (fst (openEditor demoLibs demoSecond demoApp demoWorld)) =
    false.
Proof.
  exact (proj2 (proj2 (proj2 (proj2
           (X15_openEditor_outcomes demoLibs demoSecond demoApp demoWorld))))
           demoSource [] eq_refl eq_refl).
Defined.

Lemma exportPage_refused lib (sources : gmap string SourcePDF) pageData
      source w bytes :
  sources !! sourcePdfId pageData = Some source ->
  buffers w !! src_data source = Some (Live bytes) ->
  pdflibParse lib bytes = None ->
  exists w',
    exportPage lib sources pageData w =
    (Throw "Failed to parse PDF document", w').
Proof.
  intros Hs Hb Hd. unfold exportPage. rewrite Hs.
  unfold bind at 1. unfold PDFDocument_load, bind, logCall, readBuffer. simpl.
  rewrite Hb, Hd. simpl. eauto.
Qed.

Lemma exportPage_missing lib (sources : gmap string SourcePDF) pageData
      source w bytes doc :
  sources !! sourcePdfId pageData = Some source ->
  buffers w !! src_data source = Some (Live bytes) ->
  pdflibParse lib bytes = Some doc ->
  doc !! pageIndex pageData = None ->
  exists w',
    exportPage lib sources pageData w = (Throw "Invalid page index", w').
Proof.
  intros Hs Hb Hd Hp. unfold exportPage. rewrite Hs.
  unfold bind at 1. unfold PDFDocument_load, bind, logCall, readBuffer. simpl.
  rewrite Hb, Hd. simpl. rewrite Hp. simpl. eauto.
Qed.

Lemma mergedPages_described lib (sources : gmap string SourcePDF) sid name r
      stored doc :
  sources !! sid = Some (mkSource sid name r) ->
  pdflibParse lib stored = Some doc ->
  forall ps i k w,
    buffers w !! r = Some (Live stored) ->
    (i + length ps <= length doc)%nat ->
    exists w',
      mergedPages lib (described lib sid i k ps) sources w =
        (Ok (map untouched (take (length ps) (drop i doc))), w') /\
      buffers w' = buffers w.
Proof.
  intros Hs Hd. unfold mergedPages.
  induction ps as [|p ps IH]; intros i k w Hb Hlen; simpl.
  - exists w. split; reflexivity.
  - simpl in Hlen.
    destruct (lookup_lt_is_Some_2 doc i ltac:(lia)) as [sp Hi].
    pose proof (exportPage_run lib sources
                  (mkPage (uuid lib k) sid i 0
                          (rasterize lib p (5 / 10) None)
                          (fst (viewport lib p (5 / 10) None) * 2)
                          (snd (viewport lib p (5 / 10) None) * 2) [])
                  (mkSource sid name r) w stored doc sp Hs Hb Hd Hi) as E.
    cbv zeta in E. cbn [page_annotations rotation] in E.
    unfold bind at 1. rewrite E. clear E.
    destruct (IH (S i) (S k)
                (mkWorld (buffers w)
                   (calls w ++ [mkCall pdflib_load
                                  (src_data (mkSource sid name r))])
                   (uuidsDrawn w)) Hb ltac:(lia)) as (w' & E' & Hb').
    unfold bind at 1. rewrite E'. exists w'. split; [|exact Hb'].
    unfold ret. rewrite (drop_S doc sp i Hi). simpl.
    unfold untouched at 2. destruct sp; simpl. rewrite Z.add_0_r.
    reflexivity.
Qed.

Lemma mergedPages_described_short lib (sources : gmap string SourcePDF) sid
      name r stored doc :
  sources !! sid = Some (mkSource sid name r) ->
  pdflibParse lib stored = Some doc ->
  forall ps i k w,
    buffers w !! r = Some (Live stored) ->
    (length doc < i + length ps)%nat -> ps <> [] ->
    exists msg w',
      mergedPages lib (described lib sid i k ps) sources w = (Throw msg, w').
Proof.
  intros Hs Hd. unfold mergedPages.
  induction ps as [|p ps IH]; intros i k w Hb Hlen Hne; [contradiction|].
  simpl in *.
  destruct (doc !! i) as [sp|] eqn:Hi.
  - pose proof (exportPage_run lib sources
                  (mkPage (uuid lib k) sid i 0
                          (rasterize lib p (5 / 10) None)
                          (fst (viewport lib p (5 / 10) None) * 2)
                          (snd (viewport lib p (5 / 10) None) * 2) [])
                  (mkSource sid name r) w stored doc sp Hs Hb Hd Hi) as E.
    cbv zeta in E. cbn [page_annotations rotation] in E.
    unfold bind at 1. rewrite E. clear E.
    apply lookup_lt_Some in Hi.
    destruct (IH (S i) (S k)
                (mkWorld (buffers w)
                   (calls w ++ [mkCall pdflib_load
                                  (src_data (mkSource sid name r))])
                   (uuidsDrawn w)) Hb ltac:(lia)) as (msg & w' & E').
    { intros ->. simpl in Hlen. lia. }
    unfold bind at 1. rewrite E'. eauto.
  - destruct (exportPage_missing lib sources
                (mkPage (uuid lib k) sid i 0
                        (rasterize lib p (5 / 10) None)
                        (fst (viewport lib p (5 / 10) None) * 2)
                        (snd (viewport lib p (5 / 10) None) * 2) [])
                (mkSource sid name r) w stored doc Hs Hb Hd Hi) as (w' & E).
    unfold bind at 1. rewrite E. eauto.
Qed.

Lemma exportPDF_run lib st w :
  app_pages st <> [] ->
  exportPDF lib st w =
  match generateFinalPDF lib (app_pages st) (app_sources st) w with
  | (Ok doc, w1) => (setIsProcessing false st, w1, Some doc)
  | (Throw _, w1) => (setIsProcessing false st, w1, None)
  end.
Proof.
  intros Hne. unfold exportPDF.
  destruct (app_pages st); [contradiction|reflexivity].
Qed.

(** X16. Load and export at once.  A PDF file that PDF.js parses to at
    least one page is loaded into the empty collection, which then has a
    descriptor for each page PDF.js found, and the collection is
    exported.  The export reads the stored bytes again, with pdf-lib.
    If pdf-lib reads the document PDF.js read, the exported document has
    the pages of the file, in order, each one as it is in the file and
    with nothing drawn over it.  In general, if pdf-lib finds at least as
    many pages as PDF.js did, the exported document has pdf-lib's reading
    of the first that many pages.  If pdf-lib finds fewer pages, or
    refuses the bytes, as it does for an encrypted file that PDF.js
    opens, the file is in the collection all the same, and the export
    fails and hands nothing to the download. *)
Theorem X16_load_then_export_gives_the_pages_back
    (lib : Libs) (f : File) (w : World) (doc : list PdfPage) :
  converts f = false ->
  pdfjsParse lib (file_bytes f) = Some doc ->
  doc <> [] ->
  let st1 := fst (processFiles lib [f] false initialApp w) in
  let w1 := snd (processFiles lib [f] false initialApp w) in
  app_pages st1 =
    described lib (uuid lib (uuidsDrawn w)) 0 (S (uuidsDrawn w)) doc /\
  (pdflibParse lib (file_bytes f) = Some doc ->
   exists st2 w2,
     exportPDF lib st1 w1 = (st2, w2, Some (map untouched doc))) /\
  (forall doc',
     pdflibParse lib (file_bytes f) = Some doc' ->
     (length doc <= length doc')%nat ->
     exists st2 w2,
       exportPDF lib st1 w1 =
       (st2, w2, Some (map untouched (take (length doc) doc')))) /\
  (forall doc',
     pdflibParse lib (file_bytes f) = Some doc' ->
     (length doc' < length doc)%nat ->
     exists st2 w2, exportPDF lib st1 w1 = (st2, w2, None)) /\
  (pdflibParse lib (file_bytes f) = None ->
   exists st2 w2, exportPDF lib st1 w1 = (st2, w2, None)).
Proof.
  intros Hc Hd Hne st1 w1. subst st1 w1.
  unfold processFiles, ingestFiles. simpl. unfold ingestFile.
  pose proof (loadPDF_run lib f w) as E. cbv zeta in E.
  rewrite Hc, Hd in E. rewrite E. clear E. simpl.
  set (sid := uuid lib (uuidsDrawn w)).
  set (r := length (buffers w)).
  set (w1 := mkWorld ((buffers w ++ [Live (file_bytes f)]) ++ [Detached])
                     (calls w ++ [mkCall pdfjs_getDocument (S r)])
                     (S (uuidsDrawn w + length doc))).
  set (sources := <[ sid := mkSource sid (file_name f) r ]> (∅ : gmap string SourcePDF)).
  set (pages := described lib sid 0 (S (uuidsDrawn w)) doc).
  assert (Hb : buffers w1 !! r = Some (Live (file_bytes f))).
  { simpl. apply lookup_app_l_Some. apply list_lookup_middle. reflexivity. }
  assert (Hs : sources !! sid = Some (mkSource sid (file_name f) r))
    by apply lookup_insert_eq.
  assert (Hpages : pages <> []).
  { subst pages. destruct doc; [contradiction|discriminate]. }
  assert (Hgood : forall doc',
     pdflibParse lib (file_bytes f) = Some doc' ->
     (length doc <= length doc')%nat ->
     exists st2 w2,
       exportPDF lib
         (setIsProcessing false
            (setPages pages
               (setSources sources (setIsProcessing true initialApp)))) w1 =
       (st2, w2, Some (map untouched (take (length doc) doc')))).
  { intros doc' Hd' Hlen.
    destruct (mergedPages_described lib sources sid (file_name f) r
                (file_bytes f) doc' Hs Hd' doc 0%nat (S (uuidsDrawn w)) w1
                Hb Hlen) as (w2 & E2 & _).
    rewrite exportPDF_run by exact Hpages. simpl.
    rewrite generateFinalPDF_run. fold pages in E2. rewrite E2.
    assert (Hsave : forall l : list OutPage, l <> [] -> save l = l)
      by (intros [|o l] H; [contradiction|reflexivity]).
    rewrite Hsave; [eauto|].
    destruct doc as [|sp doc]; [contradiction|].
    destruct doc' as [|sp' doc']; [simpl in Hlen; lia|]. discriminate. }
  split; [reflexivity|]. split; [|split; [exact Hgood|split]].
  - intros Hsame. destruct (Hgood doc Hsame (le_n _)) as (st2 & w2 & E2).
    rewrite firstn_all in E2. eauto.
  - intros doc' Hd' Hlen.
    destruct (mergedPages_described_short lib sources sid (file_name f) r
                (file_bytes f) doc' Hs Hd' doc 0%nat (S (uuidsDrawn w)) w1
                Hb Hlen Hne) as (msg & w2 & E2).
    rewrite exportPDF_run by exact Hpages. simpl.
    rewrite generateFinalPDF_run. fold pages in E2. rewrite E2. eauto.
  - intros Hd'.
    rewrite exportPDF_run by exact Hpages. simpl.
    rewrite generateFinalPDF_run. unfold mergedPages.
    destruct doc as [|sp doc]; [contradiction|]. subst pages. simpl.
    destruct (exportPage_refused lib sources
                (mkPage (uuid lib (S (uuidsDrawn w))) sid 0 0
                        (rasterize lib sp (5 / 10) None)
                        (fst (viewport lib sp (5 / 10) None) * 2)
                        (snd (viewport lib sp (5 / 10) None) * 2) [])
                (mkSource sid (file_name f) r) w1 (file_bytes f) Hs Hb Hd')
      as (w2 & E2).
    unfold bind at 1. rewrite E2. eauto.
Qed.

Lemma X16_round_trip_witness :
  (exists st2 w2,
     exportPDF demoLibs
       (fst (processFiles demoLibs [demoFile] false initialApp demoWorld))
       (snd (processFiles demoLibs [demoFile] false initialApp demoWorld)) =
     (st2, w2, Some (map untouched demoDoc))) /\
  (exists st2 w2,
     exportPDF lockedLibs
       (fst (processFiles lockedLibs [demoFile] false initialApp demoWorld))
       (snd (processFiles lockedLibs [demoFile] false initialApp demoWorld)) =
     (st2, w2, None)).
Proof.
  assert (Hne : demoDoc <> []) by discriminate.
  split.
  - exact (proj1 (proj2 (X16_load_then_export_gives_the_pages_back
                           demoLibs demoFile demoWorld demoDoc
                           eq_refl eq_refl Hne)) eq_refl).
  - exact (proj2 (proj2 (proj2 (proj2
             (X16_load_then_export_gives_the_pages_back
                lockedLibs demoFile demoWorld demoDoc
                eq_refl eq_refl Hne)))) eq_refl).
Defined.

(** X17. Export of a page that carries annotations.  All of them are
    painted, in order, on one canvas of the descriptor's size; the canvas
    is encoded as PNG into a new buffer, which is handed to the PNG
    embedder, and the picture is laid over the whole copied page, from
    its corner (0, 0) and at the size of the page in the source, so it is
    stretched from the descriptor's size to that size.  When the canvas
    gives no 2D context the page is exported without its annotations and
    without an error. *)
Theorem X17_export_flattens_annotations_into_one_layer
    (lib : Libs) (sources : gmap string SourcePDF) (p : PDFPageData)
    (source : SourcePDF) (w : World) (bytes : Bytes) (doc : list PdfPage)
    (sp : PdfPage) :
  sources !! sourcePdfId p = Some source ->
  buffers w !! src_data source = Some (Live bytes) ->
  pdflibParse lib bytes = Some doc ->
  doc !! pageIndex p = Some sp ->
  page_annotations p <> [] ->
  exists out w',
    exportPage lib sources p w = (Ok (Some out), w') /\
    out_page out = mkPdfPage (pdf_body sp) (pdf_rotation sp + rotation p)
                             (pdf_width sp) (pdf_height sp) /\
    match getContext lib (originalWidth p) (originalHeight p) with
    | Some ctx =>
        out_layers out =
          [mkLayer (flatten ctx (page_annotations p))
                   (originalWidth p) (originalHeight p)
                   0 0 (pdf_width sp) (pdf_height sp)] /\
        buffers w' =
          buffers w ++ [Live (encodePng lib (flatten ctx (page_annotations p)))] /\
        callsSince w w' =
          [mkCall pdflib_load (src_data source);
           mkCall pdflib_embedPng (length (buffers w))]
    | None =>
        out_layers out = [] /\
        buffers w' = buffers w /\
        callsSince w w' = [mkCall pdflib_load (src_data source)]
    end.
Proof.
  intros Hs Hb Hd Hp Hne.
  pose proof (exportPage_run lib sources p source w bytes doc sp Hs Hb Hd Hp)
    as E. cbv zeta in E.
  destruct (page_annotations p) as [|a l] eqn:Ea; [contradiction|].
  destruct (getContext lib (originalWidth p) (originalHeight p)) as [ctx|];
    eexists _, _; (split; [exact E|]); (split; [reflexivity|]);
    unfold callsSince; simpl; rewrite drop_app_length; repeat split.
Qed.

Lemma X17_flatten_witness :
  exists out w',
    exportPage demoLibs demoSources demoMarked demoWorld =
      (Ok (Some out), w') /\
    out_page out = mkPdfPage (sourceBody 1) (90 + 0) 595 842 /\
    out_layers out =
      [mkLayer (flatten newCtx (page_annotations demoMarked))
               595 842 0 0 595 842] /\
    buffers w' =
      [Live []] ++
      [Live (encodePng demoLibs
               (flatten newCtx (page_annotations demoMarked)))] /\
    callsSince demoWorld w' =
      [mkCall pdflib_load 0%nat; mkCall pdflib_embedPng 1%nat].
Proof.
  apply (X17_export_flattens_annotations_into_one_layer
           demoLibs demoSources demoMarked demoSource demoWorld [] demoDoc
           (mkPdfPage (sourceBody 1) 90 595 842));
    [reflexivity | reflexivity | reflexivity | reflexivity | discriminate].
Defined.

(* ===================================================================== *)
(** * Further properties of the renderers                                  *)
(* ===================================================================== *)

Lemma cssColor_flattenAnnotation ann ctx :
  cssColor (flattenAnnotation ann ctx) = cssColor ctx.
Proof.
  render. destruct (ann_type ann);
    try destruct (truthy (ann_text ann));
    try destruct (truthy (ann_imageData ann)); reflexivity.
Qed.

Lemma cssColor_clipboardAnnotation scale ann ctx :
  cssColor (clipboardAnnotation scale ann ctx) = cssColor ctx.
Proof.
  unfold clipboardAnnotation. destruct (ann_type ann);
    try destruct (truthy (ann_text ann));
    try destruct (truthy (ann_imageData ann)); reflexivity.
Qed.

Lemma flattenAnnotation_painted ann ctx :
  paintable (cssColor ctx) ann ->
  painted (flattenAnnotation ann ctx) =
  painted ctx ++ exportOps (cssColor ctx) ann.
Proof.
  intros [Hc Hf]. unfold exportOps. render.
  destruct (ann_type ann) eqn:Et; simpl;
    try destruct (truthy (ann_text ann));
    try destruct (truthy (ann_imageData ann));
    simpl; rewrite ?Hc by discriminate; canvas;
    rewrite ?fontTaken_nonneg by (apply Hf; reflexivity);
    rewrite <- ?app_assoc, ?app_nil_r; reflexivity.
Qed.

Lemma clipboardAnnotation_painted scale ann ctx :
  0 < scale -> (ann_type ann <> image -> cssColor ctx (ann_color ann) = true) ->
  painted (clipboardAnnotation scale ann ctx) =
  painted ctx ++ clipboardOps (cssColor ctx) scale ann.
Proof.
  intros Hs Hc. unfold clipboardOps, clipboardAnnotation.
  assert (H12 : forall v, 0 <= Rmax 12 v)
    by (intros v; apply Rle_trans with 12; [lra|apply Rmax_l]).
  destruct (ann_type ann) eqn:Et; simpl;
    try destruct (truthy (ann_text ann));
    try destruct (truthy (ann_imageData ann));
    simpl; rewrite ?Hc by discriminate; canvas;
    rewrite ?widthTaken_pos by lra;
    rewrite ?fontTaken_nonneg by apply H12;
    rewrite <- ?app_assoc, ?app_nil_r; reflexivity.
Qed.

(** X18. Each annotation whose attributes the canvas takes is painted on
    its own: when the colour of every annotation of a list that is not a
    picture parses (and no text has a negative font size), what the
    export, and likewise the
    clipboard copy at a positive scale, paints for the list is, in the
    order of the list, what it paints for each annotation on a new
    canvas; nothing left by one annotation, or there before the loop,
    shows in another.  A colour that does not parse is not taken, and
    the colour the context was left with shows instead: a rectangle with
    such a colour that follows a rectangle whose colour parses is
    stroked in the colour of that rectangle. *)
Theorem X18_annotations_are_painted_independently
    (ctx : Ctx) (scale : R) (anns : list Annotation) :
  (Forall (paintable (cssColor ctx)) anns ->
   painted (flatten ctx anns) =
     painted ctx ++ flat_map (exportOps (cssColor ctx)) anns) /\
  (0 < scale -> Forall (paintable (cssColor ctx)) anns ->
   painted (clipboardAnnotations scale anns ctx) =
     painted ctx ++ flat_map (clipboardOps (cssColor ctx) scale) anns) /\
  (forall a b,
     ann_type a = rect -> ann_type b = rect ->
     cssColor ctx (ann_color a) = true ->
     cssColor ctx (ann_color b) = false ->
     painted (flatten ctx [a; b]) =
       painted ctx ++
       [StrokeRect (boxX (renderedBox a)) (boxY (renderedBox a))
                   (boxW (renderedBox a)) (boxH (renderedBox a))
                   (ann_color a) 4 1;
        StrokeRect (boxX (renderedBox b)) (boxY (renderedBox b))
                   (boxW (renderedBox b)) (boxH (renderedBox b))
                   (ann_color a) 4 1]).
Proof.
  split; [|split].
  - unfold flatten.
    change (painted ctx) with (painted (setTextBaselineTop ctx)).
    change (cssColor ctx) with (cssColor (setTextBaselineTop ctx)).
    generalize (setTextBaselineTop ctx). clear ctx.
    induction anns as [|a anns IH]; intros ctx Hall; simpl.
    + rewrite app_nil_r. reflexivity.
    + apply Forall_cons in Hall. destruct Hall as [Ha Hall].
      rewrite IH by (rewrite cssColor_flattenAnnotation; exact Hall).
      rewrite flattenAnnotation_painted by exact Ha.
      rewrite cssColor_flattenAnnotation, app_assoc. reflexivity.
  - intros Hs. unfold clipboardAnnotations. revert ctx.
    induction anns as [|a anns IH]; intros ctx Hall; simpl.
    + rewrite app_nil_r. reflexivity.
    + apply Forall_cons in Hall. destruct Hall as [Ha Hall].
      rewrite IH by (rewrite cssColor_clipboardAnnotation; exact Hall).
      rewrite clipboardAnnotation_painted by (exact Hs || apply Ha).
      rewrite cssColor_clipboardAnnotation, app_assoc. reflexivity.
  - intros a b Ta Tb Ca Cb. unfold flatten. simpl. render.
    unfold renderedBox. rewrite Ta, Tb. simpl. rewrite Ca, Cb. canvas.
    rewrite <- app_assoc. reflexivity.
Qed.

Lemma X18_painting_witness :
  painted (flatten newCtx [redMark; demoPicture; yellowMark]) =
    painted newCtx ++ flat_map (exportOps (cssColor newCtx))
                               [redMark; demoPicture; yellowMark] /\
  painted (flatten newCtx [redMark; colourlessMark]) =
    painted newCtx ++
    [StrokeRect (boxX (renderedBox redMark)) (boxY (renderedBox redMark))
                (boxW (renderedBox redMark)) (boxH (renderedBox redMark))
                "#ef4444" 4 1;
     StrokeRect (boxX (renderedBox colourlessMark))
                (boxY (renderedBox colourlessMark))
                (boxW (renderedBox colourlessMark))
                (boxH (renderedBox colourlessMark))
                "#ef4444" 4 1].
Proof.
  destruct (X18_annotations_are_painted_independently
              newCtx 1 [redMark; demoPicture; yellowMark])
    as (Hindep & _ & _).
  destruct (X18_annotations_are_painted_independently
              newCtx 1 [redMark; colourlessMark])
    as (_ & _ & Hleak).
  split.
  - apply Hindep.
    repeat constructor; try discriminate; intros H;
      reflexivity || (exfalso; apply H; reflexivity).
  - exact (Hleak redMark colourlessMark eq_refl eq_refl eq_refl eq_refl).
Defined.

Lemma normalize_positive x y w h :
  0 <= w -> 0 <= h -> normalize (mkBox x y w h) = mkBox x y w h.
Proof.
  intros Hw Hh. unfold normalize, flipW, flipH. simpl.
  destruct (Rlt_dec w 0); [lra|]. simpl.
  destruct (Rlt_dec h 0); [lra|]. reflexivity.
Qed.

(** X19. The clipboard picture is the export drawing magnified.  For an
    annotation whose stored extent is not negative (an arrow or a text may
    have any), the clipboard copy at a positive [scale] paints what the
    export paints, with positions, extents, line widths, the arrow head
    and the font size multiplied by [scale], as long as the scaled font
    size of a text is not under the 12 pixels the clipboard copy keeps as
    a minimum. *)
Theorem X19_clipboard_is_the_export_drawing_scaled
    (css : string -> bool) (scale : R) (ann : Annotation) :
  0 < scale ->
  (ann_type ann = arrow \/ ann_type ann = text \/
   (0 <= orZero (ann_width ann) /\ 0 <= orZero (ann_height ann))) ->
  (ann_type ann = text -> 12 <= orNum (ann_fontSize ann) 32 * scale) ->
  clipboardOps css scale ann = map (scaleOp scale) (exportOps css ann).
Proof.
  intros Hk Hext Hfont.
  unfold clipboardOps, exportOps, clipboardAnnotation, freshCtx. render.
  destruct (ann_type ann) eqn:Et.
  - (* rect *)
    destruct Hext as [H|[H|[Hw Hh]]]; try discriminate.
    rewrite (normalize_positive _ _ _ _ Hw Hh). simpl. canvas.
    rewrite widthTaken_pos by lra.
    destruct (css (ann_color ann)); reflexivity.
  - (* arrow *)
    simpl. canvas. rewrite widthTaken_pos by lra.
    unfold headVertex1, headVertex2. simpl.
    replace (ann_y ann + orZero (ann_height ann) - ann_y ann)
      with (orZero (ann_height ann)) by lra.
    replace (ann_x ann + orZero (ann_width ann) - ann_x ann)
      with (orZero (ann_width ann)) by lra.
    rewrite (atan2_scale scale _ _ Hk).
    destruct (css (ann_color ann)); repeat (f_equal; try lra).
  - (* text *)
    destruct (truthy (ann_text ann)); [|reflexivity]. simpl. canvas.
    pose proof (Hfont eq_refl) as H12.
    assert (Hpos : 0 <= orNum (ann_fontSize ann) 32) by nra.
    rewrite Rmax_right by exact H12.
    rewrite !fontTaken_nonneg by lra.
    destruct (css (ann_color ann));
      destruct (ann_fontWeight ann) as [[]|]; reflexivity.
  - (* highlight *)
    destruct Hext as [H|[H|[Hw Hh]]]; try discriminate.
    rewrite (normalize_positive _ _ _ _ Hw Hh). simpl. canvas.
    destruct (css (ann_color ann)); reflexivity.
  - (* image *)
    destruct Hext as [H|[H|[Hw Hh]]]; try discriminate.
    rewrite (normalize_positive _ _ _ _ Hw Hh).
    destruct (truthy (ann_imageData ann)); simpl; canvas; reflexivity.
Qed.

Lemma X19_clipboard_witness :
  clipboardOps hexColor 2 redMark =
  map (scaleOp 2) (exportOps hexColor redMark).
Proof.
  apply X19_clipboard_is_the_export_drawing_scaled.
  - lra.
  - right. right. simpl. lra.
  - discriminate.
Defined.





(* ===================================================================== *)
(** * Further properties of the editor                                     *)
(* ===================================================================== *)

Lemma existsb_false_Forall {A} (g : A -> bool) l :
  existsb g l = false <-> Forall (fun c => g c = false) l.
Proof.
  induction l as [|c l IH]; simpl.
  - split; [constructor|reflexivity].
  - rewrite Bool.orb_false_iff, IH. split.
    + intros [H1 H2]. constructor; assumption.
    + intros H. apply Forall_cons in H. exact H.
Qed.

Lemma acceptedText_blank answer : acceptedText answer = false <-> blank answer.
Proof.
  destruct answer as [t|]; simpl; [|tauto].
  unfold trimNonEmpty. rewrite Bool.andb_false_iff, existsb_false_Forall.
  split.
  - intros [H|H].
    + apply Bool.negb_false_iff, String.eqb_eq in H. subst t. constructor.
    + eapply Forall_impl; [exact H|]. intros c Hc. simpl in Hc.
      apply Bool.negb_false_iff. exact Hc.
  - intros H. right. eapply Forall_impl; [exact H|]. intros c Hc. simpl in Hc.
    simpl. rewrite Hc. reflexivity.
Qed.

Lemma syncFont_fixed s :
  (forall a, a ∈ annotations s -> idIs (selectedId s) a = true ->
             ann_type a = text ->
             ann_fontSize a = Some (fontSize s) /\
             ann_fontWeight a = Some (weightOf (isBold s))) ->
  syncFont s = s.
Proof.
  intros H. unfold syncFont. destruct (truthy (selectedId s)); [|reflexivity].
  rewrite <- (setAnnotations_same s) at 3. f_equal.
  rewrite <- (map_id (annotations s)) at 2.
  apply map_ext_in. intros a Ha.
  destruct (idIs (selectedId s) a) eqn:E; [|reflexivity].
  destruct (ann_type a) eqn:Et; try reflexivity.
  destruct (H a (proj2 (list_elem_of_In _ _) Ha) E Et) as [Hf Hw].
  destruct a; simpl in *. subst. reflexivity.
Qed.

Lemma handleMouseMove_idle pr e s :
  interactionMode s = mode_none -> isDrawing s = false ->
  dispatch (handleMouseMove pr e) s = s.
Proof.
  intros Hm Hd.
  assert (E : handleMouseMove pr e s = s).
  { unfold handleMouseMove. rewrite Hm, Hd. simpl.
    destruct (currentAnnotation s); reflexivity. }
  unfold dispatch. rewrite E.
  rewrite depsChanged_same by reflexivity. reflexivity.
Qed.

Lemma moves_idle pr es s :
  interactionMode s = mode_none -> isDrawing s = false -> moves pr es s = s.
Proof.
  intros Hm Hd. unfold moves.
  induction es as [|e es IH]; simpl; [reflexivity|].
  rewrite handleMouseMove_idle by assumption. exact IH.
Qed.

Lemma handleMouseUp_not_drawing uuid s :
  isDrawing s = false ->
  dispatch (handleMouseUp uuid) s =
  setInitialAnnState None
    (setResizeHandle None (setInteractionMode mode_none s)).
Proof.
  intros Hd. unfold dispatch, handleMouseUp. rewrite Hd. simpl.
  rewrite depsChanged_same by reflexivity. reflexivity.
Qed.

(** X21. A click with the text tool.  When the prompt is cancelled or the
    answer is empty or made only of characters that [trim] removes (the
    white space and line terminators of ECMAScript: the ASCII ones, the
    no-break space, the ideographic space and the others), nothing is
    added and the selection stays; otherwise exactly one text annotation is added at
    the end of the list, at the pointer position, with the answer as
    typed (not trimmed), the toolbar's colour, font size and weight, and
    it becomes the selection.  Either way the gesture ends not drawing,
    pointer moves in between change nothing, and the tool stays the text
    tool. *)
Theorem X21_text_tool_click
    (pr : Props) (e : MouseEvent) (es : list MouseEvent)
    (answer : option string) (uuid0 uuid : string) (s : EditorState) :
  interactionMode s = mode_none ->
  tool s = shape text ->
  (forall a, a ∈ annotations s -> ann_id a <> uuid0) ->
  (blank answer ->
     annotations (drawGesture pr e es answer uuid0 uuid s) = annotations s /\
     selectedId (drawGesture pr e es answer uuid0 uuid s) = selectedId s) /\
  (~ blank answer ->
     annotations (drawGesture pr e es answer uuid0 uuid s) =
       annotations s ++
       [mkAnnotation uuid0 text (pt_x (getPointerPos pr e))
                     (pt_y (getPointerPos pr e)) None None answer (color s)
                     (Some (fontSize s)) (Some (weightOf (isBold s))) None] /\
     selectedId (drawGesture pr e es answer uuid0 uuid s) = Some uuid0) /\
  isDrawing (drawGesture pr e es answer uuid0 uuid s) = false /\
  currentAnnotation (drawGesture pr e es answer uuid0 uuid s) =
    currentAnnotation s /\
  tool (drawGesture pr e es answer uuid0 uuid s) = shape text.
Proof.
  intros Hm Ht Hfresh. unfold drawGesture.
  set (newAnn := mkAnnotation uuid0 text (pt_x (getPointerPos pr e))
                   (pt_y (getPointerPos pr e)) None None answer (color s)
                   (Some (fontSize s)) (Some (weightOf (isBold s))) None).
  assert (Hdown : dispatch (handleMouseDown pr e answer uuid0) s =
                  if acceptedText answer
                  then setIsDrawing false
                         (setSelectedId (Some uuid0)
                            (setAnnotations (annotations s ++ [newAnn])
                               (setIsDrawing true
                                  (setDragStartPos (getPointerPos pr e) s))))
                  else setIsDrawing false
                         (setIsDrawing true
                            (setDragStartPos (getPointerPos pr e) s))).
  { unfold dispatch, handleMouseDown. rewrite Hm, Ht. cbv zeta.
    destruct (acceptedText answer).
    - fold newAnn.
      match goal with |- (if ?c then _ else _) = _ => destruct c end;
        [|reflexivity].
      apply syncFont_fixed. simpl. intros a Ha Hid _.
      apply elem_of_app in Ha. destruct Ha as [Ha|Ha].
      + apply String.eqb_eq in Hid. exfalso. exact (Hfresh a Ha Hid).
      + apply list_elem_of_singleton in Ha. subst a. split; reflexivity.
    - rewrite depsChanged_same by reflexivity. reflexivity. }
  rewrite Hdown. clear Hdown.
  destruct (acceptedText answer) eqn:Ea.
  - rewrite moves_idle by (simpl; assumption || reflexivity).
    rewrite handleMouseUp_not_drawing by reflexivity. simpl.
    split; [intros Hb; apply acceptedText_blank in Hb; congruence|].
    split; [intros _; split; reflexivity|].
    split; [reflexivity|]. split; [reflexivity|exact Ht].
  - rewrite moves_idle by (simpl; assumption || reflexivity).
    rewrite handleMouseUp_not_drawing by reflexivity. simpl.
    split; [intros _; split; reflexivity|].
    split; [intros Hb; exfalso; apply Hb, acceptedText_blank; exact Ea|].
    split; [reflexivity|]. split; [reflexivity|exact Ht].
Qed.

Lemma codePoints_samples :
  codePoints nbspOnly = [0xA0%N] /\
  codePoints ideographicSpaceOnly = [0x3000%N] /\
  codePoints " hi" = [0x20%N; 0x68%N; 0x69%N].
Proof. repeat split. Qed.

Lemma blank_samples :
  blank (Some nbspOnly) /\ blank (Some ideographicSpaceOnly) /\
  blank (Some " "%string) /\ ~ blank (Some " hi"%string).
Proof.
  split; [|split; [|split]]; try (repeat constructor).
  intros H. apply acceptedText_blank in H. vm_compute in H. discriminate.
Qed.

Lemma X21_text_tool_witness :
  (annotations (drawGesture scenarioProps (mkMouseEvent 10 20) []
                  (Some nbspOnly) "n1" "n2"
                  (scenarioState (shape text))) =
     annotations (scenarioState (shape text)) /\
   selectedId (drawGesture scenarioProps (mkMouseEvent 10 20) []
                 (Some nbspOnly) "n1" "n2"
                 (scenarioState (shape text))) =
     selectedId (scenarioState (shape text))) /\
  (annotations (drawGesture scenarioProps (mkMouseEvent 10 20) []
                  (Some " hi"%string) "n1" "n2"
                  (scenarioState (shape text))) =
     annotations (scenarioState (shape text)) ++
     [mkAnnotation "n1" text
        (pt_x (getPointerPos scenarioProps (mkMouseEvent 10 20)))
        (pt_y (getPointerPos scenarioProps (mkMouseEvent 10 20)))
        None None (Some " hi"%string)
        (color (scenarioState (shape text)))
        (Some (fontSize (scenarioState (shape text))))
        (Some (weightOf (isBold (scenarioState (shape text))))) None] /\
   selectedId (drawGesture scenarioProps (mkMouseEvent 10 20) []
                 (Some " hi"%string) "n1" "n2"
                 (scenarioState (shape text))) = Some "n1"%string).
Proof.
  assert (Hfresh : forall a, a ∈ annotations (scenarioState (shape text)) ->
                             ann_id a <> "n1"%string).
  { intros a Ha. simpl in Ha. apply not_elem_of_nil in Ha. contradiction. }
  split.
  - apply (proj1 (X21_text_tool_click scenarioProps (mkMouseEvent 10 20) []
                    (Some nbspOnly) "n1" "n2" (scenarioState (shape text))
                    eq_refl eq_refl Hfresh)).
    exact (proj1 blank_samples).
  - apply (proj1 (proj2 (X21_text_tool_click scenarioProps
                           (mkMouseEvent 10 20) []
                           (Some " hi"%string) "n1" "n2"
                           (scenarioState (shape text))
                           eq_refl eq_refl Hfresh))).
    exact (proj2 (proj2 (proj2 blank_samples))).
Defined.

Lemma findById_NoDup id l ann :
  NoDup (map ann_id l) -> findById id l = Some ann ->
  forall a, a ∈ l -> ann_id a = id -> a = ann.
Proof.
  unfold findById. induction l as [|b l IH]; simpl; [discriminate|].
  intros Hnd Hf a Ha Hid. apply NoDup_cons in Hnd. destruct Hnd as [Hb Hnd].
  apply elem_of_cons in Ha.
  destruct (String.eqb_spec (ann_id b) id) as [Hbid|Hbid].
  - injection Hf as <-. destruct Ha as [->|Ha]; [reflexivity|].
    exfalso. apply Hb. rewrite Hbid, <- Hid.
    apply list_elem_of_In. apply in_map, list_elem_of_In. exact Ha.
  - destruct Ha as [->|Ha]; [contradiction|]. apply IH; assumption.
Qed.

Lemma findById_Some id l ann :
  findById id l = Some ann -> ann ∈ l /\ ann_id ann = id.
Proof.
  unfold findById. intros H. apply find_some in H. destruct H as [H1 H2].
  split; [apply list_elem_of_In; exact H1|apply String.eqb_eq; exact H2].
Qed.

Lemma orNum_orNum v : orNum (Some (orNum v 32)) 32 = orNum v 32.
Proof.
  unfold orNum. destruct v as [r|].
  - destruct (Req_dec_T r 0) as [H|H].
    + destruct (Req_dec_T 32 0); [lra|reflexivity].
    + destruct (Req_dec_T r 0); [contradiction|reflexivity].
  - destruct (Req_dec_T 32 0); [lra|reflexivity].
Qed.

(** X22. Selecting an annotation changes no drawing.  A press on an
    annotation with the select tool selects it and copies to the toolbar
    its colour (unless it is a highlight, whose colour never reaches the
    toolbar) and, for a text, its font size (32 when it stores none) and
    its weight; the effect that then writes the toolbar's font back to
    the selection leaves every annotation painted as before. *)
Theorem X22_selecting_changes_no_drawing
    (css : string -> bool) (pr : Props) (e : MouseEvent) (id : string)
    (s : EditorState) (ann : Annotation) :
  tool s = select ->
  NoDup (map ann_id (annotations s)) ->
  findById id (annotations s) = Some ann ->
  selectedId (dispatch (handleAnnotationMouseDown pr e id) s) = Some id /\
  map (exportOps css)
      (annotations (dispatch (handleAnnotationMouseDown pr e id) s))
    = map (exportOps css) (annotations s) /\
  color (dispatch (handleAnnotationMouseDown pr e id) s) =
    (match ann_type ann with highlight => color s | _ => ann_color ann end) /\
  (ann_type ann = text ->
     fontSize (dispatch (handleAnnotationMouseDown pr e id) s) =
       orNum (ann_fontSize ann) 32 /\
     isBold (dispatch (handleAnnotationMouseDown pr e id) s) =
       match ann_fontWeight ann with Some bold => true | _ => false end) /\
  (ann_type ann <> text ->
     fontSize (dispatch (handleAnnotationMouseDown pr e id) s) = fontSize s /\
     isBold (dispatch (handleAnnotationMouseDown pr e id) s) = isBold s).
Proof.
  intros Ht Hnd Hf. unfold dispatch.
  set (h := handleAnnotationMouseDown pr e id s).
  assert (Hh : annotations h = annotations s /\ selectedId h = Some id /\
               color h = (match ann_type ann with
                          | highlight => color s | _ => ann_color ann end) /\
               (ann_type ann = text ->
                  fontSize h = orNum (ann_fontSize ann) 32 /\
                  isBold h = match ann_fontWeight ann with
                             | Some bold => true | _ => false end) /\
               (ann_type ann <> text ->
                  fontSize h = fontSize s /\ isBold h = isBold s)).
  { subst h. unfold handleAnnotationMouseDown. rewrite Ht, Hf.
    destruct (ann_type ann); simpl; repeat split; try discriminate;
      try congruence. }
  destruct Hh as (Ha & Hs & Hc & Htx & Hnt).
  destruct (depsChanged s h).
  2:{ rewrite Ha. split; [exact Hs|]. split; [reflexivity|].
      split; [exact Hc|]. split; assumption. }
  assert (Hkeep : selectedId (syncFont h) = selectedId h /\
                  color (syncFont h) = color h /\
                  fontSize (syncFont h) = fontSize h /\
                  isBold (syncFont h) = isBold h).
  { unfold syncFont. destruct (truthy (selectedId h)); repeat split. }
  destruct Hkeep as (K1 & K2 & K3 & K4). rewrite K1, K2, K3, K4.
  split; [exact Hs|]. split; [|split; [exact Hc|split; assumption]].
  unfold syncFont. destruct (truthy (selectedId h)); [|rewrite Ha; reflexivity].
  simpl. rewrite Ha, map_map. apply map_ext_in. intros a Hin.
  rewrite Hs. simpl.
  destruct (String.eqb_spec (ann_id a) id) as [Hid|Hid]; [|reflexivity].
  destruct (ann_type a) eqn:Eta; try reflexivity.
  assert (a = ann)
    by (eapply findById_NoDup; eauto; apply list_elem_of_In; exact Hin).
  subst a. destruct (Htx Eta) as [Hfs Hb]. rewrite Hfs, Hb.
  unfold exportOps, withFont. render.
  cbn [ann_type ann_text ann_fontSize ann_fontWeight ann_color ann_x ann_y
       ann_width ann_height ann_imageData].
  rewrite Eta, orNum_orNum.
  destruct (ann_fontWeight ann) as [[]|]; reflexivity.
Qed.

Lemma X22_selecting_witness :
  selectedId (dispatch (handleAnnotationMouseDown scenarioProps
                          (mkMouseEvent 55 65) "t") notedState) =
    Some "t"%string /\
  map (exportOps hexColor)
      (annotations (dispatch (handleAnnotationMouseDown scenarioProps
                                (mkMouseEvent 55 65) "t") notedState))
    = map (exportOps hexColor) (annotations notedState) /\
  color (dispatch (handleAnnotationMouseDown scenarioProps
                     (mkMouseEvent 55 65) "t") notedState) =
    (match ann_type plainNote with
     | highlight => color notedState | _ => ann_color plainNote end) /\
  (ann_type plainNote = text ->
     fontSize (dispatch (handleAnnotationMouseDown scenarioProps
                           (mkMouseEvent 55 65) "t") notedState) =
       orNum (ann_fontSize plainNote) 32 /\
     isBold (dispatch (handleAnnotationMouseDown scenarioProps
                         (mkMouseEvent 55 65) "t") notedState) =
       match ann_fontWeight plainNote with Some bold => true | _ => false end) /\
  (ann_type plainNote <> text ->
     fontSize (dispatch (handleAnnotationMouseDown scenarioProps
                           (mkMouseEvent 55 65) "t") notedState) =
       fontSize notedState /\
     isBold (dispatch (handleAnnotationMouseDown scenarioProps
                         (mkMouseEvent 55 65) "t") notedState) =
       isBold notedState).
Proof.
  apply (X22_selecting_changes_no_drawing hexColor scenarioProps
           (mkMouseEvent 55 65) "t" notedState plainNote).
  - reflexivity.
  - simpl. apply NoDup_cons. split.
    + intros H. apply list_elem_of_singleton in H. discriminate.
    + apply NoDup_cons. split; [apply not_elem_of_nil|constructor].
  - reflexivity.
Defined.




(** X24. The zoom controls.  Zooming out never goes under 0.2 and zooming
    in never goes over 3; from a zoom in that range both buttons stay in
    it, out not above and in not under the zoom there was.  The zoom the
    editor opens with is at most 0.9, and it is positive exactly when the
    window is more than 140 pixels high. *)
Theorem X24_zoom_stays_in_range (pr : Props) (innerHeight : R)
    (s : EditorState) :
  2 / 10 <= zoom (zoomOut s) /\
  zoom (zoomIn s) <= 3 /\
  (2 / 10 <= zoom s <= 3 ->
     zoom (zoomOut s) <= zoom s <= zoom (zoomIn s) /\
     zoom (zoomOut s) <= 3 /\ 2 / 10 <= zoom (zoomIn s)) /\
  zoom (fitZoom pr innerHeight s) <= 9 / 10 /\
  (0 < originalHeight (page pr) ->
     (0 < zoom (fitZoom pr innerHeight s) <-> 140 < innerHeight)).
Proof.
  unfold zoomOut, zoomIn, fitZoom. simpl.
  split; [apply Rmax_l|]. split; [apply Rmin_l|].
  split.
  - intros [H1 H2]. unfold Rmax, Rmin.
    repeat destruct (Rle_dec _ _); lra.
  - split; [apply Rmin_l|]. intros HH.
    assert (Hq : 0 < (innerHeight - 140) / originalHeight (page pr)
                 <-> 140 < innerHeight).
    { split.
      - intros Hp.
        destruct (Rlt_dec 140 innerHeight) as [|Hn]; [assumption|exfalso].
        pose proof (Rinv_0_lt_compat _ HH) as Hi.
        unfold Rdiv in Hp. nra.
      - intros Hp. apply Rdiv_lt_0_compat; lra. }
    unfold Rmin. destruct (Rle_dec _ _); [|tauto].
    split; [intros _|intros _; lra].
    apply Hq. lra.
Qed.

Lemma X24_zoom_witness :
  zoom (zoomOut (scenarioState select))
    <= zoom (scenarioState select)
    <= zoom (zoomIn (scenarioState select)) /\
  zoom (zoomOut (scenarioState select)) <= 3 /\
  2 / 10 <= zoom (zoomIn (scenarioState select)).
Proof.
  apply (proj1 (proj2 (proj2
           (X24_zoom_stays_in_range scenarioProps 900
                                    (scenarioState select))))).
  simpl. lra.
Defined.

(** X25. Saving from the editor.  The pages keep their number and order;
    the page with the edited page's identifier gets the saved
    annotations and keeps everything else it has, every other page is as
    it was, and the editor closes.  When page identifiers are distinct,
    saving the annotations the editor started with leaves the collection
    as a cancel does. *)
Theorem X25_saving_touches_the_edited_page_only
    (st : AppState) (pg : PDFPageData) (url : string)
    (anns : list Annotation) :
  app_editorPage st = Some (pg, url) ->
  NoDup (map page_id (app_pages st)) ->
  app_editorPage (onSave anns st) = None /\
  (forall i, app_pages (onSave anns st) !! i =
             (fun q => if String.eqb (page_id q) (page_id pg)
                       then withAnnotations anns q else q)
               <$> app_pages st !! i) /\
  app_sources (onSave anns st) = app_sources st /\
  app_selectedPageIds (onSave anns st) = app_selectedPageIds st /\
  (pg ∈ app_pages st ->
     onSave (annotations (initialState pg)) st = onClose st).
Proof.
  intros He Hnd. unfold onSave, onClose. rewrite He. simpl.
  split; [reflexivity|]. split.
  { intros i. unfold saveAnnotations.
    change (map ?g ?l) with (g <$> l). apply list_lookup_fmap. }
  split; [reflexivity|]. split; [reflexivity|].
  intros Hin. unfold setEditorPage, setPages. simpl. f_equal.
  unfold saveAnnotations.
  rewrite <- (map_id (app_pages st)) at 2.
  apply map_ext_in. intros q Hq.
  destruct (String.eqb_spec (page_id q) (page_id pg)) as [Hid|Hid];
    [|reflexivity].
  assert (q = pg).
  { apply list_elem_of_In in Hq.
    apply list_elem_of_lookup in Hq, Hin.
    destruct Hq as [i Hi], Hin as [j Hj].
    assert (i = j).
    { eapply NoDup_lookup; [exact Hnd| |].
      - rewrite list_lookup_fmap, Hi. reflexivity.
      - rewrite list_lookup_fmap, Hj. simpl. rewrite Hid. reflexivity. }
    subst j. congruence. }
  subst q. destruct pg; reflexivity.
Qed.

Lemma X25_saving_witness :
  app_editorPage (onSave [yellowMark] editingApp) = None /\
  (forall i, app_pages (onSave [yellowMark] editingApp) !! i =
             (fun q => if String.eqb (page_id q) (page_id demoSecond)
                       then withAnnotations [yellowMark] q else q)
               <$> app_pages editingApp !! i) /\
  app_sources (onSave [yellowMark] editingApp) = app_sources editingApp /\
  app_selectedPageIds (onSave [yellowMark] editingApp) =
    app_selectedPageIds editingApp /\
  (demoSecond ∈ app_pages editingApp ->
     onSave (annotations (initialState demoSecond)) editingApp =
       onClose editingApp).
Proof.
  apply (X25_saving_touches_the_edited_page_only editingApp demoSecond
           "data:image/png" [yellowMark]).
  - reflexivity.
  - simpl. apply NoDup_cons. split.
    + intros H. apply list_elem_of_singleton in H. discriminate.
    + apply NoDup_cons. split; [apply not_elem_of_nil|constructor].
Defined.



Lemma syncFont_ids s :
  map ann_id (annotations (syncFont s)) = map ann_id (annotations s) /\
  selectedId (syncFont s) = selectedId s.
Proof.
  unfold syncFont. destruct (truthy (selectedId s)); [|split; reflexivity].
  simpl. split; [|reflexivity].
  rewrite map_map. apply map_ext. intros a.
  destruct (idIs (selectedId s) a); [|reflexivity].
  destruct (ann_type a); reflexivity.
Qed.

Lemma selectionValid_dispatch (h : EditorState -> EditorState) s :
  selectionValid (h s) -> selectionValid (dispatch h s).
Proof.
  unfold dispatch. destruct (depsChanged s (h s)); [|tauto].
  unfold selectionValid. destruct (syncFont_ids (h s)) as [-> ->]. tauto.
Qed.

Lemma selectionValid_same s s' :
  selectedId s' = selectedId s ->
  map ann_id (annotations s') = map ann_id (annotations s) ->
  selectionValid s -> selectionValid s'.
Proof. unfold selectionValid. intros -> ->. tauto. Qed.

Lemma selectionValid_added s' l new :
  annotations s' = l ++ [new] -> selectedId s' = Some (ann_id new) ->
  selectionValid s'.
Proof.
  intros Ha Hs j. rewrite Hs, Ha. intros [= <-].
  rewrite map_app. apply elem_of_app. right. simpl.
  apply list_elem_of_singleton. reflexivity.
Qed.

Lemma handleMouseMove_ids pr e s :
  map ann_id (annotations (handleMouseMove pr e s)) =
  map ann_id (annotations s).
Proof.
  unfold handleMouseMove. repeat case_match; simpl; try reflexivity;
    rewrite map_map; apply map_ext; intros ann0;
    destruct (idIs (selectedId s) ann0); simpl;
    rewrite ?resizeTo_fields; reflexivity.
Qed.

(** X27. The selection always names an annotation of the list.  The
    editor starts with no selection, and no event breaks the rule: not a
    press on the canvas, on an annotation or on a handle, not a pointer
    move or release, not a deletion, a colour change or an uploaded
    picture, each followed by the effect that writes the font to the
    selection. *)
Theorem X27_selection_always_names_an_annotation
    (pg : PDFPageData) (pr : Props) (e : MouseEvent)
    (answer : option string) (uuid id handle newColor data : string)
    (captured : list Annotation) (imgWidth imgHeight : R) :
  selectionValid (initialState pg) /\
  forall s, selectionValid s ->
    selectionValid (dispatch (handleMouseDown pr e answer uuid) s) /\
    selectionValid (dispatch (handleMouseMove pr e) s) /\
    selectionValid (dispatch (handleMouseUp uuid) s) /\
    selectionValid (dispatch (handleAnnotationMouseDown pr e id) s) /\
    selectionValid (dispatch (handleResizeStart pr e handle id) s) /\
    selectionValid (dispatch (deleteAnnotation id) s) /\
    selectionValid (dispatch (applyColor newColor) s) /\
    selectionValid
      (dispatch (imageUploaded captured uuid imgWidth imgHeight data) s).
Proof.
  split; [intros j; discriminate|].
  intros s Hv. repeat split; apply selectionValid_dispatch.
  - unfold handleMouseDown.
    destruct (interactionMode s); try exact Hv.
    destruct (tool s) as [|t]; [intros j; discriminate|].
    destruct t; try exact Hv. cbv zeta.
    destruct (acceptedText answer); [|exact Hv].
    eapply selectionValid_added; reflexivity.
  - apply (selectionValid_same s); [|apply handleMouseMove_ids|exact Hv].
    apply (handleMouseMove_frame pr e s).
  - unfold handleMouseUp. cbv zeta.
    destruct (isDrawing s); simpl; [|exact Hv].
    destruct (currentAnnotation s) as [cur|]; [|exact Hv].
    destruct (absExceeds5 (orZero (part_width cur))
              || absExceeds5 (orZero (part_height cur))); [|exact Hv].
    eapply selectionValid_added; reflexivity.
  - unfold handleAnnotationMouseDown.
    destruct (tool s); try exact Hv.
    destruct (findById id (annotations s)) as [ann|] eqn:Ef; [|exact Hv].
    destruct (findById_Some _ _ _ Ef) as [Hin Hid].
    assert (Hsel : id ∈ map ann_id (annotations s)).
    { rewrite <- Hid. apply list_elem_of_In, in_map, list_elem_of_In.
      exact Hin. }
    intros j.
    destruct (ann_type ann); simpl; intros [= <-]; exact Hsel.
  - unfold handleResizeStart.
    destruct (findById id (annotations s)) as [ann|] eqn:Ef; [|exact Hv].
    destruct (findById_Some _ _ _ Ef) as [Hin Hid].
    intros j. simpl. intros [= <-].
    rewrite <- Hid. apply list_elem_of_In, in_map, list_elem_of_In.
    exact Hin.
  - unfold deleteAnnotation. cbv zeta.
    destruct (bool_decide (selectedId s = Some id)) eqn:Eb;
      [intros j; discriminate|].
    apply bool_decide_eq_false_1 in Eb.
    intros j. simpl. intros Hj.
    pose proof (Hv j Hj) as Hin.
    apply list_elem_of_In, in_map_iff in Hin.
    destruct Hin as (a & Ha & Hin).
    apply list_elem_of_In, in_map_iff. exists a. split; [exact Ha|].
    apply list_elem_of_In, list_elem_of_filter. split.
    + apply Is_true_true, Bool.negb_true_iff, String.eqb_neq.
      rewrite Ha. intros ->. apply Eb. exact Hj.
    + apply list_elem_of_In. exact Hin.
  - unfold applyColor. cbv zeta.
    destruct (truthy (selectedId s));
      (apply (selectionValid_same s); [reflexivity| |exact Hv]);
      simpl; [|reflexivity].
    rewrite map_map. apply map_ext. intros a.
    destruct (idIs (selectedId s) a); reflexivity.
  - unfold imageUploaded. cbv zeta.
    eapply selectionValid_added; reflexivity.
Qed.

Lemma notedState_valid : selectionValid notedState.
Proof. intros j. discriminate. Qed.

Lemma X27_selection_witness :
  selectionValid (dispatch (handleAnnotationMouseDown scenarioProps
                              (mkMouseEvent 55 65) "t") notedState) /\
  selectionValid (dispatch (deleteAnnotation "t") notedState).
Proof.
  pose proof (proj2 (X27_selection_always_names_an_annotation
                       (page scenarioProps) scenarioProps
                       (mkMouseEvent 55 65) None "n1" "t" "se" "#000000" ""
                       [] 1 1) notedState notedState_valid) as H.
  split; [exact (proj1 (proj2 (proj2 (proj2 H))))
         |exact (proj1 (proj2 (proj2 (proj2 (proj2 (proj2 H))))))].
Defined.

(** X28. An uploaded picture.  When the picture has loaded, the list is
    the one of the render in which the file was chosen with the picture
    added at the end; the picture is put at (100, 100), 300 wide and as
    high as its own proportions ask, it is selected, and the tool is the
    select tool.  The export paints it there at that size, opaque. *)
Theorem X28_uploaded_picture_keeps_its_proportions
    (css : string -> bool) (captured : list Annotation) (uuid data : string)
    (imgWidth imgHeight : R) (s : EditorState) :
  0 < imgWidth -> 0 <= imgHeight -> data <> ""%string ->
  (forall a, a ∈ captured -> ann_id a <> uuid) ->
  exists new height,
    annotations
      (dispatch (imageUploaded captured uuid imgWidth imgHeight data) s) =
      captured ++ [new] /\
    selectedId
      (dispatch (imageUploaded captured uuid imgWidth imgHeight data) s) =
      Some uuid /\
    tool (dispatch (imageUploaded captured uuid imgWidth imgHeight data) s) =
      select /\
    ann_id new = uuid /\ ann_type new = image /\
    height * imgWidth = 300 * imgHeight /\
    exportOps css new = [DrawImage data 100 100 300 height 1].
Proof.
  intros Hw Hh Hd Hfresh.
  set (height := 300 * (imgHeight / imgWidth)).
  set (new := mkAnnotation uuid image 100 100 (Some 300) (Some height)
                           None "" None None (Some data)).
  assert (E : dispatch (imageUploaded captured uuid imgWidth imgHeight data) s
              = imageUploaded captured uuid imgWidth imgHeight data s).
  { unfold dispatch.
    destruct (depsChanged s _); [|reflexivity].
    apply syncFont_no_text. unfold imageUploaded. simpl.
    intros a Ha Hid. apply in_app_or in Ha. destruct Ha as [Ha|[<-|[]]].
    - apply String.eqb_eq in Hid. exfalso.
      apply (Hfresh a); [apply list_elem_of_In; exact Ha|exact Hid].
    - discriminate. }
  rewrite E. exists new, height. unfold imageUploaded. simpl.
  repeat split.
  - unfold height. field. lra.
  - assert (Hpos : 0 <= height).
    { unfold height. apply Rmult_le_pos; [lra|].
      unfold Rdiv. apply Rmult_le_pos; [exact Hh|].
      left. apply Rinv_0_lt_compat. exact Hw. }
    unfold exportOps, new. render.
    cbn [ann_type ann_x ann_y ann_width ann_height ann_imageData orZero
         default].
    rewrite normalize_positive by (simpl; lra).
    simpl. destruct (String.eqb_spec data ""); [contradiction|].
    simpl. canvas. reflexivity.
Qed.

Lemma X28_upload_witness :
  exists new height,
    annotations
      (dispatch (imageUploaded [redMark] "pic" 400 200 "data:image/png")
                (scenarioState (shape image))) =
      [redMark] ++ [new] /\
    selectedId
      (dispatch (imageUploaded [redMark] "pic" 400 200 "data:image/png")
                (scenarioState (shape image))) =
      Some "pic"%string /\
    tool (dispatch (imageUploaded [redMark] "pic" 400 200 "data:image/png")
                   (scenarioState (shape image))) =
      select /\
    ann_id new = "pic"%string /\ ann_type new = image /\
    height * 400 = 300 * 200 /\
    exportOps hexColor new =
      [DrawImage "data:image/png" 100 100 300 height 1].
Proof.
  apply (X28_uploaded_picture_keeps_its_proportions hexColor [redMark] "pic"
           "data:image/png" 400 200 (scenarioState (shape image))).
  - lra.
  - lra.
  - discriminate.
  - intros a Ha. apply list_elem_of_singleton in Ha. subst a. discriminate.
Defined.
